(* ===== verification/_CoqProject ===== *)
-Q . S2P
Prelude.v
Json.v
FrameCodec.v
Playback.v
Transcript.v
TranscriptSpec.v
View.v
Recording.v
Session.v
TokenFetch.v
Clipboard.v
Component.v
