(* ===== verification/Prelude.v ===== *)
(** * A verification of the live-conversation client (gitcpone/poc)

    The program is a React component, [App] (src/src/App.jsx), and an
    earlier copy of it (src/poc2.jsx).  It holds a spoken conversation
    with a remote service: the microphone's samples go through an
    AudioWorklet that encodes them as PCM16 and sends them on a
    WebSocket; the socket's binary frames are decoded and scheduled
    back-to-back on an AudioContext; its text frames are JSON events from
    which the component pairs each prompt with the response that
    completes it, and the pairs are shown as chat bubbles.  App.jsx also
    records the user's voice with a MediaRecorder.  The parts and how
    they call each other:
<<
    CaptureEngine (worklet process, port.onmessage) --> FrameCodec.encode
        --> TransportSession.send (socket)                         outbound
    TransportSession.onmessage --> PlaybackScheduler (binary frames)
                               --> TranscriptCorrelator, MessageLog  inbound
    Teardown (stopFlow) <-- Stop button, socket onclose / onerror
    DisplayView <-- promptPairs, messages          (each render)
    ConversationRecording (MediaRecorder, timer) <-- its buttons, Clear
    TokenFetch (Update Token) --> token <-- the token input
    ClipboardCopy (Copy Token) <-- token
>>
    ** Files, modules and the code they model

    - [Prelude] (this file): the JavaScript execution model: the
      exceptions of the builtins ([exn]), a state/exception monad [JS] in
      which writes made before a [throw] survive it, [try_catch], lenses
      to run a part's handler on its part of the state; shared rational
      and list lemmas, the hint databases [poc] and [poc_rw], the tactics
      [js_simp], [qsolve], [zmod_lia].
    - [Json] (Module [Js]): the values [JSON.parse] returns, property
      reads that throw on [null], optional chaining, truthiness, [||],
      [===] against a literal, SameValueZero, and an induction principle
      through arrays and objects.  [JSON.parse] itself is the class
      [JsonParse]: every theorem holds for any parser; witnesses use a
      table.
    - [FrameCodec]: the worklet's [process] (App.jsx 48-59: clamp,
      [* 32767], ToInt16 truncation and wrap-around on [Z], little-endian
      bytes) and the decoding loop of [playAudioChunk] (App.jsx 193-198).
    - [Playback]: [playAudioChunk] (App.jsx 186-218) on a [PlayState]
      with [audioCtxRef], [nextPlayTimeRef], a store of AudioContexts
      (clock from creation, frozen when closed) and the scheduled sources.
    - [Transcript]: the text branch of [onmessage] in both versions
      ([on_text], App.jsx 116-142; [on_text_poc2], poc2 114-134), the
      [lastPromptRef] slot, React's queued updaters ([queue_pair],
      [render]) and the deduplicating view (App.jsx 220-228).
    - [TranscriptSpec]: the specification's correlator (section 4.5) as an
      abstract machine, and the simulation relating the code to it.
    - [View]: the chat view of App.jsx (383-420) with its two regular
      expressions and [String.prototype.replace], React's rendering of
      child values, poc2.jsx's table (283-288) and the message logs.
    - [Recording]: the recording feature (App.jsx 240-293) and App.jsx's
      [clearAll] (172-183) on a state with a store of MediaRecorders,
      the pending [getUserMedia] calls and the bot-reply timers.
    - [Session]: the session state [App] (React state, refs, and stores
      of sockets, microphone streams and audio nodes shared by refs and
      closures), [startFlow], [onopen] and its awaited continuations, the
      worklet's [port.onmessage], [onmessage], [stopFlow]; [handle] runs
      one browser or user event, [step]/[reachable] are the transitions
      allowed when each event is [enabled]; [streaming] says a session
      still sends the microphone's frames.
    - [TokenFetch]: [fetchToken] (App.jsx 23-41): the requests in flight
      and the continuation each one runs once when its promises settle.
    - [Clipboard] (Module [ClipboardCopy]): the Copy Token handler
      (App.jsx 319-331), its two branches and the unawaited [writeText]
      promises.
    - [Component]: the page: App.jsx's state as session x recording x
      [window] (whose worklet registration, App.jsx 43-66, runs on mount)
      x token requests x clipboard, with a [mounted] flag and the count
      of [scrollIntoView] calls of the scroll effect (230-234); its events,
      its view and the events each state enables ([app_enabled], each
      as its part's machine says, the page's own events only while
      mounted); Module [Poc2]: poc2.jsx's component, with its own
      [onmessage], Clear and view, and the same token and copy buttons.

    ** What is proved (claim ids C1-C40)

    - Playback: the scheduling invariant ([sched_inv]: sources on a
      context never overlap, the cursor is past them and not negative) is
      preserved by every call (C1) and holds for any run (C2); the exact
      behaviour of a call (C3).
    - Protocol and page: in every reachable session each socket carries
      the control message first and audio only after it (C4, rule
      induction).
    - FrameCodec: encode after decode is off by one step (C6), the
      quantisation error (C24), decode after encode (C25), the encoder's
      range (C26), the odd byte dropped (C27), the frame's shape (C29).
    - Transcript: every committed pair has prompt [null], with renders
      between frames (C7) and in a burst (C28); a response paired with
      the prompt that follows it (C5); the display view against its
      specification (C30), empty prompts (C31); poc2.jsx's text branch
      equals App.jsx's (C11); the refinement of the specification's
      correlator, prompts lost (C10).
    - Session: what [stopFlow] releases (C8), the speed captured by the
      socket's closure (C9), the second teardown after Stop (C32) and
      [stopFlow] run twice (C37), the
      leaked context and the stale cursor (C33, C34), a restart that
      tears nothing down (C35), the token check (C36).
    - View and page: when App.jsx's view throws (C12); that such a render
      unmounts the page while the session streams on, no button left to
      stop it (C13); that poc2.jsx's table survived the same render (C14);
      the scroll effect, once per render that adds pairs (C23); the two
      Clear buttons (C40).
    - Recording: the recorder leaked by two quick clicks (C15), Clear
      during a recording (C16), the user/bot balance without Clear
      (C38), the bot replies eventually appended (C39).
    - Token and clipboard: overlapping token requests, the last answer
      winning over a newer key and a typed token (C17); a non-string key
      that disables Start (C18); the copy alert raised before the write,
      which may be refused (C19); the key stored (C20), the caught
      failures (C21) and the silently ignored error bodies (C22).
    Each theorem with hypotheses has a witness applying it to a concrete
    input ([Session.demo_live], [Component.demo_orphan], ...).

    ** Modelling choices, bounds and fuel

    Samples and times are exact rationals: the products and quotients the
    code computes on finite float32 values are exact in double (NaN and
    infinities are not modelled).  Bytes are [Z] in [0, 256), PCM16
    values [Z] with ToInt16's modulo written out.  Real time is a state
    field advanced by [Tick].  A React updater function is queued by its
    setter and run when React renders ([Transcript.render]), so
    [setPromptPairs]'s updater reads [lastPromptRef] as the render finds
    it; the recording's setters and [setToken] are
    committed in call order.  The token is a JavaScript value, a string
    unless [fetchToken] stored another.  The component is mounted by a
    React 18 root without an error boundary (none is in the repository),
    so a render that throws unmounts it.  The browser's network and
    clipboard are the environment: a request's answer and a write's
    permission are event parameters, the presence of
    [navigator.clipboard] the class [BrowserEnv].  Strings are Stdlib
    [string]s of code units below 256.  The only fuel is that of the
    replace scan, [length s + 1], which [View.strip_terminates] shows is
    enough; every
    other function is structural.

    ** Not modelled

    The styles and layout of the JSX and the [console.log] calls: they
    are presentation with no state of the program ([scrollIntoView] is
    modelled as a count of calls, not as a scroll position).  The HTTP request of [fetchToken] and the
    URL of the WebSocket are I/O whose content the code does not read
    back.  poc2.jsx's [startFlow], [stopFlow], [playAudioChunk], worklet
    registration and token and copy buttons are the same code as
    App.jsx's and use the same definitions (see [Poc2]). *)

From stdpp Require Import base list.
From Stdlib Require Import QArith Qround Lqa ZArith Lia.

Declare Scope poc_scope.
Delimit Scope poc_scope with poc.

Create HintDb poc.
Create Rewrite HintDb poc_rw.

(** ** Exceptions and the state/exception monad *)

(** The exceptions the modelled code can observe: [SyntaxError] from
    [JSON.parse], [TypeError] from a property read on [null],
    [NotSupportedError] from [AudioContext.createBuffer] with zero
    frames, [InvalidStateError] from closing a closed [AudioContext],
    [NotAllowedError] from a refused [navigator.clipboard.writeText]. *)
Inductive exn :=
| SyntaxError
| TypeError
| RangeError
| NotSupportedError
| InvalidStateError
| NotAllowedError.

#[export] Instance exn_eq_dec : EqDecision exn.
Proof. solve_decision. Defined.

Inductive outcome (A : Type) :=
| Normal (a : A)
| Thrown (e : exn).
Arguments Normal {A} a.
Arguments Thrown {A} e.

(** A statement sequence run on a state [S]: the new state is returned
    also when an exception escapes, exactly as JavaScript keeps the
    assignments made before the [throw]. *)
Definition JS (S A : Type) : Type := S -> S * outcome A.

#[export] Instance js_ret {S} : MRet (JS S) := fun A a s => (s, Normal a).
#[export] Instance js_bind {S} : MBind (JS S) := fun A B k m s =>
  match m s with
  | (s', Normal a) => k a s'
  | (s', Thrown e) => (s', Thrown e)
  end.

Definition js_get {S} : JS S S := fun s => (s, Normal s).
Definition js_put {S} (s : S) : JS S unit := fun _ => (s, Normal tt).
Definition js_modify {S} (f : S -> S) : JS S unit := fun s => (f s, Normal tt).
Definition js_throw {S A} (e : exn) : JS S A := fun s => (s, Thrown e).

(** [try { m } catch { h }]: the handler runs on the state the failing
    body left behind. *)
Definition try_catch {S A} (m : JS S A) (h : exn -> JS S A) : JS S A := fun s =>
  match m s with
  | (s', Normal a) => (s', Normal a)
  | (s', Thrown e) => h e s'
  end.

(** Run a statement for its effect on the state. *)
Definition exec {S A} (m : JS S A) (s : S) : S := fst (m s).

(** ** Lenses: a component's state inside the application state *)

Record lens (S T : Type) := {
  view : S -> T;
  update : T -> S -> S;
  view_update : forall t s, view (update t s) = t;
  update_view : forall s, update (view s) s = s;
  update_update : forall t t' s, update t (update t' s) = update t s
}.
Arguments view {S T} l s.
Arguments update {S T} l t s.

Definition zoom {S T A} (l : lens S T) (m : JS T A) : JS S A := fun s =>
  let '(t', r) := m (view l s) in (update l t' s, r).

(** ** Laws of the monad *)

Section MonadLaws.
Context {S : Type}.

Lemma js_bind_ret_l {A B} (a : A) (k : A -> JS S B) s :
    (mret a ≫= k) s = k a s.
  Proof. reflexivity. Qed.

Lemma js_bind_ret_r {A} (m : JS S A) s : (m ≫= mret) s = m s.
  Proof. unfold mbind, js_bind. by destruct (m s) as [? []]. Qed.

Lemma js_bind_assoc {A B C} (m : JS S A) (k : A -> JS S B) (k' : B -> JS S C) s :
    ((m ≫= k) ≫= k') s = (m ≫= (fun a => k a ≫= k')) s.
  Proof. unfold mbind, js_bind. by destruct (m s) as [? []]. Qed.

Lemma js_bind_normal {A B} (m : JS S A) (k : A -> JS S B) s s' a :
    m s = (s', Normal a) -> (m ≫= k) s = k a s'.
  Proof. intros H. unfold mbind, js_bind. by rewrite H. Qed.

Lemma js_bind_thrown {A B} (m : JS S A) (k : A -> JS S B) s s' e :
    m s = (s', Thrown e) -> (m ≫= k) s = (s', Thrown e).
  Proof. intros H. unfold mbind, js_bind. by rewrite H. Qed.

Lemma try_catch_normal {A} (m : JS S A) h s s' a :
    m s = (s', Normal a) -> try_catch m h s = (s', Normal a).
  Proof. intros H. unfold try_catch. by rewrite H. Qed.

Lemma try_catch_thrown {A} (m : JS S A) h s s' e :
    m s = (s', Thrown e) -> try_catch m h s = h e s'.
  Proof. intros H. unfold try_catch. by rewrite H. Qed.
End MonadLaws.

#[export] Hint Rewrite @js_bind_ret_l @js_bind_assoc : poc_rw.

(** Unfold the monad's plumbing so that a handler applied to a concrete
    shape of state computes. *)
Ltac js_simp :=
  cbn [mbind mret js_bind js_ret js_get js_put js_modify js_throw
       try_catch exec fst snd zoom view update] in *.

(** ** Rational numbers: clock times, durations and samples *)

Local Open Scope Q_scope.

Lemma Qdiv_nonneg (a b : Q) : 0 <= a -> 0 < b -> 0 <= a / b.
Proof.
  intros Ha Hb. unfold Qdiv. apply Qmult_le_0_compat; [done|].
  apply Qlt_le_weak, Qinv_lt_0_compat, Hb.
Qed.

Lemma Qdiv_pos (a b : Q) : 0 < a -> 0 < b -> 0 < a / b.
Proof.
  intros Ha Hb. unfold Qdiv.
  apply (Qmult_lt_0_compat a (/ b)); [done|].
  apply Qinv_lt_0_compat, Hb.
Qed.

#[export] Hint Resolve Qdiv_nonneg Qdiv_pos : poc.

(** [lra] after recording the sign of every quotient by a positive
    divisor in the context (lra treats [a / b] as an atom). *)
Ltac qsolve :=
  repeat match goal with
  | H : 0 < ?b, H' : 0 <= ?a |- context [?a / ?b] =>
      lazymatch goal with
      | _ : 0 <= a / b |- _ => fail
      | _ => pose proof (Qdiv_nonneg a b H' H)
      end
  end; lra.

(** [Qle_bool] and [Qlt]-tests of the source, as booleans. *)
Definition Qltb (x y : Q) : bool := negb (Qle_bool y x).

Lemma Qltb_iff (x y : Q) : Qltb x y = true <-> x < y.
Proof.
  unfold Qltb. rewrite negb_true_iff. split.
  - intros H. apply Qnot_le_lt. intros Hle. apply Qle_bool_iff in Hle. congruence.
  - intros H. destruct (Qle_bool y x) eqn:E; [|done].
    apply Qle_bool_iff in E. lra.
Qed.

Lemma Qltb_false (x y : Q) : Qltb x y = false <-> y <= x.
Proof.
  unfold Qltb. rewrite negb_false_iff. apply Qle_bool_iff.
Qed.

(** ** Lists *)

Lemma app_snoc_length {A} (l : list A) (x : A) : length (l ++ [x]) = S (length l).
Proof. rewrite length_app. simpl. lia. Qed.

#[export] Hint Rewrite @length_app @app_snoc_length : poc_rw.

Lemma inject_Z_sub (x y : Z) : inject_Z (x - y) = inject_Z x - inject_Z y.
Proof. unfold Qminus. by rewrite <- inject_Z_opp, <- inject_Z_plus. Qed.

(** Push [inject_Z] through the integer operations, and turn the
    injected integer literals into rational literals, so that [lra]
    sees the integer atoms of a rational goal. *)
Ltac inject_consts :=
  repeat match goal with
  | H : context [inject_Z (Zpos ?p)] |- _ => change (inject_Z (Zpos p)) with (Qmake (Zpos p) 1) in H
  | H : context [inject_Z (Zneg ?p)] |- _ => change (inject_Z (Zneg p)) with (Qmake (Zneg p) 1) in H
  | H : context [inject_Z Z0] |- _ => change (inject_Z Z0) with (Qmake Z0 1) in H
  | |- context [inject_Z (Zpos ?p)] => change (inject_Z (Zpos p)) with (Qmake (Zpos p) 1)
  | |- context [inject_Z (Zneg ?p)] => change (inject_Z (Zneg p)) with (Qmake (Zneg p) 1)
  | |- context [inject_Z Z0] => change (inject_Z Z0) with (Qmake Z0 1)
  end.

Ltac push_inject :=
  rewrite ?inject_Z_plus, ?inject_Z_sub, ?inject_Z_opp, ?inject_Z_mult in *;
  inject_consts.

(** [lia] with the Euclidean equations of every [a mod b] and [a / b]
    by a positive constant in the goal or the context. *)
Ltac zdivmod_fact a b :=
  lazymatch goal with
  | _ : (a = b * (a / b) + a mod b)%Z |- _ => fail
  | _ => pose proof (Z.div_mod a b ltac:(lia)); pose proof (Z.mod_pos_bound a b ltac:(lia))
  end.

Ltac zmod_lia :=
  repeat match goal with
  | |- context [(?a mod ?b)%Z] => zdivmod_fact a b
  | |- context [(?a / ?b)%Z] => zdivmod_fact a b
  | _ : context [(?a mod ?b)%Z] |- _ => zdivmod_fact a b
  | _ : context [(?a / ?b)%Z] |- _ => zdivmod_fact a b
  end; lia.
