(* ===== verification/Json.v ===== *)
(** * Json: the JavaScript values the message handlers read

    The inbound text handler of [ws.onmessage] (src/src/App.jsx lines
    116-142, src/poc2.jsx lines 114-134) parses a frame with [JSON.parse]
    and then reads [obj.message], [obj.prompt?.prompt] and [obj.content],
    combines them with [||] and compares them with [===]; the display
    view (src/src/App.jsx lines 220-228) keeps prompts in a [Set].  This
    file gives those operations their JavaScript meaning on the values
    [JSON.parse] can return (plus [undefined]):

    - [prop]: a property read, [None] standing for the [TypeError] a read
      on [null] or [undefined] raises, the last duplicate key winning as
      in [JSON.parse];
    - [opt_prop]: optional chaining [a?.k];
    - [truthy], [js_or]: JavaScript truthiness and [a || b];
    - [is_str]: [v === "..."] against a string literal;
    - [same_value_zero]: the equality a [Set] uses.

    [JSON.parse] itself is a builtin and is not modelled: the handlers
    are parametrised by the class [JsonParse], and every theorem holds
    for any parser. *)

From stdpp Require Import base list.
From Stdlib Require Import QArith String.
From S2P Require Import Prelude.

Local Set Warnings "-register-all".

Module Js.

Inductive jsval :=
| JUndefined
| JNull
| JBool (b : bool)
| JNum (q : Q)
| JStr (s : string)
| JArr (xs : list jsval)
| JObj (fields : list (string * jsval)).

(** The value bound to [k] in an object literal: the last binding, as
    [JSON.parse] keeps the last of duplicated keys. *)
Fixpoint field_last (k : string) (fs : list (string * jsval)) : option jsval :=
  match fs with
  | [] => None
  | (k', v) :: fs' =>
      match field_last k fs' with
      | Some w => Some w
      | None => if String.eqb k k' then Some v else None
      end
  end.

(** [v.k]: [None] is the [TypeError] of a read on [null] or
    [undefined]; a missing own property is [undefined].  The keys the
    code reads ("message", "prompt", "content", "key_value") are not members of the
    prototypes of objects, arrays, strings, numbers or booleans, so
    those read as [undefined] too. *)
Definition prop (v : jsval) (k : string) : option jsval :=
  match v with
  | JUndefined | JNull => None
  | JObj fs => Some (default JUndefined (field_last k fs))
  | _ => Some JUndefined
  end.

(** [v?.k]: optional chaining short-circuits on [null] and [undefined]. *)
Definition opt_prop (v : jsval) (k : string) : jsval :=
  match v with
  | JUndefined | JNull => JUndefined
  | _ => default JUndefined (prop v k)
  end.

(** Truthiness ([NaN] and [-0] are not values [JSON.parse] returns). *)
Definition truthy (v : jsval) : bool :=
  match v with
  | JUndefined | JNull => false
  | JBool b => b
  | JNum q => negb (Qeq_bool q 0)
  | JStr s => negb (String.eqb s "")
  | JArr _ | JObj _ => true
  end.

(** [a || b] returns [a] itself when it is truthy. *)
Definition js_or (a b : jsval) : jsval := if truthy a then a else b.

(** [v === "lit"] for a string literal. *)
Definition is_str (v : jsval) (lit : string) : bool :=
  match v with
  | JStr s => String.eqb s lit
  | _ => false
  end.

(** SameValueZero, the equality of [Set.prototype.has], on the values
    that reach a [Set] in this program.  Arrays and objects are compared
    by identity; every one of them comes from its own [JSON.parse] call
    and is stored once, so two of them are never the same object. *)
Definition same_value_zero (a b : jsval) : bool :=
  match a, b with
  | JUndefined, JUndefined | JNull, JNull => true
  | JBool x, JBool y => Bool.eqb x y
  | JNum x, JNum y => Qeq_bool x y
  | JStr x, JStr y => String.eqb x y
  | _, _ => false
  end.

(** The interface to the [JSON.parse] builtin: [None] is the
    [SyntaxError] it throws. *)
Class JsonParse := json_parse : string -> option jsval.

(** A parser given by a table of known frames, used to run the handlers
    on concrete inputs. *)
Definition table_parser (tbl : list (string * jsval)) : JsonParse :=
  fun raw => field_last raw tbl.

(** Induction on values through the elements of arrays and the fields
    of objects. *)
Section jsval_ind'.
Variable P : jsval -> Prop.
Hypothesis HUndefined : P JUndefined.
Hypothesis HNull : P JNull.
Hypothesis HBool : forall b, P (JBool b).
Hypothesis HNum : forall q, P (JNum q).
Hypothesis HStr : forall s, P (JStr s).
Hypothesis HArr : forall xs, Forall P xs -> P (JArr xs).
Hypothesis HObj : forall fs, Forall (fun f => P (snd f)) fs -> P (JObj fs).

Fixpoint jsval_ind' (v : jsval) : P v :=
  match v with
  | JUndefined => HUndefined
  | JNull => HNull
  | JBool b => HBool b
  | JNum q => HNum q
  | JStr s => HStr s
  | JArr xs =>
      HArr xs ((fix go (xs : list jsval) : Forall P xs :=
                  match xs with
                  | [] => @List.Forall_nil _ P
                  | x :: r => @List.Forall_cons _ P x r (jsval_ind' x) (go r)
                  end) xs)
  | JObj fs =>
      HObj fs ((fix go (fs : list (string * jsval)) : Forall (fun f => P (snd f)) fs :=
                  match fs with
                  | [] => @List.Forall_nil _ (fun f => P (snd f))
                  | f :: r => @List.Forall_cons _ (fun f => P (snd f)) f r (jsval_ind' (snd f)) (go r)
                  end) fs)
  end.
End jsval_ind'.

(** ** Facts used by the handlers' proofs *)

Lemma js_or_truthy a b : truthy a = true -> js_or a b = a.
Proof. unfold js_or. by intros ->. Qed.

Lemma js_or_falsy a b : truthy a = false -> js_or a b = b.
Proof. unfold js_or. by intros ->. Qed.

Lemma js_or_cases a b : (truthy a = true /\ js_or a b = a) \/ (truthy a = false /\ js_or a b = b).
Proof. unfold js_or. destruct (truthy a); auto. Qed.

Lemma is_str_spec v lit : is_str v lit = true <-> v = JStr lit.
Proof.
  destruct v; simpl; split; try discriminate; try (intros H; inversion H; fail).
  - intros H. apply String.eqb_eq in H. by subst.
  - intros H. inversion H. apply String.eqb_refl.
Qed.

Lemma prop_obj fs k : prop (JObj fs) k = Some (default JUndefined (field_last k fs)).
Proof. reflexivity. Qed.

Lemma same_value_zero_str x y : same_value_zero (JStr x) (JStr y) = true <-> x = y.
Proof. apply String.eqb_eq. Qed.

Lemma truthy_str s : truthy (JStr s) = true <-> s <> ""%string.
Proof.
  simpl. rewrite negb_true_iff. split.
  - intros H E. subst. discriminate.
  - intros H. destruct (String.eqb_spec s ""); congruence.
Qed.

(** [s || ""] is [s] for every string [s]. *)
Lemma js_or_str_empty x : js_or (JStr x) (JStr "") = JStr x.
Proof.
  unfold js_or. simpl. destruct (String.eqb_spec x ""); [by subst|done].
Qed.

(** SameValueZero is an equivalence on the values it relates. *)
Lemma same_value_zero_sym a b : same_value_zero a b = same_value_zero b a.
Proof.
  destruct a, b; simpl; try done.
  - by destruct b, b0.
  - destruct (Qeq_bool q q0) eqn:E1, (Qeq_bool q0 q) eqn:E2; try done;
    apply Qeq_bool_iff in E1 || apply Qeq_bool_iff in E2;
    [ apply Qeq_sym, Qeq_bool_iff in E1 | apply Qeq_sym, Qeq_bool_iff in E2 ]; congruence.
  - apply String.eqb_sym.
Qed.

Lemma same_value_zero_trans a b c :
  same_value_zero a b = true -> same_value_zero b c = true -> same_value_zero a c = true.
Proof.
  destruct a, b, c; simpl; try done.
  - intros H1 H2. apply Bool.eqb_prop in H1, H2. subst. by destruct b1.
  - intros H1 H2. apply Qeq_bool_iff in H1, H2. apply Qeq_bool_iff. by rewrite H1.
  - intros H1 H2. apply String.eqb_eq in H1, H2. subst. apply String.eqb_refl.
Qed.

End Js.
