(* ===== verification/FrameCodec.v ===== *)
(** * FrameCodec: float samples <-> PCM16 little-endian frames

    Encoding is the body of the [PCMProcessor] audio worklet, which the
    component registers from a string (src/src/App.jsx lines 47-62,
    src/poc2.jsx lines 45-60):
<<
      int16Buffer[i] = Math.max(-1, Math.min(1, input[i])) * 32767;
>>
    Storing a number in an [Int16Array] applies ToInt16: truncation toward
    zero, then reduction modulo 2^16 into [-32768, 32767]; the buffer's
    bytes are in the platform's order, little-endian on every platform a
    browser runs on.  Decoding is the loop of [playAudioChunk]
    (src/src/App.jsx lines 193-198, src/poc2.jsx lines 174-179):
<<
      const float32Array = new Float32Array(arrayBuffer.byteLength / 2);
      for (...) { float32Array[i] = dataView.getInt16(i * 2, true) / 32768; }
>>
    [new Float32Array(n / 2)] truncates a fractional length, so the last
    byte of an odd-length frame is silently dropped.

    Samples are rationals: a finite float32 input times 32767 and an
    int16 divided by 32768 are exact in double and in float32, so [Q]
    computes the same values (NaN and infinities are not modelled).
    Bytes are integers in [0, 256). *)

From stdpp Require Import base list.
From Stdlib Require Import QArith Qround Qabs ZArith Lia Lqa.
From S2P Require Import Prelude.

Module FrameCodec.

Local Open Scope Z_scope.

(** ** Encoding: the worklet's [process] *)

(** [Math.min(a, b)] and [Math.max(a, b)] on finite numbers. *)
Definition math_min (a b : Q) : Q := if Qle_bool a b then a else b.
Definition math_max (a b : Q) : Q := if Qle_bool a b then b else a.

Definition clamp (x : Q) : Q := math_max (-1)%Q (math_min 1%Q x).

(** ToIntegerOrInfinity on a finite number: truncation toward zero. *)
Definition js_trunc (q : Q) : Z :=
  if Qle_bool 0%Q q then Qfloor q else Qceiling q.

(** ToInt16: the integer reduced modulo 2^16 into the signed range. *)
Definition to_int16 (z : Z) : Z :=
  let m := z mod 65536 in
  if (32768 <=? m)%Z then (m - 65536)%Z else m.

(** [int16Buffer[i] = Math.max(-1, Math.min(1, input[i])) * 32767]. *)
Definition encode_sample (x : Q) : Z :=
  to_int16 (js_trunc (clamp x * 32767)%Q).

(** The two bytes of an [Int16Array] element, low byte first. *)
Definition le16 (k : Z) : list Z :=
  let u := (k mod 65536)%Z in [Z.land u 255; Z.shiftr u 8].

(** The bytes of [int16Buffer.buffer] for one input block. *)
Definition encode_frame (input : list Q) : list Z :=
  flat_map (fun x => le16 (encode_sample x)) input.

(** [process(inputs)]: a block is posted only when the first input has a
    first channel ([if (input)]); the processor always returns [true]. *)
Definition process (input : option (list Q)) : option (list Z) * bool :=
  match input with
  | Some xs => (Some (encode_frame xs), true)
  | None => (None, true)
  end.

(** ** Decoding: the loop of [playAudioChunk] *)

(** [dataView.getInt16(off, true)] on the bytes [b0] (at [off]) and [b1]. *)
Definition get_int16_le (b0 b1 : Z) : Z := to_int16 (b0 + 256 * b1)%Z.

(** [int16 / 32768]. *)
Definition sample_of_int16 (k : Z) : Q := (inject_Z k / 32768)%Q.

(** The [i]-th sample of the frame, read at byte offset [2 i]. *)
Definition sample_at (bytes : list Z) (i : nat) : Q :=
  sample_of_int16 (get_int16_le (nth (2 * i)%nat bytes 0) (nth (2 * i + 1)%nat bytes 0)).

(** [new Float32Array(byteLength / 2)] filled by the indexed loop. *)
Definition decode (bytes : list Z) : list Q :=
  map (sample_at bytes) (seq 0 (length bytes / 2)%nat).

(** A structural reading of the same loop, two bytes at a time. *)
Fixpoint decode_pairs (bytes : list Z) : list Q :=
  match bytes with
  | b0 :: b1 :: rest => sample_of_int16 (get_int16_le b0 b1) :: decode_pairs rest
  | _ => []
  end.

(** ** Arithmetic facts *)

Local Open Scope Q_scope.

Lemma Qfloor_unique (z : Z) (q : Q) :
  inject_Z z <= q -> q < inject_Z (z + 1) -> Qfloor q = z.
Proof.
  intros H1 H2.
  pose proof (Qfloor_resp_le _ _ H1) as Hz. rewrite Qfloor_Z in Hz.
  pose proof (Qfloor_le q) as Hf.
  assert (Hlt : inject_Z (Qfloor q) < inject_Z (z + 1)) by lra.
  rewrite <- Zlt_Qlt in Hlt. lia.
Qed.

Lemma Qceiling_unique (z : Z) (q : Q) :
  inject_Z (z - 1) < q -> q <= inject_Z z -> Qceiling q = z.
Proof.
  intros H1 H2. unfold Qceiling.
  rewrite (Qfloor_unique (- z)); [lia| |].
  - push_inject. lra.
  - push_inject. lra.
Qed.

Lemma math_min_spec a b : (b < a /\ math_min a b = b) \/ (a <= b /\ math_min a b = a).
Proof.
  unfold math_min. destruct (Qle_bool a b) eqn:E.
  - right. split; [by apply Qle_bool_iff|done].
  - left. split; [|done]. apply Qnot_le_lt. intros H. apply Qle_bool_iff in H. congruence.
Qed.

Lemma math_max_spec a b : (a <= b /\ math_max a b = b) \/ (b < a /\ math_max a b = a).
Proof.
  unfold math_max. destruct (Qle_bool a b) eqn:E.
  - left. split; [by apply Qle_bool_iff|done].
  - right. split; [|done]. apply Qnot_le_lt. intros H. apply Qle_bool_iff in H. congruence.
Qed.

Ltac minmax_cases :=
  repeat match goal with
  | |- context [math_min ?a ?b] => destruct (math_min_spec a b) as [[? ->]|[? ->]]
  | |- context [math_max ?a ?b] => destruct (math_max_spec a b) as [[? ->]|[? ->]]
  end.

Lemma clamp_range x : -1 <= clamp x <= 1.
Proof.
  unfold clamp. minmax_cases; lra.
Qed.

Lemma clamp_id x : -1 <= x <= 1 -> clamp x == x.
Proof.
  intros Hx. unfold clamp. minmax_cases; lra.
Qed.

Lemma js_trunc_bounds q :
  (0 <= q -> inject_Z (js_trunc q) <= q < inject_Z (js_trunc q) + 1) /\
  (q < 0 -> inject_Z (js_trunc q) - 1 < q <= inject_Z (js_trunc q)).
Proof.
  unfold js_trunc. destruct (Qle_bool 0 q) eqn:E.
  - apply Qle_bool_iff in E. split; intros H; [|lra].
    pose proof (Qfloor_le q). pose proof (Qlt_floor q).
    push_inject. lra.
  - split; intros H.
    + apply Qle_bool_iff in H. congruence.
    + pose proof (Qle_ceiling q). pose proof (Qceiling_lt q).
      push_inject. lra.
Qed.

Lemma js_trunc_pos q : 0 <= q -> js_trunc q = Qfloor q.
Proof. intros H. unfold js_trunc. apply Qle_bool_iff in H. by rewrite H. Qed.

Lemma js_trunc_neg q : q < 0 -> js_trunc q = Qceiling q.
Proof.
  intros H. unfold js_trunc. destruct (Qle_bool 0 q) eqn:E; [|done].
  apply Qle_bool_iff in E. lra.
Qed.

Lemma js_trunc_mono_range (lo hi : Z) q :
  inject_Z lo <= q <= inject_Z hi -> (lo <= js_trunc q <= hi)%Z.
Proof.
  intros [Hlo Hhi]. destruct (js_trunc_bounds q) as [Hp Hn].
  destruct (Qlt_le_dec q 0) as [Hq|Hq]; [specialize (Hn Hq)|specialize (Hp Hq)]; split.
  - rewrite Zle_Qle. lra.
  - assert (inject_Z (js_trunc q) < inject_Z (hi + 1)) as H by (push_inject; lra).
    rewrite <- Zlt_Qlt in H. lia.
  - assert (inject_Z (lo - 1) < inject_Z (js_trunc q)) as H by (push_inject; lra).
    rewrite <- Zlt_Qlt in H. lia.
  - rewrite Zle_Qle. lra.
Qed.

Lemma to_int16_id (z : Z) : (-32768 <= z <= 32767)%Z -> to_int16 z = z.
Proof.
  intros Hz. unfold to_int16. cbv zeta.
  destruct (Z.leb_spec 32768 (z mod 65536)); zmod_lia.
Qed.

Lemma to_int16_range (z : Z) : (-32768 <= to_int16 z <= 32767)%Z.
Proof.
  unfold to_int16. cbv zeta. destruct (Z.leb_spec 32768 (z mod 65536)); zmod_lia.
Qed.

#[export] Hint Resolve clamp_range to_int16_range : poc.

(** [js_trunc] and [clamp] respect equality of rationals, so a clamped
    value can be rewritten by the value it equals. *)
#[export] Instance js_trunc_proper : Proper (Qeq ==> eq) js_trunc.
Proof.
  intros a b Hab. unfold js_trunc.
  rewrite (Qfloor_comp a b Hab), (Qceiling_comp a b Hab).
  destruct (Qle_bool 0 a) eqn:Ea, (Qle_bool 0 b) eqn:Eb; try done;
  apply Qle_bool_iff in Ea || apply Qle_bool_iff in Eb;
  [ assert (0 <= b) by lra | assert (0 <= a) by lra ];
  apply Qle_bool_iff in H; congruence.
Qed.

#[export] Instance clamp_proper : Proper (Qeq ==> Qeq) clamp.
Proof. intros a b Hab. unfold clamp. minmax_cases; lra. Qed.

Lemma sample_of_int16_mul k : sample_of_int16 k == inject_Z k * (1 # 32768).
Proof. reflexivity. Qed.

Lemma le16_spec k :
  le16 k = [((k mod 65536) mod 256)%Z; ((k mod 65536) / 256)%Z].
Proof.
  unfold le16. f_equal; [|f_equal].
  - change 255%Z with (Z.ones 8). apply Z.land_ones. lia.
  - apply Z.shiftr_div_pow2. lia.
Qed.

(** The two bytes of [le16 k], read back by [getInt16(off, true)]. *)
Lemma get_int16_le16 k :
  (-32768 <= k <= 32767)%Z ->
  get_int16_le ((k mod 65536) mod 256) ((k mod 65536) / 256) = k.
Proof.
  intros Hk. unfold get_int16_le.
  rewrite (Z.add_comm _ (256 * _)), <- Z.div_mod by lia.
  unfold to_int16. cbv zeta. rewrite Z.mod_mod by lia.
  destruct (Z.leb_spec 32768 (k mod 65536)); zmod_lia.
Qed.

Lemma encode_sample_trunc x : encode_sample x = js_trunc (clamp x * 32767).
Proof.
  unfold encode_sample. apply to_int16_id.
  pose proof (clamp_range x).
  apply (js_trunc_mono_range (-32768) 32767). unfold inject_Z. lra.
Qed.

(** The structural decoder computes the indexed loop. *)
Lemma decode_cons2 b0 b1 rest :
  decode (b0 :: b1 :: rest) = sample_of_int16 (get_int16_le b0 b1) :: decode rest.
Proof.
  unfold decode. cbn [length]. replace (S (S (length rest)) / 2)%nat with (S (length rest / 2)).
  2:{ replace (S (S (length rest))) with (1 * 2 + length rest)%nat by lia.
      rewrite Nat.div_add_l by lia. lia. }
  cbn [seq map]. f_equal. rewrite <- seq_shift, map_map.
  apply map_ext. intros i. unfold sample_at.
  by replace (2 * S i)%nat with (S (S (2 * i))) by lia.
Qed.

Lemma decode_short bytes : (length bytes < 2)%nat -> decode bytes = [].
Proof.
  intros H. unfold decode.
  destruct bytes as [|b [|b' r]]; cbn in *; [done|done|lia].
Qed.

Lemma decode_decode_pairs bytes : decode bytes = decode_pairs bytes.
Proof.
  revert bytes. fix IH 1. intros [|b0 [|b1 rest]].
  - done.
  - apply decode_short. simpl. lia.
  - rewrite decode_cons2. cbn [decode_pairs]. f_equal. apply IH.
Qed.

Lemma le16_shape k :
  length (le16 k) = 2%nat /\ Forall (fun b => 0 <= b < 256)%Z (le16 k).
Proof.
  rewrite le16_spec. split; [done|].
  repeat apply List.Forall_cons; try apply List.Forall_nil; zmod_lia.
Qed.

Lemma encode_frame_cons x xs : encode_frame (x :: xs) = le16 (encode_sample x) ++ encode_frame xs.
Proof. reflexivity. Qed.

Lemma decode_pairs_snoc bytes b :
  Nat.Even (length bytes) -> decode_pairs (bytes ++ [b]) = decode_pairs bytes.
Proof.
  revert bytes. fix IH 1. intros [|b0 [|b1 rest]] Hev.
  - done.
  - destruct Hev as [n Hn]. simpl in Hn. lia.
  - cbn [app decode_pairs]. f_equal. apply IH.
    destruct Hev as [n Hn]. exists (n - 1)%nat. simpl in Hn. lia.
Qed.

(** ** Properties of the codec *)

Lemma encode_sample_range x : (-32767 <= encode_sample x <= 32767)%Z.
Proof.
  rewrite encode_sample_trunc. apply js_trunc_mono_range.
  pose proof (clamp_range x). unfold inject_Z. lra.
Qed.

(** (C26) The worklet's sample never leaves [-32767, 32767]: clamping
    before the scaling by 32767 means ToInt16 never wraps (the stored
    value is the truncation itself), and the most negative PCM16 value
    -32768 is never produced. *)
Theorem encode_sample_bounds x :
  encode_sample x = js_trunc (clamp x * 32767) /\ (-32767 <= encode_sample x <= 32767)%Z.
Proof. split; [apply encode_sample_trunc|apply encode_sample_range]. Qed.

(** (C29) A block of [n] samples is posted as [2 n] bytes, each a byte
    value. *)
Theorem encode_frame_shape xs :
  length (encode_frame xs) = (2 * length xs)%nat /\
  Forall (fun b => 0 <= b < 256)%Z (encode_frame xs).
Proof.
  induction xs as [|x xs [IHl IHf]]; [done|].
  rewrite encode_frame_cons, length_app, Forall_app.
  destruct (le16_shape (encode_sample x)) as [Hl Hf]. cbn [length]. split; [lia|done].
Qed.

(** (C25) Decoding what the worklet encoded gives, sample by sample, the
    PCM16 value the worklet computed divided by 32768: the byte order
    and the sign survive the trip. *)
Theorem decode_encode_frame xs :
  decode (encode_frame xs) = map (fun x => sample_of_int16 (encode_sample x)) xs.
Proof.
  rewrite decode_decode_pairs.
  induction xs as [|x xs IH]; [done|].
  rewrite encode_frame_cons, le16_spec. cbn [app decode_pairs map].
  rewrite get_int16_le16 by (pose proof (encode_sample_range x); lia).
  by f_equal.
Qed.

(** (C24) Quantisation error: for an input in [-1, 1], decoding the
    encoded sample is off by less than 2/32768, and the error is toward
    zero. *)
Theorem quantization_error x :
  -1 <= x <= 1 ->
  Qabs (x - sample_of_int16 (encode_sample x)) < 1 # 16384 /\
  (0 <= x -> sample_of_int16 (encode_sample x) <= x) /\
  (x <= 0 -> x <= sample_of_int16 (encode_sample x)).
Proof.
  intros Hx. rewrite encode_sample_trunc, (clamp_id x Hx), sample_of_int16_mul.
  destruct (js_trunc_bounds (x * 32767)) as [Hp Hn].
  rewrite Qabs_Qlt_condition.
  destruct (Qlt_le_dec x 0) as [Hneg|Hpos];
    [ specialize (Hn ltac:(lra)) | specialize (Hp ltac:(lra)) ];
    repeat split; intros; try lra.
  (* x = 0: the truncation is the integer 0 *)
  rewrite (js_trunc_proper (x * 32767) 0 ltac:(lra)).
  change (js_trunc 0) with 0%Z. unfold inject_Z. lra.
Qed.

Lemma encode_sample_of_int16 k :
  (-32768 <= k <= 32767)%Z -> encode_sample (sample_of_int16 k) = (k - Z.sgn k)%Z.
Proof.
  intros Hk. rewrite encode_sample_trunc, sample_of_int16_mul.
  assert (Hr : -1 <= inject_Z k * (1 # 32768) <= 1).
  { assert (inject_Z (-32768) <= inject_Z k <= inject_Z 32767) as Hq
      by (rewrite <- !Zle_Qle; lia).
    push_inject. lra. }
  rewrite (clamp_id _ Hr).
  destruct (Z.lt_trichotomy k 0) as [Hn|[->|Hp]].
  - rewrite (Z.sgn_neg k Hn).
    assert (Hq : inject_Z k <= inject_Z (-1)) by (rewrite <- Zle_Qle; lia).
    push_inject. rewrite js_trunc_neg by lra.
    apply Qceiling_unique; push_inject; lra.
  - reflexivity.
  - rewrite (Z.sgn_pos k Hp).
    assert (Hq : inject_Z 1 <= inject_Z k) by (rewrite <- Zle_Qle; lia).
    push_inject. rewrite js_trunc_pos by lra.
    apply Qfloor_unique; push_inject; lra.
Qed.

(** Decoding then re-encoding a PCM16 value moves it one step
    toward zero, so no nonzero value survives the round trip: the
    decoder divides by 32768 and the encoder multiplies by 32767, so
    [k / 32768 * 32767] truncates to [k - sgn k]. *)
Theorem encode_decode_sample k :
  (-32768 <= k <= 32767)%Z ->
  encode_sample (sample_of_int16 k) = (k - Z.sgn k)%Z /\
  (k <> 0 -> encode_sample (sample_of_int16 k) <> k)%Z.
Proof.
  intros Hk. rewrite (encode_sample_of_int16 k Hk). split; [done|].
  intros Hk0. destruct (Z.sgn_spec k) as [[_ ->]|[[-> _]|[_ ->]]]; lia.
Qed.

(** (C6) Re-encoding the decoded samples of a frame does not give the
    frame back: every nonzero PCM16 value comes back one step closer to
    zero. *)
Theorem encode_decode_frame k :
  (-32768 <= k <= 32767)%Z ->
  encode_frame (decode (le16 k)) = le16 (k - Z.sgn k).
Proof.
  intros Hk. rewrite decode_decode_pairs, le16_spec. cbn [decode_pairs].
  rewrite get_int16_le16 by done. cbn [encode_frame flat_map].
  rewrite encode_sample_of_int16 by done. by rewrite app_nil_r.
Qed.

(** (C27) A frame of odd length is decoded as if its last byte were
    absent: [new Float32Array(byteLength / 2)] truncates the length and
    no error is raised. *)
Theorem decode_odd_drops_last bytes b :
  Nat.Even (length bytes) -> decode (bytes ++ [b]) = decode bytes.
Proof.
  intros Hev. rewrite !decode_decode_pairs. by apply decode_pairs_snoc.
Qed.

(** ** Witnesses and counterexamples *)

Lemma quantization_error_witness :
  (-1 <= 1 # 2 <= 1) /\
  Qabs ((1 # 2) - sample_of_int16 (encode_sample (1 # 2))) < 1 # 16384.
Proof.
  assert (H : -1 <= 1 # 2 <= 1) by lra.
  split; [exact H | apply (quantization_error (1 # 2) H)].
Defined.

(** The bound 1/32768 stated for the round trip does not hold: for
    [x = 65535/65536] the decoded sample is [32766/32768], 1.5/32768
    below [x]. *)
Lemma quantization_bound_counterexample :
  let x := 65535 # 65536 in
  -1 <= x <= 1 /\ 1 # 32768 < Qabs (x - sample_of_int16 (encode_sample x)).
Proof. split; [split|]; vm_compute; first [reflexivity | intros H; discriminate]. Qed.

Lemma encode_decode_sample_witness :
  (-32768 <= 1 <= 32767)%Z /\
  (encode_sample (sample_of_int16 1) = 1 - Z.sgn 1 /\ (1 <> 0 -> encode_sample (sample_of_int16 1) <> 1))%Z.
Proof.
  split; [lia|]. apply (encode_decode_sample 1%Z). lia.
Defined.

Lemma encode_decode_frame_witness :
  (-32768 <= 1 <= 32767)%Z /\ encode_frame (decode [1%Z; 0%Z]) = [0%Z; 0%Z].
Proof.
  split; [lia|]. apply (encode_decode_frame 1%Z). lia.
Defined.

Lemma decode_odd_drops_last_witness :
  Nat.Even (length [1%Z; 0%Z]) /\ decode ([1%Z; 0%Z] ++ [7%Z]) = decode [1%Z; 0%Z].
Proof.
  assert (H : Nat.Even (length [1%Z; 0%Z])) by (exists 1%nat; reflexivity).
  split; [exact H | apply (decode_odd_drops_last _ 7%Z H)].
Defined.

End FrameCodec.
