(* ===== verification/Playback.v ===== *)
(** * Playback: gapless scheduling of inbound audio on an output clock

    [playAudioChunk] (src/src/App.jsx lines 186-218, src/poc2.jsx lines
    167-199) plays every binary frame the socket delivers:
<<
      if (!audioCtxRef.current) { audioCtxRef.current = new AudioContext(...);
                                  nextPlayTimeRef.current = 0; }
      ... decode ..., createBuffer(1, float32Array.length, 16000) ...
      source.playbackRate.value = playbackSpeed;
      if (nextPlayTimeRef.current < currentTime) nextPlayTimeRef.current = currentTime;
      source.start(nextPlayTimeRef.current);
      nextPlayTimeRef.current += audioBuffer.duration / playbackSpeed;
      source.onended = () => { source.disconnect(); };
>>
    The state is [PlayState]: the two refs the function reads and writes,
    the audio contexts the component has created (a store indexed by an
    id: a context is shared between [audioCtxRef] and the sources
    scheduled on it, and [stopFlow] closes it in place), and the buffer
    sources scheduled so far.  An [AudioContext]'s [currentTime] runs
    with real time from its creation and stops when it is closed; real
    time [now] is an argument.  Durations are exact rationals
    ([length / 16000]); the speed is the positive [playbackRate].

    [createBuffer] with zero frames throws [NotSupportedError] after the
    lazily created context has been stored: the model returns the state
    with that context and the exception. *)

From stdpp Require Import base list gmap.
From Stdlib Require Import QArith Qround Qminmax ZArith Lia Lqa.
From S2P Require Import Prelude FrameCodec.

Module Playback.

Local Open Scope Q_scope.

Record audio_ctx := {
  ctx_created : Q;
  ctx_closed_at : option Q
}.

(** [AudioContext.currentTime] at real time [now]. *)
Definition current_time (c : audio_ctx) (now : Q) : Q :=
  match ctx_closed_at c with
  | Some t => t - ctx_created c
  | None => now - ctx_created c
  end.

(** An [AudioBufferSourceNode] after [source.start(when)]. *)
Record source := {
  src_ctx : nat;
  src_start : Q;
  src_duration : Q;
  src_rate : Q;
  src_connected : bool
}.

(** The end of a source on its context's clock. *)
Definition src_end (s : source) : Q := src_start s + src_duration s / src_rate s.

Record PlayState := {
  audioCtxRef : option nat;
  nextPlayTimeRef : Q;
  contexts : gmap nat audio_ctx;
  sources : list source
}.

Definition sample_rate : Q := 16000.

(** [audioBuffer.duration] of a buffer of [n] frames at 16000 Hz. *)
Definition buffer_duration (n : nat) : Q := inject_Z (Z.of_nat n) / sample_rate.

(** Lines 208-213: catch up with the clock after an underrun, start at
    the cursor, advance the cursor by the scaled duration.  Returns the
    start time and the new cursor. *)
Definition schedule (cursor now dur speed : Q) : Q * Q :=
  let start := if Qltb cursor now then now else cursor in
  (start, start + dur / speed).

(** [new AudioContext({sampleRate: 16000})] at real time [now]: a fresh
    id in the store of contexts. *)
Definition fresh_ctx (ps : PlayState) : nat := fresh (dom (contexts ps)).

Definition create_context (now : Q) (ps : PlayState) : nat * PlayState :=
  let id := fresh_ctx ps in
  (id, {| audioCtxRef := Some id;
          nextPlayTimeRef := nextPlayTimeRef ps;
          contexts := <[id := {| ctx_created := now; ctx_closed_at := None |}]> (contexts ps);
          sources := sources ps |}).

(** Lines 187-190: the lazy creation, which also resets the cursor. *)
Definition ensure_context (now : Q) (ps : PlayState) : PlayState :=
  match audioCtxRef ps with
  | Some _ => ps
  | None =>
      let '(_, ps') := create_context now ps in
      {| audioCtxRef := audioCtxRef ps';
         nextPlayTimeRef := 0;
         contexts := contexts ps';
         sources := sources ps' |}
  end.

(** Lines 191-217 once a context is present. *)
Definition start_source (speed now : Q) (n : nat) (ps : PlayState) : JS PlayState unit :=
  match audioCtxRef ps with
  | None => js_throw TypeError
  | Some id =>
      match contexts ps !! id with
      | None => js_throw TypeError
      | Some c =>
          let dur := buffer_duration n in
          let '(start, next) := schedule (nextPlayTimeRef ps) (current_time c now) dur speed in
          js_put {| audioCtxRef := audioCtxRef ps;
                    nextPlayTimeRef := next;
                    contexts := contexts ps;
                    sources := sources ps ++
                      [{| src_ctx := id; src_start := start; src_duration := dur;
                          src_rate := speed; src_connected := true |}] |}
      end
  end.

(** [playAudioChunk(arrayBuffer)] with the speed its closure sees. *)
Definition playAudioChunk (speed now : Q) (bytes : list Z) : JS PlayState unit :=
  js_modify (ensure_context now);;
  ps ← js_get;
  let n := length (FrameCodec.decode bytes) in
  if decide (n = 0%nat) then js_throw NotSupportedError
  else start_source speed now n ps.

(** [source.onended = () => source.disconnect()] for the [i]-th source. *)
Definition on_ended (i : nat) (ps : PlayState) : PlayState :=
  {| audioCtxRef := audioCtxRef ps;
     nextPlayTimeRef := nextPlayTimeRef ps;
     contexts := contexts ps;
     sources := alter (fun s => {| src_ctx := src_ctx s; src_start := src_start s;
                                   src_duration := src_duration s; src_rate := src_rate s;
                                   src_connected := false |}) i (sources ps) |}.

(** The initial refs: [useRef(null)] and [useRef(0)]. *)
Definition initial : PlayState :=
  {| audioCtxRef := None; nextPlayTimeRef := 0; contexts := ∅; sources := [] |}.

(** ** The scheduling invariant *)

(** [audioCtxRef] names a context of the store. *)
Definition ref_ok (ps : PlayState) : Prop :=
  match audioCtxRef ps with
  | Some id => id ∈ dom (contexts ps)
  | None => True
  end.

(** Every source was scheduled on a context of the store. *)
Definition sources_ok (ps : PlayState) : Prop :=
  Forall (fun s => src_ctx s ∈ dom (contexts ps)) (sources ps).

(** The cursor is at or after the end of every source of the current
    context. *)
Definition cursor_bound (ps : PlayState) : Prop :=
  match audioCtxRef ps with
  | Some id => Forall (fun s => src_ctx s = id -> src_end s <= nextPlayTimeRef ps) (sources ps)
  | None => True
  end.

(** Two sources scheduled on one context never overlap: an earlier one
    ends before a later one starts. *)
Definition no_overlap (l : list source) : Prop :=
  forall i j a b, (i < j)%nat -> l !! i = Some a -> l !! j = Some b ->
    src_ctx a = src_ctx b -> src_end a <= src_start b.

(** Every source plays forward: its rate is positive and its duration
    is not negative. *)
Definition forward (s : source) : Prop := 0 <= src_duration s /\ 0 < src_rate s.

Record sched_inv (ps : PlayState) : Prop := {
  inv_ref : ref_ok ps;
  inv_sources : sources_ok ps;
  inv_cursor : cursor_bound ps;
  inv_cursor_nonneg : 0 <= nextPlayTimeRef ps;
  inv_forward : Forall forward (sources ps);
  inv_overlap : no_overlap (sources ps)
}.

(** ** Lemmas on the operations *)

Lemma schedule_start cursor now dur speed :
  fst (schedule cursor now dur speed) == Qmax cursor now.
Proof.
  unfold schedule. simpl. destruct (Qltb cursor now) eqn:E.
  - apply Qltb_iff in E. rewrite Q.max_r; [reflexivity|lra].
  - apply Qltb_false in E. rewrite Q.max_l; [reflexivity|lra].
Qed.

Lemma schedule_bounds cursor now dur speed :
  let '(start, next) := schedule cursor now dur speed in
  cursor <= start /\ now <= start /\ next = start + dur / speed.
Proof.
  unfold schedule. destruct (Qltb cursor now) eqn:E.
  - apply Qltb_iff in E. repeat split; lra.
  - apply Qltb_false in E. repeat split; lra.
Qed.

Lemma buffer_duration_nonneg n : 0 <= buffer_duration n.
Proof.
  unfold buffer_duration, sample_rate. apply Qdiv_nonneg; [|reflexivity].
  change 0 with (inject_Z 0). rewrite <- Zle_Qle. lia.
Qed.

#[export] Hint Resolve buffer_duration_nonneg : poc.

Lemma no_overlap_snoc l x :
  no_overlap l ->
  (forall a, a ∈ l -> src_ctx a = src_ctx x -> src_end a <= src_start x) ->
  no_overlap (l ++ [x]).
Proof.
  intros Hl Hx i j a b Hij Ha Hb Hc.
  apply lookup_app_Some in Hb as [Hb|[Hlen Hb]];
  apply lookup_app_Some in Ha as [Ha|[Hlen' Ha]].
  - by apply (Hl i j).
  - apply lookup_lt_Some in Hb. lia.
  - apply list_lookup_singleton_Some in Hb as [_ <-].
    apply Hx; [by eapply list_elem_of_lookup_2|done].
  - apply list_lookup_singleton_Some in Hb as [? _].
    apply list_lookup_singleton_Some in Ha as [? _]. lia.
Qed.

Lemma ensure_context_some now ps id :
  audioCtxRef ps = Some id -> ensure_context now ps = ps.
Proof. unfold ensure_context. by intros ->. Qed.

Lemma fresh_ctx_unused ps : sources_ok ps ->
  Forall (fun s => src_ctx s <> fresh_ctx ps) (sources ps).
Proof.
  intros Hs. eapply Forall_impl; [exact Hs|]. intros s Hin Heq.
  apply (is_fresh (dom (contexts ps))). unfold fresh_ctx in Heq. by rewrite <- Heq.
Qed.

Lemma ensure_context_inv now ps :
  sched_inv ps -> sched_inv (ensure_context now ps).
Proof.
  intros [Hr Hs Hc Hn Hf Ho]. unfold ensure_context.
  destruct (audioCtxRef ps) as [id|] eqn:E; [by constructor; rewrite ?E|].
  pose proof (fresh_ctx_unused ps Hs) as Hu.
  constructor; simpl; try done.
  - unfold ref_ok. simpl. rewrite dom_insert_L. set_solver.
  - unfold sources_ok. simpl. rewrite dom_insert_L.
    eapply Forall_impl; [exact Hs|]. intros s ?. set_solver.
  - unfold cursor_bound. simpl. eapply Forall_impl; [exact Hu|]. by intros s ? ?.
Qed.

Lemma playAudioChunk_unfold speed now bytes ps :
  playAudioChunk speed now bytes ps =
    let ps1 := ensure_context now ps in
    let n := length (FrameCodec.decode bytes) in
    if decide (n = 0%nat) then (ps1, Thrown NotSupportedError)
    else start_source speed now n ps1 ps1.
Proof.
  unfold playAudioChunk. js_simp. by destruct (decide _).
Qed.

(** The store of contexts only grows: a context is never removed, and
    [playAudioChunk] creates one only under a fresh id. *)
Lemma create_context_sub now ps : contexts ps ⊆ contexts (create_context now ps).2.
Proof.
  unfold create_context, fresh_ctx. cbn [snd contexts].
  apply insert_subseteq, not_elem_of_dom. exact (is_fresh (dom (contexts ps))).
Qed.

Lemma ensure_context_sub now ps : contexts ps ⊆ contexts (ensure_context now ps).
Proof.
  unfold ensure_context. destruct (audioCtxRef ps); [done|].
  exact (create_context_sub now ps).
Qed.

Lemma start_source_sub speed now n ps : contexts ps ⊆ contexts (start_source speed now n ps ps).1.
Proof.
  unfold start_source. destruct (audioCtxRef ps); [|done]. destruct (contexts ps !! _); [|done].
  by destruct (schedule _ _ _ _).
Qed.

Lemma playAudioChunk_sub speed now bytes ps :
  contexts ps ⊆ contexts (playAudioChunk speed now bytes ps).1.
Proof.
  rewrite playAudioChunk_unfold. cbv zeta. transitivity (contexts (ensure_context now ps));
    [apply ensure_context_sub|]. case_decide; [done|apply start_source_sub].
Qed.

Lemma ref_ok_lookup ps : ref_ok ps -> forall id, audioCtxRef ps = Some id ->
  exists c, contexts ps !! id = Some c.
Proof.
  unfold ref_ok. intros Hr id E. rewrite E in Hr. by apply elem_of_dom in Hr.
Qed.

Lemma ensure_context_ref now ps : ref_ok ps ->
  exists id c, audioCtxRef (ensure_context now ps) = Some id /\
               contexts (ensure_context now ps) !! id = Some c.
Proof.
  intros Hr. unfold ensure_context. destruct (audioCtxRef ps) as [id|] eqn:E.
  - destruct (ref_ok_lookup ps Hr id E) as [c Hc]. rewrite E. eauto.
  - simpl. eexists _, _. split; [done|]. apply lookup_insert_eq.
Qed.

(** The source [start_source] appends, and the state it leaves. *)
Definition new_source (id : nat) (c : audio_ctx) (speed now : Q) (n : nat) (ps : PlayState) : source :=
  {| src_ctx := id;
     src_start := fst (schedule (nextPlayTimeRef ps) (current_time c now) (buffer_duration n) speed);
     src_duration := buffer_duration n; src_rate := speed; src_connected := true |}.

Lemma start_source_eq speed now n ps id c :
  audioCtxRef ps = Some id -> contexts ps !! id = Some c ->
  start_source speed now n ps ps =
    ({| audioCtxRef := Some id;
        nextPlayTimeRef := src_end (new_source id c speed now n ps);
        contexts := contexts ps;
        sources := sources ps ++ [new_source id c speed now n ps] |}, Normal tt).
Proof.
  intros E Hc. unfold start_source, new_source, src_end. rewrite E, Hc. simpl. reflexivity.
Qed.

Lemma start_source_inv speed now n ps id c :
  0 < speed -> sched_inv ps -> audioCtxRef ps = Some id -> contexts ps !! id = Some c ->
  sched_inv (fst (start_source speed now n ps ps)).
Proof.
  intros Hsp [Hr Hs Hc Hn Hf Ho] E Hl. rewrite (start_source_eq _ _ _ _ id c E Hl). simpl.
  pose proof (schedule_bounds (nextPlayTimeRef ps) (current_time c now) (buffer_duration n) speed) as Hb.
  destruct (schedule _ _ _ _) as [start next] eqn:Hsch. destruct Hb as (H1 & H2 & ->).
  pose proof (buffer_duration_nonneg n).
  unfold cursor_bound in Hc. rewrite E in Hc.
  unfold new_source, src_end. rewrite Hsch. cbn [fst src_start src_duration src_rate].
  constructor; cbn -[Qdiv].
  - unfold ref_ok. simpl. by apply elem_of_dom.
  - unfold sources_ok. simpl. apply Forall_app. split; [done|].
    apply Forall_singleton. by apply elem_of_dom.
  - unfold cursor_bound. simpl. apply Forall_app. split.
    + eapply Forall_impl; [exact Hc|]. intros s Hs' Hid. specialize (Hs' Hid). qsolve.
    + apply Forall_singleton. intros _. unfold src_end. simpl. lra.
  - qsolve.
  - apply Forall_app. split; [done|]. apply Forall_singleton. split; simpl; [done|lra].
  - apply no_overlap_snoc; [done|]. intros a Ha Hid. simpl in Hid.
    rewrite Forall_forall in Hc. specialize (Hc a Ha Hid). simpl. lra.
Qed.

(** ** Properties of [playAudioChunk] *)

Lemma playAudioChunk_spec speed now bytes ps :
  ref_ok ps -> FrameCodec.decode bytes <> [] ->
  let ps1 := ensure_context now ps in
  exists id c src,
    audioCtxRef ps1 = Some id /\ contexts ps1 !! id = Some c /\
    playAudioChunk speed now bytes ps =
      ({| audioCtxRef := Some id; nextPlayTimeRef := src_end src;
          contexts := contexts ps1; sources := sources ps ++ [src] |}, Normal tt) /\
    src_ctx src = id /\
    src_start src == Qmax (nextPlayTimeRef ps1) (current_time c now) /\
    src_duration src = buffer_duration (length (FrameCodec.decode bytes)) /\
    src_rate src = speed.
Proof.
  intros Hr Hne. cbv zeta. destruct (ensure_context_ref now ps Hr) as (id & c & E & Hc).
  exists id, c, (new_source id c speed now (length (FrameCodec.decode bytes)) (ensure_context now ps)).
  rewrite playAudioChunk_unfold. cbv zeta.
  destruct (decide _) as [Hz|Hz]; [by apply nil_length_inv in Hz|].
  assert (Hsrc : sources (ensure_context now ps) = sources ps).
  { unfold ensure_context. by destruct (audioCtxRef ps). }
  rewrite (start_source_eq _ _ _ _ id c E Hc), Hsrc.
  repeat split; try done. apply schedule_start.
Qed.

(** (C3) Functional behaviour on a frame with at least one sample: the
    context is the one in [audioCtxRef] (created at [now], with the
    cursor reset to 0, when there is none), exactly one source is
    appended, it starts at the later of the cursor and the context's
    clock, and the cursor moves to its end, [duration / speed] later. *)
Theorem playAudioChunk_schedules speed now bytes ps :
  ref_ok ps -> FrameCodec.decode bytes <> [] ->
  let ps1 := ensure_context now ps in
  exists id c src,
    audioCtxRef ps1 = Some id /\ contexts ps1 !! id = Some c /\
    playAudioChunk speed now bytes ps =
      ({| audioCtxRef := Some id; nextPlayTimeRef := src_end src;
          contexts := contexts ps1; sources := sources ps ++ [src] |}, Normal tt) /\
    src_ctx src = id /\
    src_start src == Qmax (nextPlayTimeRef ps1) (current_time c now) /\
    src_duration src = buffer_duration (length (FrameCodec.decode bytes)) /\
    src_rate src = speed.
Proof. apply playAudioChunk_spec. Qed.

(** Error path: a frame with fewer than two bytes decodes to no
    sample, [createBuffer(1, 0, 16000)] throws [NotSupportedError], and
    no source is scheduled; the context created lazily just before the
    throw stays in [audioCtxRef]. *)
Theorem playAudioChunk_empty speed now bytes ps :
  (length bytes < 2)%nat ->
  playAudioChunk speed now bytes ps = (ensure_context now ps, Thrown NotSupportedError).
Proof.
  intros Hlen. rewrite playAudioChunk_unfold. cbv zeta.
  rewrite (FrameCodec.decode_short bytes Hlen). reflexivity.
Qed.

Lemma exec_playAudioChunk_inv speed now bytes ps :
  0 < speed -> sched_inv ps -> sched_inv (exec (playAudioChunk speed now bytes) ps).
Proof.
  intros Hsp Hi. unfold exec. rewrite playAudioChunk_unfold. cbv zeta.
  pose proof (ensure_context_inv now ps Hi) as Hi1.
  destruct (ensure_context_ref now ps (inv_ref _ Hi)) as (id & c & E & Hc).
  destruct (decide _); [done|]. by eapply start_source_inv.
Qed.

(** (C1) The scheduling invariant is preserved by every call: sources
    on one context never overlap, the cursor is never before the end of
    a source of the current context, and it stays non-negative. *)
Theorem playAudioChunk_inv speed now bytes ps :
  0 < speed -> sched_inv ps -> sched_inv (exec (playAudioChunk speed now bytes) ps).
Proof. apply exec_playAudioChunk_inv. Qed.

(** A run of [playAudioChunk] calls, each with the speed and the clock
    of its own call; an exception ends only the call that raised it. *)
Fixpoint play_all (chunks : list (Q * Q * list Z)) (ps : PlayState) : PlayState :=
  match chunks with
  | [] => ps
  | (speed, now, bytes) :: rest => play_all rest (exec (playAudioChunk speed now bytes) ps)
  end.

Lemma initial_inv : sched_inv initial.
Proof.
  constructor; try done; try lra. apply List.Forall_nil.
Qed.

(** (C2) Monotonic, non-overlapping timeline: whatever the arrival times
    and sizes of the frames, as long as every speed is positive, two
    sources scheduled on the same context never overlap and the cursor
    never goes below 0 or before the end of the current context's
    sources. *)
Theorem play_all_no_overlap chunks :
  Forall (fun '(speed, _, _) => 0 < speed) chunks ->
  sched_inv (play_all chunks initial).
Proof.
  generalize initial initial_inv.
  induction chunks as [|[[speed now] bytes] rest IH]; intros ps Hi Hsp; [done|].
  apply Forall_cons in Hsp as [Hs Hrest]. simpl.
  apply IH; [by apply exec_playAudioChunk_inv|done].
Qed.

(** Back-to-back playback and speed scoping: of two frames played
    in turn, the second goes on the same context and starts exactly at
    the end of the first, or at the clock if the clock has already passed
    that end (an underrun leaves a gap rather than a catch-up); the first
    source keeps the start and the end computed with its own speed, and
    only the second uses the second speed. *)
Theorem play_back_to_back speed1 speed2 t1 t2 b1 b2 ps :
  ref_ok ps -> FrameCodec.decode b1 <> [] -> FrameCodec.decode b2 <> [] ->
  let ps1 := exec (playAudioChunk speed1 t1 b1) ps in
  let ps2 := exec (playAudioChunk speed2 t2 b2) ps1 in
  exists s1 s2 c,
    sources ps1 = sources ps ++ [s1] /\
    sources ps2 = sources ps ++ [s1; s2] /\
    src_ctx s2 = src_ctx s1 /\ contexts ps2 !! src_ctx s1 = Some c /\
    src_start s2 == Qmax (src_end s1) (current_time c t2) /\
    src_rate s1 = speed1 /\ src_rate s2 = speed2.
Proof.
  intros Hr Hb1 Hb2. cbv zeta. unfold exec.
  destruct (playAudioChunk_spec speed1 t1 b1 ps Hr Hb1)
    as (id & c & s1 & E1 & Hc1 & Hp1 & Hid1 & Hst1 & Hd1 & Hrt1).
  rewrite Hp1. simpl.
  set (ps1 := {| audioCtxRef := Some id; nextPlayTimeRef := src_end s1;
                 contexts := contexts (ensure_context t1 ps);
                 sources := sources ps ++ [s1] |}).
  assert (Hr1 : ref_ok ps1) by (unfold ref_ok; simpl; by apply elem_of_dom).
  destruct (playAudioChunk_spec speed2 t2 b2 ps1 Hr1 Hb2)
    as (id' & c' & s2 & E2 & Hc2 & Hp2 & Hid2 & Hst2 & Hd2 & Hrt2).
  rewrite (ensure_context_some t2 ps1 id) in E2, Hc2, Hst2 by done.
  simpl in E2. injection E2 as <-.
  rewrite Hp2. simpl. exists s1, s2, c'.
  rewrite <- app_assoc. simpl in Hc2. repeat split; try done; congruence.
Qed.

(** ** Witnesses *)

Lemma playAudioChunk_schedules_witness :
  ref_ok initial /\ FrameCodec.decode [1%Z; 0%Z] <> [] /\
  exists id c src,
    audioCtxRef (ensure_context 0 initial) = Some id /\
    contexts (ensure_context 0 initial) !! id = Some c /\
    playAudioChunk 1 0 [1%Z; 0%Z] initial =
      ({| audioCtxRef := Some id; nextPlayTimeRef := src_end src;
          contexts := contexts (ensure_context 0 initial);
          sources := sources initial ++ [src] |}, Normal tt) /\
    src_ctx src = id /\
    src_start src == Qmax (nextPlayTimeRef (ensure_context 0 initial)) (current_time c 0) /\
    src_duration src = buffer_duration (length (FrameCodec.decode [1%Z; 0%Z])) /\
    src_rate src = 1.
Proof.
  assert (Hr : ref_ok initial) by done.
  assert (Hb : FrameCodec.decode [1%Z; 0%Z] <> []) by discriminate.
  split; [exact Hr|]. split; [exact Hb|].
  exact (playAudioChunk_schedules 1 0 [1%Z; 0%Z] initial Hr Hb).
Defined.

Lemma playAudioChunk_empty_witness :
  (length [7%Z] < 2)%nat /\
  playAudioChunk 1 0 [7%Z] initial = (ensure_context 0 initial, Thrown NotSupportedError).
Proof.
  assert (H : (length [7%Z] < 2)%nat) by (simpl; lia).
  split; [exact H | exact (playAudioChunk_empty 1 0 [7%Z] initial H)].
Defined.

Lemma playAudioChunk_inv_witness :
  0 < 1 /\ sched_inv initial /\ sched_inv (exec (playAudioChunk 1 0 [1%Z; 0%Z]) initial).
Proof.
  assert (H : 0 < 1) by lra.
  split; [exact H|]. split; [exact initial_inv|].
  exact (playAudioChunk_inv 1 0 [1%Z; 0%Z] initial H initial_inv).
Defined.

Lemma play_all_no_overlap_witness :
  let chunks := [(1, 0, [1%Z; 0%Z]); (2, 1 # 2, [0%Z; 1%Z; 2%Z; 3%Z])] in
  Forall (fun '(speed, _, _) => 0 < speed) chunks /\ sched_inv (play_all chunks initial).
Proof.
  cbv zeta.
  assert (H : Forall (fun '(speed, _, _) => 0 < speed)
                [(1, 0, [1%Z; 0%Z]); (2, 1 # 2, [0%Z; 1%Z; 2%Z; 3%Z])]).
  { repeat constructor. }
  split; [exact H | exact (play_all_no_overlap _ H)].
Defined.

Lemma play_back_to_back_witness :
  ref_ok initial /\ FrameCodec.decode [1%Z; 0%Z] <> [] /\ FrameCodec.decode [2%Z; 0%Z] <> [] /\
  let ps1 := exec (playAudioChunk 1 0 [1%Z; 0%Z]) initial in
  let ps2 := exec (playAudioChunk 2 (1 # 100000) [2%Z; 0%Z]) ps1 in
  exists s1 s2 c,
    sources ps1 = sources initial ++ [s1] /\
    sources ps2 = sources initial ++ [s1; s2] /\
    src_ctx s2 = src_ctx s1 /\ contexts ps2 !! src_ctx s1 = Some c /\
    src_start s2 == Qmax (src_end s1) (current_time c (1 # 100000)) /\
    src_rate s1 = 1 /\ src_rate s2 = 2.
Proof.
  assert (Hr : ref_ok initial) by done.
  assert (H1 : FrameCodec.decode [1%Z; 0%Z] <> []) by discriminate.
  assert (H2 : FrameCodec.decode [2%Z; 0%Z] <> []) by discriminate.
  split; [exact Hr|]. split; [exact H1|]. split; [exact H2|].
  exact (play_back_to_back 1 2 0 (1 # 100000) [1%Z; 0%Z] [2%Z; 0%Z] initial Hr H1 H2).
Defined.

End Playback.
