(* ===== verification/Transcript.v ===== *)
(** * Transcript: pairing prompts with completed responses

    The text branch of [ws.onmessage] (src/src/App.jsx lines 116-142;
    src/poc2.jsx lines 114-134) keeps the last announced prompt in the ref
    [lastPromptRef] and, on [ResponseCompleted], appends a pair to the
    state [promptPairs] with an updater function:
<<
      setPromptPairs(pairs => [...pairs,
        { prompt: lastPromptRef.current, response: obj.content || "" }]);
      lastPromptRef.current = null;
>>
    The updater reads the ref when React runs it, and React runs it
    during the next render of the component, after the handler has set
    the ref to [null].  (React computes an updater at once, its "eager
    state", only when neither copy of the component's fiber has work
    pending; the copy a render leaves behind keeps the lanes of the
    update it rendered, so this never holds once a state update has been
    rendered, and the token typed before Start is one.)  The state
    [TState] therefore holds, besides the ref and the two committed
    state variables [promptPairs] and [messages], the component's queue
    of unrendered updates, and [render] runs it.

    The display view (src/src/App.jsx lines 220-228) blanks a prompt
    already shown in an earlier pair: [display_pairs]. *)

From stdpp Require Import base list.
From Stdlib Require Import QArith String.
From S2P Require Import Prelude Json.

Import Js.

Module Transcript.

Local Open Scope string_scope.
Local Open Scope list_scope.

Record pair := {
  prompt : jsval;
  response : jsval
}.

(** An update queued on the component by a state setter. *)
Inductive update :=
| AppendMessage (entry : string)      (** [setMessages(msgs => [...msgs, entry])] *)
| AppendPair (resp : jsval)           (** [setPromptPairs], its updater run at render *)
| ClearMessages.                      (** [setMessages([])] (src/poc2.jsx) *)

Record TState := {
  lastPromptRef : jsval;
  promptPairs : list pair;
  messages : list string;
  pending : list update
}.

Definition with_slot (v : jsval) (s : TState) : TState :=
  {| lastPromptRef := v; promptPairs := promptPairs s; messages := messages s;
     pending := pending s |}.

Definition enqueue (u : update) (s : TState) : TState :=
  {| lastPromptRef := lastPromptRef s; promptPairs := promptPairs s;
     messages := messages s; pending := pending s ++ [u] |}.

(** ** React's setters and render *)

Definition set_messages_append (entry : string) : JS TState unit :=
  js_modify (enqueue (AppendMessage entry)).

(** [setPromptPairs(pairs => [...pairs, {prompt: lastPromptRef.current,
    response: resp}])] (lines 128-134): the updater is queued, and reads
    the ref when the render runs it. *)
Definition queue_pair (resp : jsval) (s : TState) : TState :=
  enqueue (AppendPair resp) s.

Definition set_prompt_pairs_append (resp : jsval) : JS TState unit :=
  js_modify (queue_pair resp).

Definition apply_update (s : TState) (u : update) : TState :=
  match u with
  | AppendMessage e =>
      {| lastPromptRef := lastPromptRef s; promptPairs := promptPairs s;
         messages := messages s ++ [e]; pending := pending s |}
  | AppendPair r =>
      {| lastPromptRef := lastPromptRef s;
         promptPairs := promptPairs s ++ [{| prompt := lastPromptRef s; response := r |}];
         messages := messages s; pending := pending s |}
  | ClearMessages =>
      {| lastPromptRef := lastPromptRef s; promptPairs := promptPairs s;
         messages := []; pending := pending s |}
  end.

(** A render runs the queued updaters in order and commits. *)
Definition render (s : TState) : TState :=
  let s' := fold_left apply_update (pending s) s in
  {| lastPromptRef := lastPromptRef s'; promptPairs := promptPairs s';
     messages := messages s'; pending := [] |}.

(** ** The text branch of [ws.onmessage] *)

Section Handler.
Context {JP : JsonParse}.

  (** [JSON.parse(event.data)]. *)
Definition parse_json (raw : string) : JS TState jsval :=
    match json_parse raw with
    | Some v => mret v
    | None => js_throw SyntaxError
    end.

  (** [v.k], throwing [TypeError] on [null] and [undefined]. *)
Definition get_prop (v : jsval) (k : string) : JS TState jsval :=
    match prop v k with
    | Some w => mret w
    | None => js_throw TypeError
    end.

Definition set_last_prompt (v : jsval) : JS TState unit := js_modify (with_slot v).

  (** src/src/App.jsx lines 116-142. *)
Definition on_text (raw : string) : JS TState unit :=
    try_catch (
      obj ← parse_json raw;
      m ← get_prop obj "message";
      (if is_str m "prompt" then
         p ← get_prop obj "prompt";
         set_last_prompt (js_or (opt_prop p "prompt") (JStr ""))
       else mret tt);;
      m' ← get_prop obj "message";
      (if is_str m' "ResponseCompleted" then
         s ← js_get;
         if truthy (lastPromptRef s) then
           c ← get_prop obj "content";
           set_prompt_pairs_append (js_or c (JStr ""));;
           set_last_prompt JNull
         else mret tt
       else mret tt);;
      set_messages_append raw)
    (fun _ => mret tt).

  (** src/poc2.jsx lines 114-134: the two tests of the response branch
      joined by [&&]. *)
Definition on_text_poc2 (raw : string) : JS TState unit :=
    try_catch (
      obj ← parse_json raw;
      m ← get_prop obj "message";
      (if is_str m "prompt" then
         p ← get_prop obj "prompt";
         set_last_prompt (js_or (opt_prop p "prompt") (JStr ""))
       else mret tt);;
      m' ← get_prop obj "message";
      s ← js_get;
      (if is_str m' "ResponseCompleted" && truthy (lastPromptRef s) then
         c ← get_prop obj "content";
         set_prompt_pairs_append (js_or c (JStr ""));;
         set_last_prompt JNull
       else mret tt);;
      set_messages_append raw)
    (fun _ => mret tt).
End Handler.

(** ** The display view *)

(** [promptPairs.map(...)] with the [Set] [seenPrompts]. *)
Fixpoint dedup_go (seen : list jsval) (ps : list pair) : list pair :=
  match ps with
  | [] => []
  | item :: rest =>
      if existsb (same_value_zero (prompt item)) seen
      then {| prompt := JStr ""; response := response item |} :: dedup_go seen rest
      else item :: dedup_go (prompt item :: seen) rest
  end.

Definition display_pairs (ps : list pair) : list pair := dedup_go [] ps.

(** [useState([])] and [useRef(null)]. *)
Definition initial : TState :=
  {| lastPromptRef := JNull; promptPairs := []; messages := []; pending := [] |}.

(** The frames of the wire protocol the handler interprets. *)
Definition prompt_msg (text : jsval) : jsval :=
  JObj [("message", JStr "prompt"); ("prompt", JObj [("prompt", text)])].

Definition response_msg (content : jsval) : jsval :=
  JObj [("message", JStr "ResponseCompleted"); ("content", content)].

(** ** The handler on each kind of frame *)

Section HandlerFacts.
Context {JP : JsonParse}.

Lemma on_text_prompt raw text s :
    json_parse raw = Some (prompt_msg text) ->
    on_text raw s = (enqueue (AppendMessage raw) (with_slot (js_or text (JStr "")) s), Normal tt).
Proof. intros H. unfold on_text, parse_json. rewrite H. reflexivity. Qed.

Lemma on_text_response raw c s :
    json_parse raw = Some (response_msg c) ->
    on_text raw s =
      (if truthy (lastPromptRef s)
       then enqueue (AppendMessage raw) (with_slot JNull (queue_pair (js_or c (JStr "")) s))
       else enqueue (AppendMessage raw) s, Normal tt).
Proof.
    intros H. unfold on_text, parse_json. rewrite H.
    unfold mbind, mret, js_bind, js_ret, try_catch, get_prop, js_get, js_modify,
      set_last_prompt, set_prompt_pairs_append, set_messages_append.
    cbn -[truthy]. destruct (truthy (lastPromptRef s)); reflexivity.
Qed.

End HandlerFacts.

Lemma render_nil s : pending s = [] ->
  render s = {| lastPromptRef := lastPromptRef s; promptPairs := promptPairs s;
                messages := messages s; pending := [] |}.
Proof. unfold render. by intros ->. Qed.

Lemma fold_apply_slot us s :
  lastPromptRef (fold_left apply_update us s) = lastPromptRef s.
Proof. revert s. induction us as [|[] us IH]; intros s; simpl; rewrite ?IH; done. Qed.

Definition with_pending (p : list update) (s : TState) : TState :=
  {| lastPromptRef := lastPromptRef s; promptPairs := promptPairs s;
     messages := messages s; pending := p |}.

Lemma fold_apply_pending us s p :
  fold_left apply_update us (with_pending p s) = with_pending p (fold_left apply_update us s).
Proof.
  revert s. induction us as [|u us IH]; intros s; [done|].
  simpl. rewrite <- IH. f_equal. by destruct u.
Qed.

Lemma render_enqueue_message e s :
  render (enqueue (AppendMessage e) s) =
    {| lastPromptRef := lastPromptRef (render s); promptPairs := promptPairs (render s);
       messages := messages (render s) ++ [e]; pending := [] |}.
Proof.
  unfold render. change (enqueue (AppendMessage e) s) with (with_pending (pending s ++ [AppendMessage e]) s).
  cbn [pending with_pending]. rewrite fold_left_app, fold_apply_pending. reflexivity.
Qed.

(** ** Properties of the correlator *)

Section Properties.
Context {JP : JsonParse}.

  (** Turn the handler on a known frame into its effect, and compute. *)
Ltac frame H :=
    first [ rewrite (on_text_prompt _ _ _ H) | rewrite (on_text_response _ _ _ H) ];
    cbn -[truthy js_or]; rewrite ?js_or_str_empty.

  (** (C7) The prompt is lost even when React renders after every
      frame: [Prompt("A")], [Prompt("B")], [ResponseCompleted("R")] add
      exactly one pair, but it is [{null, R}], not the [{B, R}] of the
      specification: the updater runs at the render, after
      [lastPromptRef.current = null]. *)
Theorem single_slot_rendered ra rb rr a b r s :
    pending s = [] ->
    json_parse ra = Some (prompt_msg (JStr a)) ->
    json_parse rb = Some (prompt_msg (JStr b)) ->
    json_parse rr = Some (response_msg (JStr r)) ->
    b <> "" ->
    let s3 := render (exec (on_text rr) (render (exec (on_text rb) (render (exec (on_text ra) s))))) in
    promptPairs s3 = promptPairs s ++ [{| prompt := JNull; response := JStr r |}] /\
    lastPromptRef s3 = JNull /\
    messages s3 = messages s ++ [ra; rb; rr].
Proof.
    intros Hp Ha Hb Hr Hne. destruct s as [slot pairs msgs pend]; simpl in Hp; subst pend.
    unfold exec. frame Ha. frame Hb. frame Hr.
    rewrite (proj2 (truthy_str b) Hne). cbn. by rewrite <- !app_assoc.
Qed.

  (** (C28) The same three frames delivered before React renders: the
      response's updater is queued behind the unrendered [setMessages]
      updates, runs after [lastPromptRef.current = null], and the pair
      committed is [{null, R}]: the prompt [B] is lost. *)
Theorem burst_pairs_null ra rb rr a b r s :
    pending s = [] ->
    json_parse ra = Some (prompt_msg (JStr a)) ->
    json_parse rb = Some (prompt_msg (JStr b)) ->
    json_parse rr = Some (response_msg (JStr r)) ->
    b <> "" ->
    let s3 := render (exec (on_text rr) (exec (on_text rb) (exec (on_text ra) s))) in
    promptPairs s3 = promptPairs s ++ [{| prompt := JNull; response := JStr r |}] /\
    messages s3 = messages s ++ [ra; rb; rr].
Proof.
    intros Hp Ha Hb Hr Hne. destruct s as [slot pairs msgs pend]; simpl in Hp; subst pend.
    unfold exec. frame Ha. frame Hb. frame Hr.
    rewrite (proj2 (truthy_str b) Hne). cbn. by rewrite <- !app_assoc.
Qed.

  (** (C5) A response is paired with the prompt that follows it: when
      [Prompt("A")] is rendered and [ResponseCompleted("R")] and
      [Prompt("C")] arrive before the next render, the committed pair is
      [{C, R}]: the updater reads the slot the next prompt frame wrote,
      [A] is lost and [C] stays pending for the next response too. *)
Theorem response_takes_next_prompt ra rr rc a r c s :
    pending s = [] ->
    json_parse ra = Some (prompt_msg (JStr a)) ->
    json_parse rr = Some (response_msg (JStr r)) ->
    json_parse rc = Some (prompt_msg (JStr c)) ->
    a <> "" ->
    let s3 := render (exec (on_text rc) (exec (on_text rr) (render (exec (on_text ra) s)))) in
    promptPairs s3 = promptPairs s ++ [{| prompt := JStr c; response := JStr r |}] /\
    lastPromptRef s3 = JStr c /\
    messages s3 = messages s ++ [ra; rr; rc].
Proof.
    intros Hp Ha Hr Hc Hne. destruct s as [slot pairs msgs pend]; simpl in Hp; subst pend.
    unfold exec. frame Ha. frame Hr. frame Hc.
    rewrite (proj2 (truthy_str a) Hne). cbn. by rewrite <- !app_assoc.
Qed.

  (** A response with no pending prompt (the slot is [null] or
      [""]) adds no pair: only the message is logged and the slot is
      left as it was. *)
Theorem dangling_response_dropped rr c s :
    json_parse rr = Some (response_msg c) ->
    truthy (lastPromptRef s) = false ->
    let s' := render (exec (on_text rr) s) in
    promptPairs s' = promptPairs (render s) /\
    lastPromptRef s' = lastPromptRef s /\
    messages s' = messages (render s) ++ [rr].
Proof.
    intros Hr Hf. cbv zeta. unfold exec.
    rewrite (on_text_response _ _ _ Hr), Hf. cbn [fst].
    rewrite render_enqueue_message. cbn. unfold render. by rewrite fold_apply_slot.
Qed.

  (** A text frame that is not JSON, or is the JSON [null], leaves
      the state unchanged: the [SyntaxError] of [JSON.parse] and the
      [TypeError] of [obj.message] are caught, and the frame is not
      logged. *)
Theorem unparsable_frame_ignored raw s :
    json_parse raw = None \/ json_parse raw = Some JNull -> on_text raw s = (s, Normal tt).
Proof. unfold on_text, parse_json. intros [H|H]; rewrite H; reflexivity. Qed.

  (** (C11) The text branch of src/poc2.jsx's [ws.onmessage] and that of
      src/src/App.jsx have the same effect on every frame and every
      state, errors included: poc2.jsx's [message === "ResponseCompleted"
      && lastPromptRef.current], read after the prompt branch has run,
      is App.jsx's nested [if]. *)
Theorem on_text_poc2_equiv raw s : on_text_poc2 raw s = on_text raw s.
Proof.
    unfold on_text, on_text_poc2, parse_json.
    destruct (json_parse raw) as [obj|]; [|reflexivity].
    unfold mbind, mret, js_bind, js_ret, try_catch, get_prop, js_get, js_modify, js_throw,
      set_last_prompt, set_prompt_pairs_append, set_messages_append.
    destruct (prop obj "message") as [m|]; [|reflexivity].
    destruct (is_str m "prompt"); cbn -[truthy];
      destruct (is_str m "ResponseCompleted"); cbn -[truthy]; try reflexivity;
      destruct (truthy _); reflexivity.
Qed.

  (** (C31) A prompt frame whose [prompt.prompt] is missing or falsy
      stores [""] in the slot, which discards a prompt still waiting:
      the next response adds no pair. *)
Theorem falsy_prompt_clears_slot rp rr t c s :
    json_parse rp = Some (prompt_msg t) -> truthy t = false ->
    json_parse rr = Some (response_msg c) ->
    exec (on_text rr) (exec (on_text rp) s) =
      enqueue (AppendMessage rr) (enqueue (AppendMessage rp) (with_slot (JStr "") s)).
Proof.
    intros Hp Ht Hr. unfold exec.
    rewrite (on_text_prompt _ _ _ Hp). cbn [fst].
    rewrite (on_text_response _ _ _ Hr). cbn -[truthy js_or].
    rewrite (js_or_falsy _ _ Ht). reflexivity.
Qed.
End Properties.

(** ** The display view against its specification *)

Definition blank (p : pair) : pair := {| prompt := JStr ""; response := response p |}.

(** The [i]-th pair is shown with an empty prompt exactly when its
    prompt equals the prompt of an earlier pair. *)
Definition display_spec (ps : list pair) : list pair :=
  imap (fun i p => if existsb (same_value_zero (prompt p)) (map prompt (take i ps))
                   then blank p else p) ps.

Lemma existsb_svz_trans x y l :
  same_value_zero x y = true -> existsb (same_value_zero y) l = true ->
  existsb (same_value_zero x) l = true.
Proof.
  intros Hxy Hy. apply existsb_exists in Hy as (z & Hz & Hyz).
  apply existsb_exists. exists z. split; [done|]. by eapply same_value_zero_trans.
Qed.

Lemma dedup_go_ref seen prev ps :
  (forall x, existsb (same_value_zero x) seen = existsb (same_value_zero x) prev) ->
  dedup_go seen ps =
  imap (fun i p => if existsb (same_value_zero (prompt p)) (prev ++ map prompt (take i ps))
                   then blank p else p) ps.
Proof.
  revert seen prev. induction ps as [|item rest IH]; intros seen prev Hs; [done|].
  rewrite imap_cons. cbn [dedup_go take map]. rewrite app_nil_r, <- Hs.
  destruct (existsb (same_value_zero (prompt item)) seen) eqn:E; f_equal;
    rewrite (IH _ (prev ++ [prompt item]));
    try (apply imap_ext; intros i p _; by rewrite <- app_assoc); intros x;
    rewrite existsb_app, <- Hs; cbn [existsb]; rewrite orb_false_r.
  - destruct (same_value_zero x (prompt item)) eqn:Ex; [|by rewrite orb_false_r].
    rewrite orb_true_r. by eapply existsb_svz_trans.
  - apply orb_comm.
Qed.

(** (C30) The one-pass [Set]-based view of src/src/App.jsx lines 220-228
    computes [display_spec]: a prompt that already appeared in an
    earlier pair is shown as [""], its response is kept, and the log
    itself is not changed. *)
Theorem display_pairs_spec ps : display_pairs ps = display_spec ps.
Proof. unfold display_pairs, display_spec. by apply (dedup_go_ref [] []). Qed.

Example display_pairs_example :
  display_pairs [{| prompt := JStr "A"; response := JStr "R1" |};
                 {| prompt := JStr "B"; response := JStr "R2" |};
                 {| prompt := JStr "A"; response := JStr "R3" |}] =
  [{| prompt := JStr "A"; response := JStr "R1" |};
   {| prompt := JStr "B"; response := JStr "R2" |};
   {| prompt := JStr ""; response := JStr "R3" |}].
Proof. reflexivity. Qed.

(** ** Witnesses *)

Definition demo_parser : JsonParse :=
  table_parser [("pa", prompt_msg (JStr "A")); ("pb", prompt_msg (JStr "B"));
                ("rr", response_msg (JStr "R")); ("pe", prompt_msg (JStr ""));
                ("nul", JNull)].

Lemma single_slot_rendered_witness :
  pending initial = [] /\
  @json_parse demo_parser "pa" = Some (prompt_msg (JStr "A")) /\
  @json_parse demo_parser "pb" = Some (prompt_msg (JStr "B")) /\
  @json_parse demo_parser "rr" = Some (response_msg (JStr "R")) /\ "B" <> "" /\
  let s3 := render (exec (@on_text demo_parser "rr")
              (render (exec (@on_text demo_parser "pb")
                (render (exec (@on_text demo_parser "pa") initial))))) in
  promptPairs s3 = promptPairs initial ++ [{| prompt := JNull; response := JStr "R" |}] /\
  lastPromptRef s3 = JNull /\ messages s3 = messages initial ++ ["pa"; "pb"; "rr"].
Proof.
  assert (H0 : pending initial = []) by reflexivity.
  assert (H1 : @json_parse demo_parser "pa" = Some (prompt_msg (JStr "A"))) by reflexivity.
  assert (H2 : @json_parse demo_parser "pb" = Some (prompt_msg (JStr "B"))) by reflexivity.
  assert (H3 : @json_parse demo_parser "rr" = Some (response_msg (JStr "R"))) by reflexivity.
  assert (H4 : "B" <> "") by discriminate.
  do 5 (split; [assumption|]).
  exact (@single_slot_rendered demo_parser "pa" "pb" "rr" "A" "B" "R" initial H0 H1 H2 H3 H4).
Defined.

Lemma response_takes_next_prompt_witness :
  pending initial = [] /\
  @json_parse demo_parser "pa" = Some (prompt_msg (JStr "A")) /\
  @json_parse demo_parser "rr" = Some (response_msg (JStr "R")) /\
  @json_parse demo_parser "pb" = Some (prompt_msg (JStr "B")) /\ "A" <> "" /\
  let s3 := render (exec (@on_text demo_parser "pb")
              (exec (@on_text demo_parser "rr") (render (exec (@on_text demo_parser "pa") initial)))) in
  promptPairs s3 = promptPairs initial ++ [{| prompt := JStr "B"; response := JStr "R" |}] /\
  lastPromptRef s3 = JStr "B" /\ messages s3 = messages initial ++ ["pa"; "rr"; "pb"].
Proof.
  assert (H0 : pending initial = []) by reflexivity.
  assert (H1 : @json_parse demo_parser "pa" = Some (prompt_msg (JStr "A"))) by reflexivity.
  assert (H2 : @json_parse demo_parser "rr" = Some (response_msg (JStr "R"))) by reflexivity.
  assert (H3 : @json_parse demo_parser "pb" = Some (prompt_msg (JStr "B"))) by reflexivity.
  assert (H4 : "A" <> "") by discriminate.
  do 5 (split; [assumption|]).
  exact (@response_takes_next_prompt demo_parser "pa" "rr" "pb" "A" "R" "B" initial H0 H1 H2 H3 H4).
Defined.

Lemma burst_pairs_null_witness :
  pending initial = [] /\
  @json_parse demo_parser "pa" = Some (prompt_msg (JStr "A")) /\
  @json_parse demo_parser "pb" = Some (prompt_msg (JStr "B")) /\
  @json_parse demo_parser "rr" = Some (response_msg (JStr "R")) /\ "B" <> "" /\
  let s3 := render (exec (@on_text demo_parser "rr")
              (exec (@on_text demo_parser "pb") (exec (@on_text demo_parser "pa") initial))) in
  promptPairs s3 = promptPairs initial ++ [{| prompt := JNull; response := JStr "R" |}] /\
  messages s3 = messages initial ++ ["pa"; "pb"; "rr"].
Proof.
  assert (H0 : pending initial = []) by reflexivity.
  assert (H1 : @json_parse demo_parser "pa" = Some (prompt_msg (JStr "A"))) by reflexivity.
  assert (H2 : @json_parse demo_parser "pb" = Some (prompt_msg (JStr "B"))) by reflexivity.
  assert (H3 : @json_parse demo_parser "rr" = Some (response_msg (JStr "R"))) by reflexivity.
  assert (H4 : "B" <> "") by discriminate.
  do 5 (split; [assumption|]).
  exact (@burst_pairs_null demo_parser "pa" "pb" "rr" "A" "B" "R" initial H0 H1 H2 H3 H4).
Defined.

Lemma dangling_response_dropped_witness :
  @json_parse demo_parser "rr" = Some (response_msg (JStr "R")) /\
  truthy (lastPromptRef initial) = false /\
  let s' := render (exec (@on_text demo_parser "rr") initial) in
  promptPairs s' = promptPairs (render initial) /\
  lastPromptRef s' = lastPromptRef initial /\
  messages s' = messages (render initial) ++ ["rr"].
Proof.
  assert (H1 : @json_parse demo_parser "rr" = Some (response_msg (JStr "R"))) by reflexivity.
  assert (H2 : truthy (lastPromptRef initial) = false) by reflexivity.
  do 2 (split; [assumption|]).
  exact (@dangling_response_dropped demo_parser "rr" (JStr "R") initial H1 H2).
Defined.

Lemma unparsable_frame_ignored_witness :
  (@json_parse demo_parser "nul" = None \/ @json_parse demo_parser "nul" = Some JNull) /\
  @on_text demo_parser "nul" initial = (initial, Normal tt).
Proof.
  assert (H : @json_parse demo_parser "nul" = None \/ @json_parse demo_parser "nul" = Some JNull)
    by (right; reflexivity).
  split; [exact H | exact (@unparsable_frame_ignored demo_parser "nul" initial H)].
Defined.

Lemma falsy_prompt_clears_slot_witness :
  @json_parse demo_parser "pe" = Some (prompt_msg (JStr "")) /\ truthy (JStr "") = false /\
  @json_parse demo_parser "rr" = Some (response_msg (JStr "R")) /\
  exec (@on_text demo_parser "rr") (exec (@on_text demo_parser "pe") initial) =
    enqueue (AppendMessage "rr") (enqueue (AppendMessage "pe") (with_slot (JStr "") initial)).
Proof.
  assert (H1 : @json_parse demo_parser "pe" = Some (prompt_msg (JStr ""))) by reflexivity.
  assert (H2 : truthy (JStr "") = false) by reflexivity.
  assert (H3 : @json_parse demo_parser "rr" = Some (response_msg (JStr "R"))) by reflexivity.
  do 3 (split; [assumption|]).
  exact (@falsy_prompt_clears_slot demo_parser "pe" "rr" (JStr "") (JStr "R") initial H1 H2 H3).
Defined.

End Transcript.
