(* ===== verification/TranscriptSpec.v ===== *)
(** * TranscriptSpec: the correlator of the specification, and the code's refinement of it

    The specification (section 4.5) describes the correlator as a
    machine over decoded events [Prompt(text)], [ResponseCompleted(text)]
    and [Other]: a prompt overwrites the single pending slot, a completion
    with a pending prompt appends the pair and clears the slot, and every
    message is logged.  [Corr] and [corr_step] are that machine.

    [refines] relates it to the code's [Transcript.TState]: the slot is
    [lastPromptRef] (absent = a falsy value), the log is [messages],
    nothing is waiting for a render, and the pairs are [promptPairs],
    each the specification's pair with its prompt replaced by [null]:
    [setPromptPairs]'s updater reads [lastPromptRef] at the render,
    after the handler has set it to [null] ([Transcript.queue_pair]).
    The theorems show that one text frame handled by
    [Transcript.on_text] and followed by a render is one [corr_step]
    (a forward simulation), hence any sequence of frames each followed
    by a render is the specification's run, prompts lost.  The
    hypotheses say where the code meets the specification: a render
    between frames, prompt texts that are not empty (see
    [Transcript.falsy_prompt_clears_slot]), and frames that are JSON
    objects. *)

From stdpp Require Import base list.
From Stdlib Require Import String.
From S2P Require Import Prelude Json Transcript.

Import Js.

Module TranscriptSpec.

Local Open Scope string_scope.
Local Open Scope list_scope.

(** ** The specification's correlator *)

Inductive tevent :=
| Prompt (text : string)
| Completed (text : string)
| Other.

Record Corr := {
  slot : option string;
  pairs : list (string * string);
  log : list string
}.

Definition corr_init : Corr := {| slot := None; pairs := []; log := [] |}.

(** [onEvent] of section 4.5, and the caller's logging of the raw
    message. *)
Definition corr_step (e : tevent) (raw : string) (c : Corr) : Corr :=
  match e with
  | Prompt t => {| slot := Some t; pairs := pairs c; log := log c ++ [raw] |}
  | Completed r =>
      match slot c with
      | Some p => {| slot := None; pairs := pairs c ++ [(p, r)]; log := log c ++ [raw] |}
      | None => {| slot := None; pairs := pairs c; log := log c ++ [raw] |}
      end
  | Other => {| slot := slot c; pairs := pairs c; log := log c ++ [raw] |}
  end.

Fixpoint corr_run (evs : list (tevent * string)) (c : Corr) : Corr :=
  match evs with
  | [] => c
  | (e, raw) :: rest => corr_run rest (corr_step e raw c)
  end.

(** ** The relation between the code's state and the specification's *)

Definition slot_rel (v : jsval) (o : option string) : Prop :=
  match o with
  | Some t => v = JStr t /\ t <> ""
  | None => truthy v = false
  end.

(** The pair the code commits for the specification's pair [pr]: the
    response is kept, the prompt is [null]. *)
Definition pair_of (pr : string * string) : Transcript.pair :=
  {| Transcript.prompt := JNull; Transcript.response := JStr (snd pr) |}.

Record refines (s : Transcript.TState) (c : Corr) : Prop := {
  ref_pending : Transcript.pending s = [];
  ref_slot : slot_rel (Transcript.lastPromptRef s) (slot c);
  ref_pairs : Transcript.promptPairs s = map pair_of (pairs c);
  ref_log : Transcript.messages s = log c
}.

Section Frames.
Context {JP : JsonParse}.

(** The frame [raw] carries the event [e]: a prompt announcement with a
    non-empty text, a completion with a string content, or another
    object whose [message] is neither tag. *)
Definition carries (raw : string) (e : tevent) : Prop :=
  match e with
  | Prompt t => json_parse raw = Some (Transcript.prompt_msg (JStr t)) /\ t <> ""
  | Completed r => json_parse raw = Some (Transcript.response_msg (JStr r))
  | Other =>
      exists fs, json_parse raw = Some (JObj fs) /\
        is_str (default JUndefined (field_last "message" fs)) "prompt" = false /\
        is_str (default JUndefined (field_last "message" fs)) "ResponseCompleted" = false
  end.

(** One frame handled by the code, then a render. *)
Definition code_step (raw : string) (s : Transcript.TState) : Transcript.TState :=
  Transcript.render (exec (Transcript.on_text raw) s).

Fixpoint code_run (raws : list string) (s : Transcript.TState) : Transcript.TState :=
  match raws with
  | [] => s
  | raw :: rest => code_run rest (code_step raw s)
  end.

End Frames.

(** ** The simulation *)

Section Simulation.
Context {JP : JsonParse}.

Lemma on_text_other raw fs s :
  json_parse raw = Some (JObj fs) ->
  is_str (default JUndefined (field_last "message" fs)) "prompt" = false ->
  is_str (default JUndefined (field_last "message" fs)) "ResponseCompleted" = false ->
  Transcript.on_text raw s = (Transcript.enqueue (Transcript.AppendMessage raw) s, Normal tt).
Proof.
  intros H Hp Hr. unfold Transcript.on_text, Transcript.parse_json. rewrite H.
  unfold mbind, mret, js_bind, js_ret, try_catch, Transcript.get_prop, js_get, js_modify,
    Transcript.set_messages_append.
  cbn -[is_str]. by rewrite Hp, Hr.
Qed.

Lemma init_refines : refines Transcript.initial corr_init.
Proof. by constructor. Qed.

(** A frame and a render simulate one step of the specification. *)
Lemma code_step_refines raw e s c :
  refines s c -> carries raw e -> refines (code_step raw s) (corr_step e raw c).
Proof.
  destruct s as [lp pp msgs pend]. intros [Hpend Hslot Hpairs Hlog] Hc.
  cbn in Hpend, Hslot, Hpairs, Hlog. subst pend pp msgs. unfold code_step, exec.
  destruct e as [t|r|]; cbn in Hc.
  - destruct Hc as [Hc Ht]. rewrite (Transcript.on_text_prompt _ _ _ Hc).
    rewrite js_or_str_empty. constructor; cbn; auto.
  - rewrite (Transcript.on_text_response _ _ _ Hc). cbn [Transcript.lastPromptRef].
    unfold corr_step. destruct (slot c) as [p|] eqn:Es; cbn in Hslot.
    + destruct Hslot as [-> Hp]. assert (Ht : truthy (JStr p) = true) by by apply truthy_str.
      rewrite Ht, js_or_str_empty. constructor; cbn; try done.
      by rewrite map_app.
    + rewrite Hslot. constructor; cbn; [done|done|done|done].
  - destruct Hc as (fs & Hc & Hp & Hr). rewrite (on_text_other _ _ _ Hc Hp Hr).
    constructor; cbn; [done|done|done|done].
Qed.

Lemma code_run_refines evs s c :
  Forall (fun p => carries (snd p) (fst p)) evs -> refines s c ->
  refines (code_run (map snd evs) s) (corr_run evs c).
Proof.
  revert s c. induction evs as [|[e raw] evs IH]; intros s c Hf Hr; [done|].
  apply Forall_cons in Hf as [He Hf]. cbn. apply IH; [done|]. by apply code_step_refines.
Qed.

End Simulation.

(** (C10) The code refines the specification's correlator: for any
    sequence of frames that carry specification events (JSON objects;
    prompts with a non-empty text), each handled by [ws.onmessage] and
    followed by a React render, the slot is the specification's pending
    prompt and the message log is its log, and the pairs the component
    commits are the specification's pairs with every prompt replaced by
    [null]: the responses are paired as specified, the prompts are
    lost. *)
Theorem code_refines_spec {JP : JsonParse} evs :
  Forall (fun p => carries (snd p) (fst p)) evs ->
  let s := code_run (map snd evs) Transcript.initial in
  let c := corr_run evs corr_init in
  Transcript.promptPairs s = map pair_of (pairs c) /\
  slot_rel (Transcript.lastPromptRef s) (slot c) /\
  Transcript.messages s = log c /\ Transcript.pending s = [].
Proof.
  intros Hf. cbv zeta.
  destruct (code_run_refines evs _ _ Hf init_refines) as [H1 H2 H3 H4]. done.
Qed.

(** ** Witness: the specification's example of section 7 *)

Definition demo_events : list (tevent * string) :=
  [(Prompt "A", "pa"); (Prompt "B", "pb"); (Completed "R", "rr")].

Lemma code_refines_spec_witness :
  Forall (fun p => @carries Transcript.demo_parser (snd p) (fst p)) demo_events /\
  let s := @code_run Transcript.demo_parser (map snd demo_events) Transcript.initial in
  let c := corr_run demo_events corr_init in
  Transcript.promptPairs s = map pair_of (pairs c) /\
  slot_rel (Transcript.lastPromptRef s) (slot c) /\
  Transcript.messages s = log c /\ Transcript.pending s = [].
Proof.
  assert (H : Forall (fun p => @carries Transcript.demo_parser (snd p) (fst p)) demo_events).
  { repeat constructor; cbn; try split; try reflexivity; discriminate. }
  split; [exact H | exact (@code_refines_spec Transcript.demo_parser demo_events H)].
Defined.

End TranscriptSpec.
