(* ===== verification/View.v ===== *)
(** * View: the rendering of the prompt/response pairs

    src/src/App.jsx lines 383-420 renders the deduplicated pairs
    [result] ([Transcript.display_pairs]) as chat bubbles:
<<
      {result.map((pair, i) => (
        <div key={i}>
          { pair.prompt && <div>{pair.prompt.replace(/<\/?s1>/gi, '')}</div> }
          <div>{pair.response.replace(/<\s*\/?\s*s\d+\s*>/gi, '')}</div>
        </div>))}
>>
    src/poc2.jsx lines 283-288 renders the raw pairs as table rows, each
    field as a React child ([{pair.prompt}], [{pair.response}]).

    This file models:
    - the two regular expressions as matchers that return the rest of
      the string after a match at its head ([match_s1], [match_tag]);
      both patterns are deterministic up to backtracking (each [\s*] and
      [\d+] is followed by a character it cannot match), so the greedy
      matcher accepts exactly the strings the backtracking one does, with
      the same match;
    - [String.prototype.replace] with a global pattern, which scans left to
      right and restarts after each match ([replace_all_fuel]); its fuel
      is the length of the string plus one, which the termination
      theorem shows is enough;
    - React's rendering of a child value ([render_child]): strings and
      numbers render as text, [null], [undefined] and booleans render
      nothing, arrays render their elements, an object throws;
    - the two views: [render_app] and [render_poc2].

    Strings are Stdlib [string]s whose characters are the UTF-16 code
    units below 256: [\s] is then tab, line feed, vertical tab, form
    feed, carriage return, space and no-break space (160), and the [i]
    flag only relates [s] and [S].  Code units above 255 are not
    modelled. *)

From stdpp Require Import base list list_monad.
From Stdlib Require Import String Ascii QArith Lia.
From S2P Require Import Prelude Json Transcript.

Import Js.

Module View.

Local Open Scope string_scope.
Local Open Scope list_scope.
Local Open Scope nat_scope.

(** ** Character classes of the two patterns *)

(** [\s] on code units below 256. *)
Definition is_space (c : ascii) : bool :=
  let n := nat_of_ascii c in
  ((9 <=? n) && (n <=? 13)) || (n =? 32) || (n =? 160).

(** [\d]. *)
Definition is_digit (c : ascii) : bool :=
  let n := nat_of_ascii c in (48 <=? n) && (n <=? 57).

(** The letter [s] under the [i] flag. *)
Definition is_s (c : ascii) : bool := Ascii.eqb c "s"%char || Ascii.eqb c "S"%char.

Fixpoint skip_spaces (s : string) : string :=
  match s with
  | String c r => if is_space c then skip_spaces r else s
  | EmptyString => s
  end.

Fixpoint skip_digits (s : string) : string :=
  match s with
  | String c r => if is_digit c then skip_digits r else s
  | EmptyString => s
  end.

(** [c] at the head of [s]: the rest, or nothing. *)
Definition eat (p : ascii -> bool) (s : string) : option string :=
  match s with
  | String c r => if p c then Some r else None
  | EmptyString => None
  end.

(** [\/?]: the slash if it is there. *)
Definition opt_slash (s : string) : string :=
  default s (eat (fun c => Ascii.eqb c "/"%char) s).

(** ** The two patterns *)

(** [/<\/?s1>/i] at the head of [s] (App.jsx line 400). *)
Definition match_s1 (s : string) : option string :=
  r ← eat (fun c => Ascii.eqb c "<"%char) s;
  r ← eat is_s (opt_slash r);
  r ← eat (fun c => Ascii.eqb c "1"%char) r;
  eat (fun c => Ascii.eqb c ">"%char) r.

(** [/<\s*\/?\s*s\d+\s*>/i] at the head of [s] (App.jsx line 418). *)
Definition match_tag (s : string) : option string :=
  r ← eat (fun c => Ascii.eqb c "<"%char) s;
  r ← eat is_s (skip_spaces (opt_slash (skip_spaces r)));
  r ← eat is_digit r;
  eat (fun c => Ascii.eqb c ">"%char) (skip_spaces (skip_digits r)).

(** [s.replace(re, '')] for a global [re] whose matches are never empty:
    at each position, a match is dropped and the scan restarts after
    it; otherwise the character is kept.  [None] is running out of fuel. *)
Fixpoint replace_all_fuel (fuel : nat) (m : string -> option string) (s : string)
    : option string :=
  match fuel with
  | O => None
  | S f =>
      match m s with
      | Some rest => replace_all_fuel f m rest
      | None =>
          match s with
          | EmptyString => Some EmptyString
          | String c r => String c <$> replace_all_fuel f m r
          end
      end
  end.

Definition replace_all (m : string -> option string) (s : string) : string :=
  default s (replace_all_fuel (S (String.length s)) m s).

Definition strip_prompt (s : string) : string := replace_all match_s1 s.

Definition strip_response (s : string) : string := replace_all match_tag s.

(** ** React children and the two views *)

(** What React puts in the page for a child value. *)
Inductive rchild :=
| RText (s : string)
| RNum (q : Q).

(** [{v}] as a React child: [None] is the error React throws for an
    object ("Objects are not valid as a React child"); [null],
    [undefined] and booleans render nothing, an array its elements. *)
Fixpoint render_child (v : jsval) : option (list rchild) :=
  match v with
  | JUndefined | JNull | JBool _ => Some []
  | JNum q => Some [RNum q]
  | JStr s => Some [RText s]
  | JArr xs =>
      (fix go (xs : list jsval) : option (list rchild) :=
         match xs with
         | [] => Some []
         | x :: r => a ← render_child x; b ← go r; mret (a ++ b)
         end) xs
  | JObj _ => None
  end.

(** [v.replace(re, '')]: only strings have the method; on any other
    value the call throws [TypeError] ([None]). *)
Definition js_replace (m : string -> option string) (v : jsval) : option string :=
  match v with
  | JStr s => Some (replace_all m s)
  | _ => None
  end.

(** The elements of one entry of App.jsx's chat view. *)
Inductive element :=
| PromptBubble (text : string)       (** the left bubble, lines 386-401 *)
| ResponseBubble (text : string)     (** the right bubble, lines 403-418 *)
| Loose (cs : list rchild).          (** the value of a falsy [pair.prompt && ...] *)

(** One entry (App.jsx lines 384-419).  A falsy prompt is the value of
    [pair.prompt && ...] itself: [0] renders as text, the other falsy
    values as nothing. *)
Definition render_pair_app (p : Transcript.pair) : option (list element) :=
  pe ← (if truthy (Transcript.prompt p)
        then t ← js_replace match_s1 (Transcript.prompt p); mret [PromptBubble t]
        else cs ← render_child (Transcript.prompt p); mret [Loose cs]);
  r ← js_replace match_tag (Transcript.response p);
  mret (pe ++ [ResponseBubble r]).

(** The chat view of App.jsx (lines 383-420) over [result]. *)
Definition render_app (pairs : list Transcript.pair) : option (list element) :=
  (@List.concat element) <$> mapM (M := option) render_pair_app (Transcript.display_pairs pairs).

(** A table row of src/poc2.jsx (lines 283-288). *)
Definition render_row_poc2 (p : Transcript.pair) : option (list rchild * list rchild) :=
  a ← render_child (Transcript.prompt p);
  b ← render_child (Transcript.response p);
  mret (a, b).

Definition render_poc2 (pairs : list Transcript.pair) : option (list (list rchild * list rchild)) :=
  mapM (M := option) render_row_poc2 pairs.

(** The message log of both views (App.jsx 441-443, poc2.jsx 309-311):
    one text line per entry. *)
Definition render_messages (msgs : list string) : list rchild := map RText msgs.

(** [typeof v === "string"]. *)
Definition is_string (v : jsval) : bool :=
  match v with JStr _ => true | _ => false end.

(** A prompt on which App.jsx calls [.replace] without having it: truthy
    and not a string. *)
Definition bad_prompt (v : jsval) : bool := truthy v && negb (is_string v).

(** A pair App.jsx's view cannot render. *)
Definition bad_pair (p : Transcript.pair) : bool :=
  bad_prompt (Transcript.prompt p) || negb (is_string (Transcript.response p)).

(** A value with an object in it, which React refuses as a child. *)
Fixpoint has_object (v : jsval) : bool :=
  match v with
  | JObj _ => true
  | JArr xs => existsb has_object xs
  | _ => false
  end.

(** ** Termination of the replace loop *)

(** A matcher that never matches the empty string. *)
Definition consumes (m : string -> option string) : Prop :=
  forall s r, m s = Some r -> String.length r < String.length s.

Lemma eat_length p s r : eat p s = Some r -> String.length s = S (String.length r).
Proof. destruct s as [|c s]; cbn; [done|]. destruct (p c); congruence. Qed.

Lemma skip_spaces_length s : String.length (skip_spaces s) <= String.length s.
Proof. induction s as [|c s IH]; cbn; [lia|]. destruct (is_space c); cbn; lia. Qed.

Lemma skip_digits_length s : String.length (skip_digits s) <= String.length s.
Proof. induction s as [|c s IH]; cbn; [lia|]. destruct (is_digit c); cbn; lia. Qed.

Lemma opt_slash_length s : String.length (opt_slash s) <= String.length s.
Proof.
  unfold opt_slash. destruct (eat _ s) as [r|] eqn:E; cbn; [|lia].
  apply eat_length in E. lia.
Qed.

#[local] Hint Resolve skip_spaces_length skip_digits_length opt_slash_length : poc.

(** Peel the [eat] steps of a matcher. *)
Ltac eat_steps :=
  repeat match goal with
  | H : (_ ← ?m; _) = Some _ |- _ =>
      let E := fresh "E" in
      destruct m eqn:E; cbn in H; [|discriminate]
  | E : eat _ _ = Some _ |- _ => apply eat_length in E
  end.

Lemma match_s1_consumes : consumes match_s1.
Proof.
  intros s r H. unfold match_s1 in H. eat_steps.
  pose proof (opt_slash_length s0). lia.
Qed.

Lemma match_tag_consumes : consumes match_tag.
Proof.
  intros s r H. unfold match_tag in H. eat_steps.
  pose proof (skip_spaces_length s0). pose proof (opt_slash_length (skip_spaces s0)).
  pose proof (skip_spaces_length (opt_slash (skip_spaces s0))).
  pose proof (skip_digits_length s2). pose proof (skip_spaces_length (skip_digits s2)).
  lia.
Qed.

Section Replace.
Variable m : string -> option string.
Hypothesis Hm : consumes m.

Lemma replace_all_fuel_some n s :
  String.length s < n -> exists r, replace_all_fuel n m s = Some r.
Proof.
  revert s. induction n as [|n IH]; intros s Hs; [lia|]. cbn.
  destruct (m s) as [rest|] eqn:E.
  - apply IH. apply Hm in E. lia.
  - destruct s as [|c r]; [by eexists|].
    destruct (IH r) as [x ->]; [cbn in Hs; lia|]. by eexists.
Qed.

Lemma replace_all_fuel_mono n n' s r :
  n <= n' -> replace_all_fuel n m s = Some r -> replace_all_fuel n' m s = Some r.
Proof.
  revert n' s r. induction n as [|n IH]; intros n' s r Hle H; [done|].
  destruct n' as [|n']; [lia|]. cbn in *.
  destruct (m s); [apply IH; [lia|done]|].
  destruct s as [|c s]; [done|].
  destruct (replace_all_fuel n m s) eqn:E; cbn in H; [|done].
  by rewrite (IH n' s s0) by (done || lia).
Qed.

Lemma replace_all_fuel_enough n s :
  String.length s < n -> replace_all_fuel n m s = Some (replace_all m s).
Proof.
  intros Hn. unfold replace_all.
  destruct (replace_all_fuel_some (S (String.length s)) s) as [r Hr]; [lia|].
  rewrite Hr. cbn. destruct (replace_all_fuel_some n s Hn) as [r' Hr'].
  rewrite Hr'. destruct (decide (S (String.length s) <= n)).
  - rewrite (replace_all_fuel_mono _ _ _ _ l Hr) in Hr'. congruence.
  - rewrite (replace_all_fuel_mono n (S (String.length s)) s r') in Hr by (lia || done).
    congruence.
Qed.

Lemma replace_all_fuel_S n s :
  replace_all_fuel (S n) m s =
    match m s with
    | Some rest => replace_all_fuel n m rest
    | None =>
        match s with
        | EmptyString => Some EmptyString
        | String c r => String c <$> replace_all_fuel n m r
        end
    end.
Proof. reflexivity. Qed.

(** The scan's equations, at the end and on a character. *)
Lemma replace_all_cons c r :
  replace_all m (String c r) =
    match m (String c r) with
    | Some rest => replace_all m rest
    | None => String c (replace_all m r)
    end.
Proof.
  pose proof (replace_all_fuel_enough (S (S (String.length r))) (String c r)
                (ltac:(cbn; lia))) as H.
  rewrite replace_all_fuel_S in H.
  destruct (m (String c r)) as [rest|] eqn:E.
  - rewrite replace_all_fuel_enough in H; [congruence|].
    apply Hm in E. cbn in E. lia.
  - rewrite replace_all_fuel_enough in H by lia.
    unfold fmap, option_fmap, option_map in H. congruence.
Qed.

Lemma replace_all_nil : m EmptyString = None -> replace_all m EmptyString = EmptyString.
Proof. intros E. unfold replace_all. cbn. by rewrite E. Qed.

Lemma replace_all_empty : replace_all m EmptyString = EmptyString.
Proof.
  unfold replace_all. cbn. destruct (m EmptyString) as [r|] eqn:E; [|done].
  apply Hm in E. cbn in E. lia.
Qed.

Lemma replace_all_length s : String.length (replace_all m s) <= String.length s.
Proof.
  remember (String.length s) as n eqn:En. revert s En.
  induction n as [n IH] using (well_founded_induction lt_wf). intros s ->.
  destruct s as [|c r]; [by rewrite replace_all_empty|].
  rewrite replace_all_cons. destruct (m (String c r)) as [rest|] eqn:E.
  - apply Hm in E. specialize (IH _ E rest eq_refl). lia.
  - assert (Hl : String.length r < String.length (String c r)) by (cbn [String.length]; lia).
    specialize (IH _ Hl r eq_refl). cbn [String.length] in *. lia.
Qed.

(** A matcher that only matches at a [<] leaves a string without [<]
    unchanged. *)
Lemma replace_all_no_lt s :
  (forall c r, m (String c r) <> None -> c = "<"%char) ->
  ~ In "<"%char (list_ascii_of_string s) -> replace_all m s = s.
Proof.
  intros Hlt. induction s as [|c r IH]; intros Hs; [apply replace_all_empty|].
  rewrite replace_all_cons. destruct (m (String c r)) eqn:E.
  - exfalso. apply Hs. left. apply (Hlt c r). by rewrite E.
  - f_equal. apply IH. intros Hin. apply Hs. by right.
Qed.

End Replace.

Lemma match_s1_at_lt c r : match_s1 (String c r) <> None -> c = "<"%char.
Proof.
  unfold match_s1. cbn. destruct (Ascii.eqb c "<") eqn:E; [|done].
  intros _. by apply Ascii.eqb_eq.
Qed.

Lemma match_tag_at_lt c r : match_tag (String c r) <> None -> c = "<"%char.
Proof.
  unfold match_tag. cbn. destruct (Ascii.eqb c "<") eqn:E; [|done].
  intros _. by apply Ascii.eqb_eq.
Qed.

(** ** Properties of the tag stripping *)

(** Termination of [String.prototype.replace]'s scan: the two
    global replaces of the view finish within one step per character
    plus one, and any such fuel gives the same result. *)
Theorem strip_terminates s n :
  String.length s < n ->
  replace_all_fuel n match_s1 s = Some (strip_prompt s) /\
  replace_all_fuel n match_tag s = Some (strip_response s).
Proof.
  intros Hn. split; apply replace_all_fuel_enough; auto using match_s1_consumes, match_tag_consumes.
Qed.

(** Stripping only removes characters, and a text without [<] is
    shown exactly as it was received. *)
Theorem strip_bounds s :
  String.length (strip_prompt s) <= String.length s /\
  String.length (strip_response s) <= String.length s /\
  (~ In "<"%char (list_ascii_of_string s) -> strip_prompt s = s /\ strip_response s = s).
Proof.
  split; [apply replace_all_length, match_s1_consumes|].
  split; [apply replace_all_length, match_tag_consumes|].
  intros Hs. split.
  - apply replace_all_no_lt; [apply match_s1_consumes|apply match_s1_at_lt|exact Hs].
  - apply replace_all_no_lt; [apply match_tag_consumes|apply match_tag_at_lt|exact Hs].
Qed.

(** One pass of either replace can leave a tag it is meant to
    remove: removing [<s1>] from [<<s1>s1>] joins the text around it
    into a new [<s1>], which is shown. *)
Theorem strip_not_idempotent :
  strip_prompt "<<s1>s1>" = "<s1>" /\ strip_prompt "<s1>" = "" /\
  strip_response "<<s1>s1>" = "<s1>" /\ strip_response "<s1>" = "".
Proof. vm_compute. repeat split. Qed.

(** ** When the views throw *)

Lemma render_child_None v : render_child v = None <-> has_object v = true.
Proof.
  induction v as [| | b | q | str | xs IH | fs _] using jsval_ind'; cbn; try done.
  induction IH as [|x xs Hx _ IHxs]; cbn; [done|].
  destruct (render_child x) as [a|]; cbn.
  - assert (Hf : has_object x = false).
    { apply not_true_is_false. intros Ht. apply Hx in Ht. discriminate. }
    rewrite Hf. cbn. rewrite <- IHxs. by destruct (_ xs).
  - assert (Ht : has_object x = true) by (apply Hx; reflexivity). by rewrite Ht.
Qed.

Lemma render_row_poc2_None p :
  render_row_poc2 p = None <->
    has_object (Transcript.prompt p) || has_object (Transcript.response p) = true.
Proof.
  unfold render_row_poc2. rewrite orb_true_iff, <- !render_child_None.
  destruct (render_child (Transcript.prompt p)), (render_child (Transcript.response p)); cbn;
    unfold mret, option_ret; intuition congruence.
Qed.

(** [svz]-equal prompts are both or neither unrenderable. *)
Lemma bad_prompt_svz x y : same_value_zero x y = true -> bad_prompt x = bad_prompt y.
Proof.
  intros H. unfold bad_prompt.
  destruct x, y; cbn in H; try discriminate; cbn; rewrite ?andb_false_r; try done.
  - apply Bool.eqb_prop in H. by subst.
  - apply Qeq_bool_iff in H.
    destruct (Qeq_bool q 0) eqn:E1, (Qeq_bool q0 0) eqn:E2; try done; exfalso;
      [apply Qeq_bool_iff in E1 | apply Qeq_bool_iff in E2];
      [ assert (Hq : q0 == 0) by (rewrite <- H; exact E1)
      | assert (Hq : q == 0) by (rewrite H; exact E2) ];
      apply Qeq_bool_iff in Hq; congruence.
Qed.

Lemma render_pair_app_None p : render_pair_app p = None <-> bad_pair p = true.
Proof.
  destruct p as [pr rs]. unfold render_pair_app, bad_pair, bad_prompt. cbn.
  destruct (truthy pr) eqn:Ht; cbn.
  - destruct pr; cbn in *; try done; destruct rs; cbn; done.
  - assert (Hc : render_child pr <> None).
    { destruct pr as [| | | | | xs|]; cbn in Ht; try done. }
    destruct (render_child pr); [|done]. destruct rs; cbn; done.
Qed.

Lemma dedup_go_bad seen ps :
  (forall x, In x seen -> bad_prompt x = false) ->
  Exists (fun p => bad_pair p = true) (Transcript.dedup_go seen ps) <->
    Exists (fun p => bad_pair p = true) ps.
Proof.
  revert seen. induction ps as [|item rest IH]; intros seen Hs; cbn; [done|].
  destruct (existsb (same_value_zero (Transcript.prompt item)) seen) eqn:E.
  - apply existsb_exists in E as (x & Hx & Hsv).
    assert (Hb : bad_pair {| Transcript.prompt := JStr ""; Transcript.response := Transcript.response item |}
                 = bad_pair item).
    { unfold bad_pair; cbn. rewrite (bad_prompt_svz _ _ Hsv), (Hs x Hx). done. }
    rewrite !Exists_cons, Hb, IH by done. done.
  - rewrite !Exists_cons. destruct (bad_pair item) eqn:Hi; [split; by left|].
    rewrite IH; [done|]. intros x [<-|Hx]; [|auto].
    unfold bad_pair in Hi. apply orb_false_iff in Hi. tauto.
Qed.

(** (C12) App.jsx's chat view throws, and with it the whole render,
    exactly when some received pair has a truthy prompt that is not a
    string or a response that is not a string ([.replace] is not a
    function): one such pair in [promptPairs] blanks the page on every
    render from then on. *)
Theorem render_app_fails_iff pairs :
  render_app pairs = None <-> Exists (fun p => bad_pair p = true) pairs.
Proof.
  unfold render_app. rewrite fmap_None.
  rewrite <- (dedup_go_bad [] pairs) by done.
  split; [intros H; apply mapM_None_1 in H|intros H; apply mapM_None_2];
    eapply Exists_impl; eauto; intros p; apply render_pair_app_None.
Qed.

(** src/poc2.jsx's table throws only on an object inside a field:
    numbers, booleans, [null] and arrays of them render. *)
Theorem render_poc2_fails_iff pairs :
  render_poc2 pairs = None <->
    Exists (fun p => has_object (Transcript.prompt p) || has_object (Transcript.response p) = true)
      pairs.
Proof.
  unfold render_poc2.
  split; [intros H; apply mapM_None_1 in H|intros H; apply mapM_None_2];
    eapply Exists_impl; eauto; intros p; apply render_row_poc2_None.
Qed.

(** ** Witnesses *)

Lemma strip_terminates_witness :
  String.length "a<S2>b</s1>" < 12 /\
  replace_all_fuel 12 match_s1 "a<S2>b</s1>" = Some (strip_prompt "a<S2>b</s1>") /\
  replace_all_fuel 12 match_tag "a<S2>b</s1>" = Some (strip_response "a<S2>b</s1>").
Proof.
  assert (H : String.length "a<S2>b</s1>" < 12) by (cbn; lia).
  split; [exact H | exact (strip_terminates "a<S2>b</s1>" 12 H)].
Defined.

Lemma strip_bounds_witness :
  ~ In "<"%char (list_ascii_of_string "plain text") /\
  strip_prompt "plain text" = "plain text" /\ strip_response "plain text" = "plain text".
Proof.
  assert (H : ~ In "<"%char (list_ascii_of_string "plain text")) by (cbn; intuition discriminate).
  split; [exact H|]. exact (proj2 (proj2 (strip_bounds "plain text")) H).
Defined.

(** A numeric response is rendered by src/poc2.jsx's table but throws
    in App.jsx's view. *)
Example numeric_response_views :
  render_app [{| Transcript.prompt := JStr "hi"; Transcript.response := JNum 5 |}] = None /\
  render_poc2 [{| Transcript.prompt := JStr "hi"; Transcript.response := JNum 5 |}] =
    Some [([RText "hi"], [RNum 5])].
Proof. split; reflexivity. Qed.

End View.
