(* ===== verification/Recording.v ===== *)
(** * Recording: the "record my own voice" feature of src/src/App.jsx

    Lines 240-293 of src/src/App.jsx record the user with a
    [MediaRecorder], append the recording to [conversationAudio] when the
    recorder stops, simulate a bot reply one second later, and download
    the concatenation; [clearAll] (lines 172-183) resets it:
<<
      startRecording: stream = await getUserMedia(); mediaRecorder = new MediaRecorder(stream);
                      userChunksRef.current = []; ondataavailable: push e.data;
                      onstop: setConversationAudio(prev => [...prev, user blob]);
                              setTimeout(simulateBotAudio, 1000);
                      mediaRecorderRef.current = mediaRecorder; start(); setRecording(true)
      stopRecording:  if (mediaRecorderRef.current) { stop(); setRecording(false) }
      clearAll:       if (mediaRecorderRef.current && recording) stop();
                      setRecording(false); setConversationAudio([]);
                      userChunksRef.current = []; mediaRecorderRef.current = null
>>
    The state [RState] holds the React state ([recording],
    [conversationAudio]), the two refs, the recorders the component has
    created (a store: a recorder outlives the ref that named it), the
    number of [startRecording] calls waiting for [getUserMedia] and of
    [setTimeout] callbacks waiting to run, and the downloads.

    [MediaRecorder.stop()] on an active recorder makes it inactive at once
    and queues two tasks: [dataavailable] with the recorded data, then
    [stop]; on an inactive recorder it does nothing.  The two tasks are
    the events [RecData] and [RecStop].  [ondataavailable] pushes into
    the array [userChunksRef.current] names when it runs, and [onstop]
    reads that array when it runs; since no other code keeps the old
    arrays, the array's contents are the state.

    React state is committed at once: every setter here is a plain value
    or an updater on the previous value, so the order of commits is the
    order of calls. *)

From stdpp Require Import base list gmap fin_maps.
From Stdlib Require Import ZArith Lia.
From S2P Require Import Prelude.

Module Recording.

Local Open Scope list_scope.

(** A part of a [Blob]: a recorded chunk (opaque, named by an id) or
    literal bytes. *)
Inductive part :=
| Chunk (id : nat)
| Bytes (b : list Z).

(** A [Blob] made of parts; [new Blob([b1, b2, ...])] concatenates. *)
Definition blob := list part.

Inductive speaker := User | Bot.

#[export] Instance speaker_eq_dec : EqDecision speaker.
Proof. solve_decision. Defined.

Record clip := { speaker_of : speaker; audio : blob }.

(** The recorder's lifecycle: recording; stopped with [dataavailable]
    queued; stopped with [stop] queued; done. *)
Inductive rec_state := Active | DataQueued | StopQueued | Inactive.

#[export] Instance rec_state_eq_dec : EqDecision rec_state.
Proof. solve_decision. Defined.

Record RState := {
  recording : bool;
  conversationAudio : list clip;
  mediaRecorderRef : option nat;
  userChunks : list part;
  recorders : gmap nat rec_state;
  awaiting_mic : nat;
  pending_bots : nat;
  downloads : list blob;
  unhandled : nat
}.

Definition initial : RState :=
  {| recording := false; conversationAudio := []; mediaRecorderRef := None;
     userChunks := []; recorders := ∅; awaiting_mic := 0; pending_bots := 0;
     downloads := []; unhandled := 0 |}.

(** The 44-byte silent WAV of [simulateBotAudio] (lines 273-275). *)
Definition silent_wav : list Z :=
  [82;73;70;70;36;0;0;0;87;65;86;69;102;109;116;32;16;0;0;0;1;0;1;0;0;62;0;0;0;124;0;0;
   2;0;16;0;100;97;116;97;0;0;0;0]%Z.

(** ** Field updates *)

Definition set_recorders (v : gmap nat rec_state) (s : RState) : RState :=
  {| recording := recording s; conversationAudio := conversationAudio s;
     mediaRecorderRef := mediaRecorderRef s; userChunks := userChunks s; recorders := v;
     awaiting_mic := awaiting_mic s; pending_bots := pending_bots s;
     downloads := downloads s; unhandled := unhandled s |}.

Definition set_recording (v : bool) (s : RState) : RState :=
  {| recording := v; conversationAudio := conversationAudio s;
     mediaRecorderRef := mediaRecorderRef s; userChunks := userChunks s;
     recorders := recorders s; awaiting_mic := awaiting_mic s;
     pending_bots := pending_bots s; downloads := downloads s; unhandled := unhandled s |}.

(** ** Operations *)

(** [mediaRecorder.stop()]: an active recorder queues its data and its
    [stop] event; otherwise nothing happens. *)
Definition stop_recorder (r : nat) (s : RState) : RState :=
  match recorders s !! r with
  | Some Active => set_recorders (<[r := DataQueued]> (recorders s)) s
  | _ => s
  end.

(** [startRecording] up to [await getUserMedia] (line 242). *)
Definition startRecording (s : RState) : RState :=
  {| recording := recording s; conversationAudio := conversationAudio s;
     mediaRecorderRef := mediaRecorderRef s; userChunks := userChunks s;
     recorders := recorders s; awaiting_mic := S (awaiting_mic s);
     pending_bots := pending_bots s; downloads := downloads s; unhandled := unhandled s |}.

(** The rest of [startRecording] once the stream is granted (lines
    243-259): a new recorder, a new chunk array, the ref, [start()],
    [setRecording(true)]. *)
Definition rec_granted (s : RState) : RState :=
  let r := fresh (dom (recorders s)) in
  {| recording := true; conversationAudio := conversationAudio s;
     mediaRecorderRef := Some r; userChunks := [];
     recorders := <[r := Active]> (recorders s); awaiting_mic := pred (awaiting_mic s);
     pending_bots := pending_bots s; downloads := downloads s; unhandled := unhandled s |}.

(** [getUserMedia] rejected: [startRecording] has no [catch], so its
    promise is an unhandled rejection. *)
Definition rec_denied (s : RState) : RState :=
  {| recording := recording s; conversationAudio := conversationAudio s;
     mediaRecorderRef := mediaRecorderRef s; userChunks := userChunks s;
     recorders := recorders s; awaiting_mic := pred (awaiting_mic s);
     pending_bots := pending_bots s; downloads := downloads s; unhandled := S (unhandled s) |}.

(** [stopRecording] (lines 263-268). *)
Definition stopRecording (s : RState) : RState :=
  match mediaRecorderRef s with
  | Some r => set_recording false (stop_recorder r s)
  | None => s
  end.

(** The button of line 357: [recording ? stopRecording : startRecording]. *)
Definition click_record (s : RState) : RState :=
  if recording s then stopRecording s else startRecording s.

(** [ondataavailable] (line 245) of the recorder [r], with the data [c]. *)
Definition rec_data (r c : nat) (s : RState) : RState :=
  {| recording := recording s; conversationAudio := conversationAudio s;
     mediaRecorderRef := mediaRecorderRef s; userChunks := userChunks s ++ [Chunk c];
     recorders := <[r := StopQueued]> (recorders s); awaiting_mic := awaiting_mic s;
     pending_bots := pending_bots s; downloads := downloads s; unhandled := unhandled s |}.

(** [onstop] (lines 246-256): the user clip from the current chunk array,
    and the bot reply scheduled. *)
Definition rec_stop (r : nat) (s : RState) : RState :=
  {| recording := recording s;
     conversationAudio := conversationAudio s ++ [{| speaker_of := User; audio := userChunks s |}];
     mediaRecorderRef := mediaRecorderRef s; userChunks := userChunks s;
     recorders := <[r := Inactive]> (recorders s); awaiting_mic := awaiting_mic s;
     pending_bots := S (pending_bots s); downloads := downloads s; unhandled := unhandled s |}.

(** [simulateBotAudio] (lines 271-281), run by the timer. *)
Definition simulateBotAudio (s : RState) : RState :=
  {| recording := recording s;
     conversationAudio := conversationAudio s ++ [{| speaker_of := Bot; audio := [Bytes silent_wav] |}];
     mediaRecorderRef := mediaRecorderRef s; userChunks := userChunks s;
     recorders := recorders s; awaiting_mic := awaiting_mic s;
     pending_bots := pred (pending_bots s); downloads := downloads s; unhandled := unhandled s |}.

(** [downloadConversation] (lines 284-293): one blob of all the clips. *)
Definition downloadConversation (s : RState) : RState :=
  {| recording := recording s; conversationAudio := conversationAudio s;
     mediaRecorderRef := mediaRecorderRef s; userChunks := userChunks s;
     recorders := recorders s; awaiting_mic := awaiting_mic s;
     pending_bots := pending_bots s;
     downloads := downloads s ++ [List.concat (map audio (conversationAudio s))];
     unhandled := unhandled s |}.

(** [clearAll] of src/src/App.jsx (lines 172-183). *)
Definition clearAll (s : RState) : RState :=
  let s1 := match mediaRecorderRef s with
            | Some r => if recording s then stop_recorder r s else s
            | None => s
            end in
  {| recording := false; conversationAudio := []; mediaRecorderRef := None; userChunks := [];
     recorders := recorders s1; awaiting_mic := awaiting_mic s1;
     pending_bots := pending_bots s1; downloads := downloads s1; unhandled := unhandled s1 |}.

(** ** Events *)

Inductive event :=
| ClickRecord
| RecGranted
| RecDenied
| RecData (r c : nat)
| RecStop (r : nat)
| TimerFired
| ClickDownload
| ClickClear.

Definition handle (e : event) (s : RState) : RState :=
  match e with
  | ClickRecord => click_record s
  | RecGranted => rec_granted s
  | RecDenied => rec_denied s
  | RecData r c => rec_data r c s
  | RecStop r => rec_stop r s
  | TimerFired => simulateBotAudio s
  | ClickDownload => downloadConversation s
  | ClickClear => clearAll s
  end.

(** When the browser and the user can produce each event; the download
    button is disabled while [conversationAudio] is empty. *)
Definition enabled (e : event) (s : RState) : Prop :=
  match e with
  | RecGranted | RecDenied => 0 < awaiting_mic s
  | RecData r _ => recorders s !! r = Some DataQueued
  | RecStop r => recorders s !! r = Some StopQueued
  | TimerFired => 0 < pending_bots s
  | ClickDownload => conversationAudio s <> []
  | ClickRecord | ClickClear => True
  end.

Fixpoint run (es : list event) (s : RState) : RState :=
  match es with
  | [] => s
  | e :: rest => run rest (handle e s)
  end.

Fixpoint run_enabled (es : list event) (s : RState) : Prop :=
  match es with
  | [] => True
  | e :: rest => enabled e s /\ run_enabled rest (handle e s)
  end.

Inductive reachable : RState -> Prop :=
| reach_init : reachable initial
| reach_step s e : reachable s -> enabled e s -> reachable (handle e s).

(** ** Properties *)

Lemma stop_recorder_active r s :
  recorders s !! r = Some Active ->
  stop_recorder r s = set_recorders (<[r := DataQueued]> (recorders s)) s.
Proof. unfold stop_recorder. by intros ->. Qed.

Lemma stop_recorder_other r s :
  recorders s !! r <> Some Active -> stop_recorder r s = s.
Proof. unfold stop_recorder. destruct (recorders s !! r) as [[]|]; congruence. Qed.

Definition bot_clip : clip := {| speaker_of := Bot; audio := [Bytes silent_wav] |}.

Definition count_speaker (sp : speaker) (l : list clip) : nat :=
  length (filter (fun c => speaker_of c = sp) l).

Lemma count_speaker_snoc sp l c :
  count_speaker sp (l ++ [c]) =
    count_speaker sp l + (if decide (speaker_of c = sp) then 1 else 0).
Proof. unfold count_speaker. rewrite filter_app, length_app. cbn. by case_decide. Qed.

(** A recording from start to reply: Start, the grant, Stop, the
    recorder's [dataavailable] and [stop] events and the timer append
    the user clip made of the recorded data and then the bot reply, and
    leave the recorder inactive and the button back at "Start". *)
Theorem record_then_reply s c :
  recording s = false ->
  let s1 := handle RecGranted (handle ClickRecord s) in
  let r := fresh (dom (recorders s)) in
  let es := [ClickRecord; RecData r c; RecStop r; TimerFired] in
  mediaRecorderRef s1 = Some r /\ recording s1 = true /\
  run_enabled es s1 /\
  conversationAudio (run es s1) =
    conversationAudio s ++ [{| speaker_of := User; audio := [Chunk c] |}; bot_clip] /\
  recording (run es s1) = false /\ pending_bots (run es s1) = pending_bots s /\
  recorders (run es s1) !! r = Some Inactive.
Proof.
  intros Hr. cbv zeta.
  destruct s as [rec conv ref chunks recs aw pb dl un]; cbn in Hr; subst rec.
  cbn -[lookup insert fresh dom stop_recorder].
  rewrite stop_recorder_active by (cbn; apply lookup_insert_eq).
  cbn -[lookup insert fresh dom].
  rewrite !lookup_insert_eq, <- app_assoc. repeat split; lia.
Qed.

(** A recorder that is recording and that no ref names: nothing the page
    can do reaches it any more. *)
Definition leaked (r : nat) (s : RState) : Prop :=
  recorders s !! r = Some Active /\ mediaRecorderRef s <> Some r.

Lemma stop_recorder_leaked r r' s :
  leaked r s -> mediaRecorderRef s = Some r' -> leaked r (stop_recorder r' s).
Proof.
  intros [Ha Hn] Hr'. unfold stop_recorder.
  destruct (recorders s !! r') as [[]|]; try done.
  split; [|done]. cbn. rewrite lookup_insert_ne; [done|congruence].
Qed.

Lemma leaked_step e s r : enabled e s -> leaked r s -> leaked r (handle e s).
Proof.
  intros He Hl. pose proof Hl as [Ha Hn]. destruct e; cbn [handle enabled] in *.
  - unfold click_record, stopRecording. destruct (recording s); [|done].
    destruct (mediaRecorderRef s) eqn:E; [|done].
    destruct (stop_recorder_leaked r n s Hl E) as [Ha' Hn']. by split.
  - assert (Hf : fresh (dom (recorders s)) <> r).
    { intros <-. apply (is_fresh (dom (recorders s))), elem_of_dom. by eexists. }
    split; cbn; [by rewrite lookup_insert_ne|congruence].
  - done.
  - split; [|done]. cbn. rewrite lookup_insert_ne; [done|congruence].
  - split; [|done]. cbn. rewrite lookup_insert_ne; [done|congruence].
  - done.
  - done.
  - unfold clearAll. split; [|done]. cbn.
    destruct (mediaRecorderRef s) eqn:E; [|done]. destruct (recording s); [|done].
    by destruct (stop_recorder_leaked r n s Hl E).
Qed.

Lemma leaked_run es s r : run_enabled es s -> leaked r s -> leaked r (run es s).
Proof.
  revert s. induction es as [|e es IH]; intros s Hen Hl; [done|].
  destruct Hen as [He Hen]. cbn. apply IH; [done|]. by apply leaked_step.
Qed.

(** (C15) Two clicks on Start Recording before the microphone prompt is
    answered both call [getUserMedia]; when both are granted the first
    recorder is overwritten in [mediaRecorderRef] and keeps recording
    forever: no sequence of events the page can receive stops it. *)
Theorem double_start_leaks s :
  recording s = false ->
  let s' := run [ClickRecord; ClickRecord; RecGranted; RecGranted] s in
  run_enabled [ClickRecord; ClickRecord; RecGranted; RecGranted] s /\
  exists r, leaked r s' /\
    forall es, run_enabled es s' -> recorders (run es s') !! r = Some Active.
Proof.
  intros Hr. cbv zeta.
  destruct s as [rec conv ref chunks recs aw pb dl un]; cbn in Hr; subst rec.
  split; [cbn; lia|].
  set (r1 := fresh (dom recs)).
  assert (Hl : leaked r1 (run [ClickRecord; ClickRecord; RecGranted; RecGranted]
             {| recording := false; conversationAudio := conv; mediaRecorderRef := ref;
                userChunks := chunks; recorders := recs; awaiting_mic := aw;
                pending_bots := pb; downloads := dl; unhandled := un |})).
  { cbn -[lookup insert fresh dom]. fold r1.
    assert (Hne : fresh (dom (<[r1 := Active]> recs)) <> r1).
    { intros Heq. apply (is_fresh (dom (<[r1 := Active]> recs))). rewrite Heq.
      rewrite dom_insert_L. set_solver. }
    unfold leaked. cbn -[lookup insert fresh dom]. fold r1.
    split; [rewrite lookup_insert_ne by done; apply lookup_insert_eq|congruence]. }
  exists r1. split; [done|]. intros es Hen. by apply leaked_run.
Qed.

(** Every user clip is answered: as many user clips as bot clips and bot
    replies still to come. *)
Definition balanced (s : RState) : Prop :=
  count_speaker User (conversationAudio s) =
    count_speaker Bot (conversationAudio s) + pending_bots s.

Lemma balanced_step e s :
  e <> ClickClear -> enabled e s -> balanced s -> balanced (handle e s).
Proof.
  unfold balanced. intros Hc He Hb. destruct e; cbn [handle enabled] in *; try done.
  - unfold click_record, stopRecording, stop_recorder, set_recording, set_recorders.
    repeat case_match; done.
  - cbn [rec_stop conversationAudio pending_bots]. rewrite !count_speaker_snoc.
    cbn [speaker_of]. repeat case_decide; try congruence; lia.
  - cbn [simulateBotAudio conversationAudio pending_bots].
    rewrite !count_speaker_snoc. cbn [speaker_of]. repeat case_decide; try congruence; lia.
Qed.

(** (C38) Without Clear, the conversation stays answered: in every run
    from the initial state whose events are enabled and which does not
    press Clear, the user clips are as many as the bot clips plus the
    replies the timers still owe. *)
Theorem balanced_without_clear es :
  ClickClear ∉ es -> run_enabled es initial ->
  count_speaker User (conversationAudio (run es initial)) =
    count_speaker Bot (conversationAudio (run es initial)) + pending_bots (run es initial).
Proof.
  change (count_speaker User _ = _) with (balanced (run es initial)).
  assert (H0 : balanced initial) by done. revert H0. generalize initial.
  induction es as [|e es IH]; intros s Hb Hn Hen; [done|].
  apply not_elem_of_cons in Hn as [He Hn]. destruct Hen as [Hen1 Hen].
  cbn. apply IH; [|done|done]. by apply balanced_step.
Qed.

(** (C16) Clear does not stop a recording from landing: pressed while
    recording, it empties the conversation and stops the recorder, but
    the recorder's [dataavailable] and [stop] events then append the
    user clip (made of the data delivered after the clear) and the timer
    the bot reply. *)
Theorem clear_while_recording s r c :
  mediaRecorderRef s = Some r -> recording s = true -> recorders s !! r = Some Active ->
  let es := [ClickClear; RecData r c; RecStop r; TimerFired] in
  run_enabled es s /\
  conversationAudio (run es s) = [{| speaker_of := User; audio := [Chunk c] |}; bot_clip] /\
  recording (run es s) = false /\ mediaRecorderRef (run es s) = None.
Proof.
  intros Href Hrec Hact. cbv zeta.
  assert (Hc : clearAll s =
    {| recording := false; conversationAudio := []; mediaRecorderRef := None; userChunks := [];
       recorders := <[r := DataQueued]> (recorders s); awaiting_mic := awaiting_mic s;
       pending_bots := pending_bots s; downloads := downloads s; unhandled := unhandled s |}).
  { unfold clearAll. rewrite Href, Hrec, stop_recorder_active by done. done. }
  cbn [run run_enabled handle enabled]. rewrite Hc.
  cbn -[lookup insert]. rewrite !lookup_insert_eq. repeat split; lia.
Qed.

(** Clear while a bot reply is pending leaves a bot clip without
    the user clip it answered. *)
Theorem clear_orphans_bot s :
  0 < pending_bots s ->
  enabled TimerFired (clearAll s) /\
  conversationAudio (handle TimerFired (clearAll s)) = [bot_clip] /\
  count_speaker User (conversationAudio (handle TimerFired (clearAll s))) <
    count_speaker Bot (conversationAudio (handle TimerFired (clearAll s))).
Proof.
  intros Hp.
  assert (Hpb : pending_bots (clearAll s) = pending_bots s).
  { unfold clearAll. cbn [pending_bots].
    destruct (mediaRecorderRef s); [destruct (recording s)|]; try done.
    unfold stop_recorder. by repeat case_match. }
  split; [cbn [enabled]; lia|].
  assert (Hc : conversationAudio (handle TimerFired (clearAll s)) = [bot_clip]) by done.
  rewrite Hc. split; [done|]. vm_compute. lia.
Qed.

(** (C39) Every bot reply the timers owe is eventually appended: the
    timer events are enabled until all have fired, and then the
    conversation has gained exactly that many bot clips, in order. *)
Theorem bot_replies_eventually s :
  let n := pending_bots s in
  run_enabled (repeat TimerFired n) s /\
  pending_bots (run (repeat TimerFired n) s) = 0 /\
  conversationAudio (run (repeat TimerFired n) s) = conversationAudio s ++ repeat bot_clip n.
Proof.
  cbv zeta. remember (pending_bots s) as n eqn:En. revert s En.
  induction n as [|n IH]; intros s En; [cbn; by rewrite app_nil_r|].
  destruct (IH (simulateBotAudio s)) as (H1 & H2 & H3); [cbn; lia|].
  cbn [run run_enabled repeat handle enabled]. split; [split; [lia|done]|].
  split; [done|]. rewrite H3. cbn. by rewrite <- app_assoc.
Qed.

(** ** Witnesses *)

(** Recording, after Start Recording and the grant. *)
Definition demo_recording : RState := run [ClickRecord; RecGranted] initial.

(** Stopped, with the bot reply still owed. *)
Definition demo_waiting : RState :=
  run [ClickRecord; RecGranted; ClickRecord; RecData 0 7; RecStop 0] initial.

Lemma record_then_reply_witness :
  recording initial = false /\
  let s1 := handle RecGranted (handle ClickRecord initial) in
  let r := fresh (dom (recorders initial)) in
  let es := [ClickRecord; RecData r 7; RecStop r; TimerFired] in
  mediaRecorderRef s1 = Some r /\ recording s1 = true /\
  run_enabled es s1 /\
  conversationAudio (run es s1) =
    conversationAudio initial ++ [{| speaker_of := User; audio := [Chunk 7] |}; bot_clip] /\
  recording (run es s1) = false /\ pending_bots (run es s1) = pending_bots initial /\
  recorders (run es s1) !! r = Some Inactive.
Proof.
  assert (H : recording initial = false) by reflexivity.
  split; [exact H | exact (record_then_reply initial 7 H)].
Defined.

Lemma double_start_leaks_witness :
  recording initial = false /\
  let s' := run [ClickRecord; ClickRecord; RecGranted; RecGranted] initial in
  run_enabled [ClickRecord; ClickRecord; RecGranted; RecGranted] initial /\
  exists r, leaked r s' /\
    forall es, run_enabled es s' -> recorders (run es s') !! r = Some Active.
Proof.
  assert (H : recording initial = false) by reflexivity.
  split; [exact H | exact (double_start_leaks initial H)].
Defined.

Lemma balanced_without_clear_witness :
  let es := [ClickRecord; RecGranted; ClickRecord; RecData 0 7; RecStop 0] in
  (ClickClear ∉ es) /\ run_enabled es initial /\
  count_speaker User (conversationAudio (run es initial)) =
    count_speaker Bot (conversationAudio (run es initial)) + pending_bots (run es initial).
Proof.
  cbv zeta.
  assert (H1 : ClickClear ∉ [ClickRecord; RecGranted; ClickRecord; RecData 0 7; RecStop 0])
    by (intros Hin; repeat (apply elem_of_cons in Hin as [Hin|Hin]; [discriminate|]);
        by apply elem_of_nil in Hin).
  assert (H2 : run_enabled [ClickRecord; RecGranted; ClickRecord; RecData 0 7; RecStop 0] initial)
    by (vm_compute; repeat split; lia).
  split; [exact H1|]. split; [exact H2|]. exact (balanced_without_clear _ H1 H2).
Defined.

Lemma clear_while_recording_witness :
  mediaRecorderRef demo_recording = Some 0 /\ recording demo_recording = true /\
  recorders demo_recording !! 0 = Some Active /\
  let es := [ClickClear; RecData 0 7; RecStop 0; TimerFired] in
  run_enabled es demo_recording /\
  conversationAudio (run es demo_recording) = [{| speaker_of := User; audio := [Chunk 7] |}; bot_clip] /\
  recording (run es demo_recording) = false /\ mediaRecorderRef (run es demo_recording) = None.
Proof.
  assert (H1 : mediaRecorderRef demo_recording = Some 0) by reflexivity.
  assert (H2 : recording demo_recording = true) by reflexivity.
  assert (H3 : recorders demo_recording !! 0 = Some Active) by reflexivity.
  split; [exact H1|]. split; [exact H2|]. split; [exact H3|].
  exact (clear_while_recording demo_recording 0 7 H1 H2 H3).
Defined.

Lemma clear_orphans_bot_witness :
  0 < pending_bots demo_waiting /\
  enabled TimerFired (clearAll demo_waiting) /\
  conversationAudio (handle TimerFired (clearAll demo_waiting)) = [bot_clip] /\
  count_speaker User (conversationAudio (handle TimerFired (clearAll demo_waiting))) <
    count_speaker Bot (conversationAudio (handle TimerFired (clearAll demo_waiting))).
Proof.
  assert (H : 0 < pending_bots demo_waiting) by (vm_compute; lia).
  split; [exact H | exact (clear_orphans_bot demo_waiting H)].
Defined.

End Recording.
