(* ===== verification/Session.v ===== *)
(** * Session: the component's connection lifecycle and event handlers

    The component [App] (src/src/App.jsx; src/poc2.jsx is the earlier
    copy) wires the pieces together:

    - [startFlow] (lines 68-158) checks the token, opens a WebSocket and
      sets its [onopen], [onmessage], [onclose] and [onerror] handlers;
    - [onopen] sends the [StartConversation] control message, then awaits
      the microphone ([getUserMedia]) and the worklet module
      ([audioWorklet.addModule]), and connects microphone -> worklet ->
      output, the worklet's [port.onmessage] sending each PCM block on the
      socket while it is open;
    - [onmessage] dispatches text frames to the correlator
      ([Transcript.on_text]) and binary frames to the message log and to
      [Playback.playAudioChunk];
    - [stopFlow] (lines 161-170) is the teardown run by the Stop button
      and by [onclose] and [onerror].

    [App] is the whole state the handlers touch: the committed React state
    ([token], [playbackSpeed]; the transcript's [promptPairs] and
    [messages] are in [transcript]), the refs ([wsRef], [micStreamRef],
    [workletNodeRef], [sourceRef], and in [play] and [transcript] the refs
    [audioCtxRef], [nextPlayTimeRef], [lastPromptRef]), and the browser
    objects the refs point to, each in a store indexed by an id (sockets,
    microphone streams, audio nodes; audio contexts are in [play]): an
    object is shared between a ref and the closures that captured it, and
    [stopFlow] mutates it in place.  Each socket records the
    [playbackSpeed] its handlers captured when [startFlow] ran: React
    recreates [playAudioChunk] on every render, but the socket keeps the
    one of the render that created it.

    The browser delivers events one at a time; [handle] is the handler
    of each, and [step] the transitions the browser and the user can
    take. *)

From stdpp Require Import base list gmap fin_maps strings.
From Stdlib Require Import QArith Qminmax ZArith Lia Lqa String Ascii DecimalString.
From S2P Require Import Prelude Json FrameCodec Playback Transcript.

Import Js.

Module Session.

Local Open Scope string_scope.
Local Open Scope list_scope.

(** ** Browser objects *)

(** [WebSocket.readyState]. *)
Inductive ready_state := CONNECTING | OPEN | CLOSING | CLOSED.

#[export] Instance ready_state_eq_dec : EqDecision ready_state.
Proof. solve_decision. Defined.

(** What [ws.send] put on the wire: [JSON.stringify(v)] of an object,
    or the bytes of an [ArrayBuffer]. *)
Inductive outbound :=
| OutJson (v : jsval)
| OutBinary (bytes : list Z).

Record socket := {
  ws_ready : ready_state;
  ws_speed : Q;               (** [playbackSpeed] seen by this socket's handlers *)
  ws_sent : list outbound
}.

(** A microphone [MediaStream]: whether its tracks were stopped. *)
Record mic_stream := { tracks_stopped : bool }.

(** An audio node: the worklet node, whose [port.onmessage] sends on the
    socket [sid] it captured, or the microphone source node. *)
Inductive node_kind := WorkletNode (sid : nat) | StreamSource (stream : nat).

Record node := {
  node_kind_of : node_kind;
  node_ctx : nat;
  node_connected : bool
}.

(** Side effects visible outside the state: [alert(...)] and a promise
    rejected with no handler. *)
Inductive effect :=
| Alert (msg : string)
| UnhandledRejection (e : exn)
| UncaughtException (e : exn).

(** A continuation of [onopen] waiting on a promise: the socket of the
    handler, and for the module load the stream and context it holds in
    its local variables. *)
Inductive awaiting :=
| AwaitMic (sid : nat)
| AwaitModule (sid : nat) (stream : nat) (ctx : nat).

#[export] Instance awaiting_eq_dec : EqDecision awaiting.
Proof. solve_decision. Defined.

(** The continuation [w] has run. *)
Definition remove_await (w : awaiting) (l : list awaiting) : list awaiting :=
  filter (fun x => x <> w) l.

Record App := {
  token : jsval;                  (** a string, unless [fetchToken] stored another value *)
  playbackSpeed : Q;
  wsRef : option nat;
  micStreamRef : option nat;
  workletNodeRef : option nat;
  sourceRef : option nat;
  play : Playback.PlayState;
  transcript : Transcript.TState;
  sockets : gmap nat socket;
  streams : gmap nat mic_stream;
  nodes : gmap nat node;
  awaiting_list : list awaiting;
  effects : list effect;
  now : Q
}.

(** The initial render: [useState('')], [useState(1)], refs [null]. *)
Definition initial : App :=
  {| token := JStr ""; playbackSpeed := 1; wsRef := None; micStreamRef := None;
     workletNodeRef := None; sourceRef := None; play := Playback.initial;
     transcript := Transcript.initial; sockets := ∅; streams := ∅; nodes := ∅;
     awaiting_list := []; effects := []; now := 0 |}.

(** ** Field updates *)

Definition set_token (v : jsval) (a : App) : App :=
  {| token := v; playbackSpeed := playbackSpeed a; wsRef := wsRef a;
     micStreamRef := micStreamRef a; workletNodeRef := workletNodeRef a;
     sourceRef := sourceRef a; play := play a; transcript := transcript a;
     sockets := sockets a; streams := streams a; nodes := nodes a;
     awaiting_list := awaiting_list a; effects := effects a; now := now a  |}.

Definition set_playbackSpeed (v : Q) (a : App) : App :=
  {| token := token a; playbackSpeed := v; wsRef := wsRef a;
     micStreamRef := micStreamRef a; workletNodeRef := workletNodeRef a;
     sourceRef := sourceRef a; play := play a; transcript := transcript a;
     sockets := sockets a; streams := streams a; nodes := nodes a;
     awaiting_list := awaiting_list a; effects := effects a; now := now a  |}.

Definition set_wsRef (v : option nat) (a : App) : App :=
  {| token := token a; playbackSpeed := playbackSpeed a; wsRef := v;
     micStreamRef := micStreamRef a; workletNodeRef := workletNodeRef a;
     sourceRef := sourceRef a; play := play a; transcript := transcript a;
     sockets := sockets a; streams := streams a; nodes := nodes a;
     awaiting_list := awaiting_list a; effects := effects a; now := now a  |}.

Definition set_micStreamRef (v : option nat) (a : App) : App :=
  {| token := token a; playbackSpeed := playbackSpeed a; wsRef := wsRef a;
     micStreamRef := v; workletNodeRef := workletNodeRef a; sourceRef := sourceRef a;
     play := play a; transcript := transcript a; sockets := sockets a;
     streams := streams a; nodes := nodes a; awaiting_list := awaiting_list a;
     effects := effects a; now := now a  |}.

Definition set_workletNodeRef (v : option nat) (a : App) : App :=
  {| token := token a; playbackSpeed := playbackSpeed a; wsRef := wsRef a;
     micStreamRef := micStreamRef a; workletNodeRef := v; sourceRef := sourceRef a;
     play := play a; transcript := transcript a; sockets := sockets a;
     streams := streams a; nodes := nodes a; awaiting_list := awaiting_list a;
     effects := effects a; now := now a  |}.

Definition set_sourceRef (v : option nat) (a : App) : App :=
  {| token := token a; playbackSpeed := playbackSpeed a; wsRef := wsRef a;
     micStreamRef := micStreamRef a; workletNodeRef := workletNodeRef a;
     sourceRef := v; play := play a; transcript := transcript a; sockets := sockets a;
     streams := streams a; nodes := nodes a; awaiting_list := awaiting_list a;
     effects := effects a; now := now a  |}.

Definition set_play (v : Playback.PlayState) (a : App) : App :=
  {| token := token a; playbackSpeed := playbackSpeed a; wsRef := wsRef a;
     micStreamRef := micStreamRef a; workletNodeRef := workletNodeRef a;
     sourceRef := sourceRef a; play := v; transcript := transcript a;
     sockets := sockets a; streams := streams a; nodes := nodes a;
     awaiting_list := awaiting_list a; effects := effects a; now := now a  |}.

Definition set_transcript (v : Transcript.TState) (a : App) : App :=
  {| token := token a; playbackSpeed := playbackSpeed a; wsRef := wsRef a;
     micStreamRef := micStreamRef a; workletNodeRef := workletNodeRef a;
     sourceRef := sourceRef a; play := play a; transcript := v; sockets := sockets a;
     streams := streams a; nodes := nodes a; awaiting_list := awaiting_list a;
     effects := effects a; now := now a  |}.

Definition set_sockets (v : gmap nat socket) (a : App) : App :=
  {| token := token a; playbackSpeed := playbackSpeed a; wsRef := wsRef a;
     micStreamRef := micStreamRef a; workletNodeRef := workletNodeRef a;
     sourceRef := sourceRef a; play := play a; transcript := transcript a;
     sockets := v; streams := streams a; nodes := nodes a;
     awaiting_list := awaiting_list a; effects := effects a; now := now a  |}.

Definition set_streams (v : gmap nat mic_stream) (a : App) : App :=
  {| token := token a; playbackSpeed := playbackSpeed a; wsRef := wsRef a;
     micStreamRef := micStreamRef a; workletNodeRef := workletNodeRef a;
     sourceRef := sourceRef a; play := play a; transcript := transcript a;
     sockets := sockets a; streams := v; nodes := nodes a;
     awaiting_list := awaiting_list a; effects := effects a; now := now a  |}.

Definition set_nodes (v : gmap nat node) (a : App) : App :=
  {| token := token a; playbackSpeed := playbackSpeed a; wsRef := wsRef a;
     micStreamRef := micStreamRef a; workletNodeRef := workletNodeRef a;
     sourceRef := sourceRef a; play := play a; transcript := transcript a;
     sockets := sockets a; streams := streams a; nodes := v;
     awaiting_list := awaiting_list a; effects := effects a; now := now a  |}.

Definition set_awaiting_list (v : list awaiting) (a : App) : App :=
  {| token := token a; playbackSpeed := playbackSpeed a; wsRef := wsRef a;
     micStreamRef := micStreamRef a; workletNodeRef := workletNodeRef a;
     sourceRef := sourceRef a; play := play a; transcript := transcript a;
     sockets := sockets a; streams := streams a; nodes := nodes a; awaiting_list := v;
     effects := effects a; now := now a  |}.

Definition set_effects (v : list effect) (a : App) : App :=
  {| token := token a; playbackSpeed := playbackSpeed a; wsRef := wsRef a;
     micStreamRef := micStreamRef a; workletNodeRef := workletNodeRef a;
     sourceRef := sourceRef a; play := play a; transcript := transcript a;
     sockets := sockets a; streams := streams a; nodes := nodes a;
     awaiting_list := awaiting_list a; effects := v; now := now a  |}.

Definition set_now (v : Q) (a : App) : App :=
  {| token := token a; playbackSpeed := playbackSpeed a; wsRef := wsRef a;
     micStreamRef := micStreamRef a; workletNodeRef := workletNodeRef a;
     sourceRef := sourceRef a; play := play a; transcript := transcript a;
     sockets := sockets a; streams := streams a; nodes := nodes a;
     awaiting_list := awaiting_list a; effects := effects a; now := v  |}.

Definition add_effect (e : effect) (a : App) : App := set_effects (effects a ++ [e]) a.

(** ** Lenses on the components' states *)

Lemma set_play_view a : set_play (play a) a = a.
Proof. by destruct a. Qed.

Lemma set_transcript_view a : set_transcript (transcript a) a = a.
Proof. by destruct a. Qed.

Definition play_lens : lens App Playback.PlayState :=
  {| view := play; update := set_play;
     view_update := fun _ _ => eq_refl; update_view := set_play_view;
     update_update := fun _ _ _ => eq_refl |}.

Definition transcript_lens : lens App Transcript.TState :=
  {| view := transcript; update := set_transcript;
     view_update := fun _ _ => eq_refl; update_view := set_transcript_view;
     update_update := fun _ _ _ => eq_refl |}.

(** ** [token.trim()] *)

(** The characters [String.prototype.trim] strips among the code units
    below 256: the white space and line terminators tab, line feed,
    vertical tab, form feed, carriage return, space, and U+00A0 (no-break
    space); the other Unicode spaces are above 255. *)
Definition js_space (c : ascii) : bool :=
  let n := nat_of_ascii c in
  (n =? 32)%nat || ((9 <=? n)%nat && (n <=? 13)%nat) || (n =? 160)%nat.

Fixpoint drop_spaces (l : list ascii) : list ascii :=
  match l with
  | [] => []
  | c :: r => if js_space c then drop_spaces r else l
  end.

Definition trim (s : string) : string :=
  string_of_list_ascii (rev (drop_spaces (rev (drop_spaces (list_ascii_of_string s))))).

(** ** The wire protocol *)

(** The object passed to [JSON.stringify] in lines 79-89. *)
Definition start_conversation_msg : jsval :=
  JObj [("message", JStr "StartConversation");
        ("audio_format", JObj [("type", JStr "raw"); ("encoding", JStr "pcm_s16le");
                               ("sample_rate", JNum 16000)]);
        ("conversation_config",
           JObj [("template_id", JStr "3668c60a-1c08-4670-81e9-97e12e5a4149:latest")])].

(** ** [stopFlow] (lines 161-170) *)

Definition disconnect (nd : node) : node :=
  {| node_kind_of := node_kind_of nd; node_ctx := node_ctx nd; node_connected := false |}.

(** [if (r.current) r.current.disconnect()]. *)
Definition disconnect_ref (r : option nat) (a : App) : App :=
  match r with
  | Some n => set_nodes (alter disconnect n (nodes a)) a
  | None => a
  end.

(** [micStreamRef.current.getTracks().forEach(track => track.stop())]. *)
Definition stop_tracks (r : option nat) (a : App) : App :=
  match r with
  | Some m => set_streams (alter (fun _ => {| tracks_stopped := true |}) m (streams a)) a
  | None => a
  end.

Definition with_contexts (cs : gmap nat Playback.audio_ctx) (ps : Playback.PlayState) : Playback.PlayState :=
  {| Playback.audioCtxRef := Playback.audioCtxRef ps;
     Playback.nextPlayTimeRef := Playback.nextPlayTimeRef ps;
     Playback.contexts := cs; Playback.sources := Playback.sources ps |}.

Definition with_cursor (t : Q) (ps : Playback.PlayState) : Playback.PlayState :=
  {| Playback.audioCtxRef := Playback.audioCtxRef ps; Playback.nextPlayTimeRef := t;
     Playback.contexts := Playback.contexts ps; Playback.sources := Playback.sources ps |}.

(** [audioCtxRef.current.close()]: a running context stops its clock;
    closing a closed context returns a promise rejected with
    [InvalidStateError], which nothing handles. *)
Definition close_ctx (r : option nat) (a : App) : App :=
  match r with
  | None => a
  | Some c =>
      match Playback.contexts (play a) !! c with
      | None => a
      | Some ctx =>
          match Playback.ctx_closed_at ctx with
          | None =>
              set_play (with_contexts
                (<[c := {| Playback.ctx_created := Playback.ctx_created ctx;
                           Playback.ctx_closed_at := Some (now a) |}]> (Playback.contexts (play a)))
                (play a)) a
          | Some _ => add_effect (UnhandledRejection InvalidStateError) a
          end
      end
  end.

(** [wsRef.current.close()]: a connecting or open socket starts closing;
    a closing or closed one is left as it is. *)
Definition close_socket (ws : socket) : socket :=
  {| ws_ready := match ws_ready ws with
                 | CONNECTING | OPEN => CLOSING
                 | r => r
                 end;
     ws_speed := ws_speed ws; ws_sent := ws_sent ws |}.

Definition close_ws (r : option nat) (a : App) : App :=
  match r with
  | Some sid => set_sockets (alter close_socket sid (sockets a)) a
  | None => a
  end.

Definition stopFlow (a : App) : App :=
  let a1 := disconnect_ref (workletNodeRef a) a in
  let a2 := disconnect_ref (sourceRef a1) a1 in
  let a3 := stop_tracks (micStreamRef a2) a2 in
  let a4 := close_ctx (Playback.audioCtxRef (play a3)) a3 in
  let a5 := close_ws (wsRef a4) a4 in
  set_play (with_cursor 0 (play a5)) a5.

(** ** [startFlow] (lines 68-76, 156-157) *)

(** [new WebSocket(url)]: a fresh connecting socket whose handlers see
    the [playbackSpeed] of the current render.  [token.trim()] is a
    string's method: on any other value the call throws a [TypeError],
    which rejects the promise of the [async] handler, and nobody awaits
    it. *)
Definition startFlow (a : App) : App :=
  match token a with
  | JStr t =>
      if decide (trim t = "") then add_effect (Alert "Please enter a JWT token.") a
      else
        let sid := fresh (dom (sockets a)) in
        set_wsRef (Some sid)
          (set_sockets (<[sid := {| ws_ready := CONNECTING; ws_speed := playbackSpeed a;
                                    ws_sent := [] |}]> (sockets a)) a)
  | _ => add_effect (UnhandledRejection TypeError) a
  end.

(** ** [ws.onopen] (lines 78-111) *)

(** [ws.send(data)] on the socket [sid]. *)
Definition send (sid : nat) (o : outbound) (a : App) : App :=
  set_sockets (alter (fun ws => {| ws_ready := ws_ready ws; ws_speed := ws_speed ws;
                                   ws_sent := ws_sent ws ++ [o] |}) sid (sockets a)) a.

Definition set_ready (sid : nat) (r : ready_state) (a : App) : App :=
  set_sockets (alter (fun ws => {| ws_ready := r; ws_speed := ws_speed ws;
                                   ws_sent := ws_sent ws |}) sid (sockets a)) a.

(** The socket opens; its handler sends the control message and awaits
    [getUserMedia]. *)
Definition on_open (sid : nat) (a : App) : App :=
  let a1 := send sid (OutJson start_conversation_msg) (set_ready sid OPEN a) in
  set_awaiting_list (awaiting_list a1 ++ [AwaitMic sid]) a1.

(** [getUserMedia] resolved (lines 92-96): the stream and a new context
    are stored in the refs, and [addModule] is awaited.  The cursor is
    not reset. *)
Definition mic_granted (sid : nat) (a : App) : App :=
  let m := fresh (dom (streams a)) in
  let a1 := set_streams (<[m := {| tracks_stopped := false |}]> (streams a)) a in
  let a2 := set_micStreamRef (Some m) a1 in
  let '(c, ps) := Playback.create_context (now a2) (play a2) in
  let a3 := set_play ps a2 in
  set_awaiting_list (remove_await (AwaitMic sid) (awaiting_list a3) ++ [AwaitModule sid m c]) a3.

(** The [catch] of lines 108-110 after a rejected [getUserMedia]. *)
Definition mic_denied (sid : nat) (msg : string) (a : App) : App :=
  add_effect (Alert (String.append "Error accessing microphone: " msg))
    (set_awaiting_list (remove_await (AwaitMic sid) (awaiting_list a)) a).

(** [addModule] resolved (lines 97-107): the worklet node of the
    context [c], whose port sends on the socket [sid], and the microphone
    source node, connected source -> worklet -> output. *)
Definition module_loaded (sid m c : nat) (a : App) : App :=
  let w := fresh (dom (nodes a)) in
  let a1 := set_nodes (<[w := {| node_kind_of := WorkletNode sid; node_ctx := c;
                                 node_connected := true |}]> (nodes a)) a in
  let a2 := set_workletNodeRef (Some w) a1 in
  let src := fresh (dom (nodes a2)) in
  let a3 := set_nodes (<[src := {| node_kind_of := StreamSource m; node_ctx := c;
                                   node_connected := true |}]> (nodes a2)) a2 in
  let a4 := set_sourceRef (Some src) a3 in
  set_awaiting_list (remove_await (AwaitModule sid m c) (awaiting_list a4)) a4.

(** The [catch] after a rejected [addModule]: the stream and the context
    stay in their refs. *)
Definition module_failed (sid m c : nat) (msg : string) (a : App) : App :=
  add_effect (Alert (String.append "Error accessing microphone: " msg))
    (set_awaiting_list (remove_await (AwaitModule sid m c) (awaiting_list a)) a).

(** [workletNode.port.onmessage] (lines 100-104) for a block the worklet
    processed: sent on the captured socket only while it is open. *)
Definition worklet_frame (n : nat) (input : option (list Q)) (a : App) : App :=
  match nodes a !! n with
  | Some {| node_kind_of := WorkletNode sid |} =>
      match fst (FrameCodec.process input) with
      | Some bytes =>
          match sockets a !! sid with
          | Some ws => if decide (ws_ready ws = OPEN) then send sid (OutBinary bytes) a else a
          | None => a
          end
      | None => a
      end
  | _ => a
  end.

(** ** [ws.onmessage] (lines 113-154) *)

Inductive ws_data :=
| Text (raw : string)
| Binary (bytes : list Z).

Definition show_byte (b : Z) : string := NilZero.string_of_uint (Nat.to_uint (Z.to_nat b)).

Fixpoint join (sep : string) (l : list string) : string :=
  match l with
  | [] => ""
  | [x] => x
  | x :: r => String.append x (String.append sep (join sep r))
  end.

(** The log entry of a binary frame: its first 16 bytes. *)
Definition preview (bytes : list Z) : string :=
  String.append "[Binary message received] First bytes: "
    (join ", " (map show_byte (firstn 16 bytes))).

Section Handlers.
Context {JP : JsonParse}.

  (** The handler of the socket [sid]: the shared refs, the speed its
      closure captured.  An exception of [playAudioChunk] escapes the
      handler. *)
Definition on_message (sid : nat) (d : ws_data) (a : App) : App :=
    match sockets a !! sid with
    | None => a
    | Some ws =>
        match d with
        | Text raw => exec (zoom transcript_lens (Transcript.on_text raw)) a
        | Binary bytes =>
            let a1 := exec (zoom transcript_lens (Transcript.set_messages_append (preview bytes))) a in
            let '(a2, r) := zoom play_lens (Playback.playAudioChunk (ws_speed ws) (now a1) bytes) a1 in
            match r with
            | Normal _ => a2
            | Thrown e => add_effect (UncaughtException e) a2
            end
        end
    end.

  (** ** Events and transitions *)

Inductive event :=
  | SetToken (s : string)
  | SetSpeed (q : Q)
  | ClickStart
  | ClickStop
  | WsOpen (sid : nat)
  | WsMessage (sid : nat) (d : ws_data)
  | WsClose (sid : nat)
  | WsError (sid : nat)
  | MicGranted (sid : nat)
  | MicDenied (sid : nat) (msg : string)
  | ModuleLoaded (sid m c : nat)
  | ModuleFailed (sid m c : nat) (msg : string)
  | WorkletFrame (n : nat) (input : option (list Q))
  | SourceEnded (i : nat)
  | Render
  | Tick (dt : Q).

Definition handle (e : event) (a : App) : App :=
    match e with
    | SetToken s => set_token (JStr s) a
    | SetSpeed q => set_playbackSpeed q a
    | ClickStart => startFlow a
    | ClickStop => stopFlow a
    | WsOpen sid => on_open sid a
    | WsMessage sid d => on_message sid d a
    | WsClose sid => stopFlow (set_ready sid CLOSED a)
    | WsError _ => stopFlow a
    | MicGranted sid => mic_granted sid a
    | MicDenied sid msg => mic_denied sid msg a
    | ModuleLoaded sid m c => module_loaded sid m c a
    | ModuleFailed sid m c msg => module_failed sid m c msg a
    | WorkletFrame n input => worklet_frame n input a
    | SourceEnded i => set_play (Playback.on_ended i (play a)) a
    | Render => set_transcript (Transcript.render (transcript a)) a
    | Tick dt => set_now (now a + dt) a
    end.

Definition socket_in (a : App) (sid : nat) (P : ready_state -> Prop) : Prop :=
    exists ws, sockets a !! sid = Some ws /\ P (ws_ready ws).

  (** When the browser or the user can produce each event. *)
Definition enabled (e : event) (a : App) : Prop :=
    match e with
    | SetSpeed q => 1 # 2 <= q <= 2
    | WsOpen sid => socket_in a sid (fun r => r = CONNECTING)
    | WsMessage sid _ => socket_in a sid (fun r => r = OPEN \/ r = CLOSING)
    | WsClose sid | WsError sid => socket_in a sid (fun r => r <> CLOSED)
    | MicGranted sid | MicDenied sid _ => AwaitMic sid ∈ awaiting_list a
    | ModuleLoaded sid m c | ModuleFailed sid m c _ => AwaitModule sid m c ∈ awaiting_list a
    | WorkletFrame n _ =>
        exists nd ctx, nodes a !! n = Some nd /\ node_connected nd = true /\
          Playback.contexts (play a) !! node_ctx nd = Some ctx /\
          Playback.ctx_closed_at ctx = None
    | SourceEnded i => (i < List.length (Playback.sources (play a)))%nat
    | Tick dt => 0 <= dt
    | _ => True
    end.

Inductive step : App -> event -> App -> Prop :=
  | step_intro a e : enabled e a -> step a e (handle e a).

Inductive reachable : App -> Prop :=
  | reach_init : reachable initial
  | reach_step a e : reachable a -> enabled e a -> reachable (handle e a).

  (** A run of events from a state, each enabled where it happens. *)
Fixpoint run (es : list event) (a : App) : App :=
    match es with
    | [] => a
    | e :: rest => run rest (handle e a)
    end.
End Handlers.

(** ** Effects of the handlers on each part of the state *)

Lemma zoom_play_exec {A} (m : JS Playback.PlayState A) a :
  zoom play_lens m a = (set_play (fst (m (play a))) a, snd (m (play a))).
Proof. unfold zoom. cbn. by destruct (m (play a)). Qed.

Lemma zoom_transcript_exec {A} (m : JS Transcript.TState A) a :
  zoom transcript_lens m a = (set_transcript (fst (m (transcript a))) a, snd (m (transcript a))).
Proof. unfold zoom. cbn. by destruct (m (transcript a)). Qed.

(** The binary branch of [onmessage]: the log entry, then the frame
    played with the socket's speed. *)
Lemma on_message_binary {JP : JsonParse} sid ws bytes a :
  sockets a !! sid = Some ws ->
  on_message sid (Binary bytes) a =
    let a1 := set_transcript (Transcript.enqueue (Transcript.AppendMessage (preview bytes))
                                                 (transcript a)) a in
    let '(ps, r) := Playback.playAudioChunk (ws_speed ws) (now a) bytes (play a) in
    match r with
    | Normal _ => set_play ps a1
    | Thrown e => add_effect (UncaughtException e) (set_play ps a1)
    end.
Proof.
  intros H. unfold on_message. rewrite H, zoom_play_exec. cbn.
  by destruct (Playback.playAudioChunk _ _ _ _) as [ps []].
Qed.

(** ** Properties of the session *)

(** (C9) The playback speed is the one of the render that ran
    [startFlow]: a frame received on a socket after the speed slider has
    moved to [q] is still scheduled with the speed the socket's handlers
    captured, whatever [q] is. *)
Theorem speed_change_ignored {JP : JsonParse} a sid ws q bytes :
  sockets a !! sid = Some ws ->
  Playback.ref_ok (play a) -> FrameCodec.decode bytes <> [] ->
  exists src,
    Playback.sources (play (handle (WsMessage sid (Binary bytes)) (handle (SetSpeed q) a))) =
      Playback.sources (play a) ++ [src] /\
    Playback.src_rate src = ws_speed ws /\
    playbackSpeed (handle (WsMessage sid (Binary bytes)) (handle (SetSpeed q) a)) = q.
Proof.
  intros Hs Hr Hb. cbn [handle].
  rewrite (on_message_binary sid ws) by done. cbn.
  destruct (Playback.playAudioChunk_spec (ws_speed ws) (now a) bytes (play a) Hr Hb)
    as (id & c & src & _ & _ & Hp & _ & _ & _ & Hrate).
  rewrite Hp. cbn. by exists src.
Qed.


(** A token that is not a string has no [trim] method: the handler's
    promise rejects with a [TypeError] before any I/O. *)
Lemma startFlow_nonstring a :
  (forall t, token a <> JStr t) -> startFlow a = add_effect (UnhandledRejection TypeError) a.
Proof. intros H. unfold startFlow. destruct (token a); try done. by destruct (H s). Qed.

(** (C36) A blank token (empty or only white space) is refused before
    any I/O: [startFlow] raises the alert and changes nothing else. *)
Theorem start_blank_token a t :
  token a = JStr t -> trim t = "" ->
  startFlow a = add_effect (Alert "Please enter a JWT token.") a.
Proof. intros Htok Ht. unfold startFlow. rewrite Htok. by rewrite decide_True. Qed.

(** A PCM block processed while the worklet's socket is not open
    is dropped: nothing is sent and nothing is queued. *)
Theorem frame_dropped_unless_open n sid nd input ws a :
  nodes a !! n = Some nd -> node_kind_of nd = WorkletNode sid ->
  sockets a !! sid = Some ws -> ws_ready ws <> OPEN ->
  worklet_frame n input a = a.
Proof.
  intros Hn Hk Hs Hr. unfold worklet_frame. rewrite Hn. destruct nd; cbn in Hk; subst.
  destruct (fst (FrameCodec.process input)); [|done].
  rewrite Hs. by rewrite decide_False.
Qed.

(** A block processed while the socket is open is sent on it. *)
Lemma frame_sent_if_open n sid c xs ws a :
  nodes a !! n = Some {| node_kind_of := WorkletNode sid; node_ctx := c; node_connected := true |} ->
  sockets a !! sid = Some ws -> ws_ready ws = OPEN ->
  worklet_frame n (Some xs) a = send sid (OutBinary (FrameCodec.encode_frame xs)) a.
Proof.
  intros Hn Hs Hr. unfold worklet_frame. rewrite Hn. cbn. rewrite Hs. by rewrite decide_True.
Qed.

(** ** Teardown *)

Lemma alter_idem {A} (f : A -> A) i (m : gmap nat A) :
  (forall x, f (f x) = f x) -> alter f i (alter f i m) = alter f i m.
Proof.
  intros Hf. apply map_eq. intros j. rewrite !lookup_alter.
  repeat case_decide; subst; try done; destruct (m !! _); simpl; by rewrite ?Hf.
Qed.

Lemma alter2_idem {A} (f : A -> A) i j (m : gmap nat A) :
  (forall x, f (f x) = f x) ->
  alter f j (alter f i (alter f j (alter f i m))) = alter f j (alter f i m).
Proof.
  intros Hf. apply map_eq. intros k. rewrite !lookup_alter.
  repeat case_decide; subst; try done; destruct (m !! _); simpl; by rewrite ?Hf.
Qed.

Lemma disconnect_idem nd : disconnect (disconnect nd) = disconnect nd.
Proof. done. Qed.

Lemma close_socket_idem ws : close_socket (close_socket ws) = close_socket ws.
Proof. by destruct ws as [[] ? ?]. Qed.

(** The teardown's effect on each part of the state. *)
Definition disc_opt (r : option nat) (m : gmap nat node) : gmap nat node :=
  match r with Some n => alter disconnect n m | None => m end.

Definition stop_opt (r : option nat) (m : gmap nat mic_stream) : gmap nat mic_stream :=
  match r with Some k => alter (fun _ => {| tracks_stopped := true |}) k m | None => m end.

Definition close_opt (r : option nat) (m : gmap nat socket) : gmap nat socket :=
  match r with Some sid => alter close_socket sid m | None => m end.

Definition closed_ctx (ctx : Playback.audio_ctx) (t : Q) : Playback.audio_ctx :=
  {| Playback.ctx_created := Playback.ctx_created ctx; Playback.ctx_closed_at := Some t |}.

Definition ctx_closing (r : option nat) (t : Q) (cs : gmap nat Playback.audio_ctx)
    : gmap nat Playback.audio_ctx * list effect :=
  match r with
  | None => (cs, [])
  | Some c =>
      match cs !! c with
      | None => (cs, [])
      | Some ctx =>
          match Playback.ctx_closed_at ctx with
          | None => (<[c := closed_ctx ctx t]> cs, [])
          | Some _ => (cs, [UnhandledRejection InvalidStateError])
          end
      end
  end.

Lemma disconnect_ref_eq r a : disconnect_ref r a = set_nodes (disc_opt r (nodes a)) a.
Proof. destruct r; [done|by destruct a]. Qed.

Lemma stop_tracks_eq r a : stop_tracks r a = set_streams (stop_opt r (streams a)) a.
Proof. destruct r; [done|by destruct a]. Qed.

Lemma close_ws_eq r a : close_ws r a = set_sockets (close_opt r (sockets a)) a.
Proof. destruct r; [done|by destruct a]. Qed.

Lemma close_ctx_eq r a :
  close_ctx r a =
    set_effects (effects a ++ snd (ctx_closing r (now a) (Playback.contexts (play a))))
      (set_play (with_contexts (fst (ctx_closing r (now a) (Playback.contexts (play a))))
                               (play a)) a).
Proof.
  unfold close_ctx, ctx_closing. destruct r as [c|];
    [destruct (Playback.contexts (play a) !! c) as [ctx|];
     [destruct (Playback.ctx_closed_at ctx)|]|];
    destruct a as [? ? ? ? ? ? [] ? ? ? ? ? ? ?]; cbn; rewrite ?app_nil_r; done.
Qed.

Lemma stopFlow_eq a :
  stopFlow a =
    {| token := token a; playbackSpeed := playbackSpeed a; wsRef := wsRef a;
       micStreamRef := micStreamRef a; workletNodeRef := workletNodeRef a;
       sourceRef := sourceRef a;
       play := {| Playback.audioCtxRef := Playback.audioCtxRef (play a);
                  Playback.nextPlayTimeRef := 0;
                  Playback.contexts :=
                    fst (ctx_closing (Playback.audioCtxRef (play a)) (now a)
                                     (Playback.contexts (play a)));
                  Playback.sources := Playback.sources (play a) |};
       transcript := transcript a;
       sockets := close_opt (wsRef a) (sockets a);
       streams := stop_opt (micStreamRef a) (streams a);
       nodes := disc_opt (sourceRef a) (disc_opt (workletNodeRef a) (nodes a));
       awaiting_list := awaiting_list a;
       effects := effects a ++ snd (ctx_closing (Playback.audioCtxRef (play a)) (now a)
                                                (Playback.contexts (play a)));
       now := now a |}.
Proof.
  unfold stopFlow. cbv zeta.
  rewrite close_ws_eq, close_ctx_eq, stop_tracks_eq, !disconnect_ref_eq.
  by destruct a as [? ? ? ? ? ? [] ? ? ? ? ? ? ?].
Qed.

Lemma ctx_closing_twice r t t' cs :
  ctx_closing r t' (fst (ctx_closing r t cs)) =
    (fst (ctx_closing r t cs),
     match r with
     | Some c => match cs !! c with Some _ => [UnhandledRejection InvalidStateError] | None => [] end
     | None => []
     end).
Proof.
  destruct r as [c|]; [|done]. unfold ctx_closing; cbv beta iota.
  repeat case_match; simplify_map_eq; done.
Qed.

(** (C37) Teardown is idempotent except for one thing: every resource
    stays released, but a second [stopFlow] closes the context that the
    first one closed and whose ref it did not clear, and [close()] on a
    closed [AudioContext] returns a rejected promise nobody handles. *)
Theorem stopFlow_twice a :
  stopFlow (stopFlow a) =
    match Playback.audioCtxRef (play a) with
    | Some c =>
        match Playback.contexts (play a) !! c with
        | Some _ => add_effect (UnhandledRejection InvalidStateError) (stopFlow a)
        | None => stopFlow a
        end
    | None => stopFlow a
    end.
Proof.
  rewrite (stopFlow_eq (stopFlow a)), stopFlow_eq. cbn [token playbackSpeed wsRef micStreamRef
    workletNodeRef sourceRef play transcript sockets streams nodes awaiting_list effects now
    Playback.audioCtxRef Playback.contexts Playback.sources].
  rewrite ctx_closing_twice.
  assert (Hn : forall r m, disc_opt r (disc_opt r m) = disc_opt r m).
  { intros [n|] m; [apply alter_idem; by intros []|done]. }
  assert (Hs : forall r m, stop_opt r (stop_opt r m) = stop_opt r m).
  { intros [k|] m; [apply alter_idem; done|done]. }
  assert (Hw : forall r m, close_opt r (close_opt r m) = close_opt r m).
  { intros [k|] m; [apply alter_idem, close_socket_idem|done]. }
  assert (Hd : forall r1 r2 m,
            disc_opt r2 (disc_opt r1 (disc_opt r2 (disc_opt r1 m))) = disc_opt r2 (disc_opt r1 m)).
  { intros [i|] [j|] m; cbn; rewrite ?alter2_idem, ?alter_idem; try done; by intros []. }
  rewrite Hd, Hs, Hw.
  destruct (Playback.audioCtxRef (play a)) as [c|]; [destruct (Playback.contexts (play a) !! c)|];
  unfold add_effect, set_effects; cbn; rewrite ?app_nil_r; done.
Qed.

(** ** The protocol on every socket *)

(** What the server sees on one socket: nothing before it opens, the
    [StartConversation] message first once it is open, and audio only
    after it. *)
Definition sock_ok (ws : socket) : Prop :=
  (ws_ready ws = CONNECTING -> ws_sent ws = []) /\
  (ws_ready ws = OPEN -> ws_sent ws <> []) /\
  head (ws_sent ws) ∈ [None; Some (OutJson start_conversation_msg)].

Definition sockets_ok (a : App) : Prop := map_Forall (fun _ => sock_ok) (sockets a).

Lemma map_Forall_alter_2 {A} (P : nat -> A -> Prop) (f : A -> A) i (m : gmap nat A) :
  (forall x, m !! i = Some x -> P i x -> P i (f x)) ->
  map_Forall P m -> map_Forall P (alter f i m).
Proof.
  intros Hf Hm j y. rewrite lookup_alter_Some.
  intros [[-> (x & Hx & ->)]|[_ Hy]]; [apply Hf|apply Hm]; auto.
Qed.

Lemma sockets_ok_set_sockets_alter f i a :
  (forall x, sockets a !! i = Some x -> sock_ok x -> sock_ok (f x)) ->
  sockets_ok a -> sockets_ok (set_sockets (alter f i (sockets a)) a).
Proof. intros Hf. apply map_Forall_alter_2. auto. Qed.

Lemma close_socket_ok ws : sock_ok ws -> sock_ok (close_socket ws).
Proof.
  destruct ws as [[] sp sent]; intros (H1 & H2 & H3); repeat split; cbn in *; try done.
Qed.

Lemma sockets_stopFlow a : sockets (stopFlow a) = close_opt (wsRef a) (sockets a).
Proof. by rewrite stopFlow_eq. Qed.

Lemma stopFlow_sockets_ok a : sockets_ok a -> sockets_ok (stopFlow a).
Proof.
  unfold sockets_ok. rewrite sockets_stopFlow. destruct (wsRef a); [|done].
  apply map_Forall_alter_2. intros x _. apply close_socket_ok.
Qed.

Lemma head_snoc {A} (l : list A) x : l <> [] -> head (l ++ [x]) = head l.
Proof. by destruct l. Qed.

Lemma on_open_sockets sid a :
  sockets (on_open sid a) =
    alter (fun ws => {| ws_ready := OPEN; ws_speed := ws_speed ws;
                        ws_sent := ws_sent ws ++ [OutJson start_conversation_msg] |}) sid (sockets a).
Proof. unfold on_open, send, set_ready. cbn. by rewrite alter_alter_eq. Qed.

Lemma on_open_sockets_ok sid a :
  socket_in a sid (fun r => r = CONNECTING) -> sockets_ok a -> sockets_ok (on_open sid a).
Proof.
  intros (ws & Hws & Hc) Hok. unfold sockets_ok. rewrite on_open_sockets.
  apply map_Forall_alter_2; [|done]. intros x Hx _. rewrite Hws in Hx. injection Hx as <-.
  destruct (Hok sid ws Hws) as (H1 & _ & _). rewrite (H1 Hc).
  repeat split; cbn; [done|done|set_solver].
Qed.

Lemma worklet_frame_sockets_ok n input a : sockets_ok a -> sockets_ok (worklet_frame n input a).
Proof.
  intros Hok. unfold worklet_frame.
  repeat case_match; try done. unfold send.
  apply sockets_ok_set_sockets_alter; [|done].
  intros x Hx (Hc1 & Hc2 & Hc3).
  assert (Hr : ws_ready x = OPEN) by (simplify_eq; done).
  pose proof (Hc2 Hr) as Hne.
  repeat split; cbn; [by rewrite Hr|by destruct (ws_sent x)|by rewrite head_snoc].
Qed.

Lemma on_message_sockets {JP : JsonParse} sid d a : sockets (on_message sid d a) = sockets a.
Proof.
  unfold on_message. destruct (sockets a !! sid) as [ws|]; [|done].
  destruct d as [raw|bytes]; [by unfold exec; rewrite zoom_transcript_exec|].
  rewrite zoom_play_exec. cbn. by destruct (Playback.playAudioChunk _ _ _ _) as [ps []].
Qed.

Lemma mic_granted_sockets sid a : sockets (mic_granted sid a) = sockets a.
Proof. unfold mic_granted. by destruct (Playback.create_context _ _). Qed.

Lemma startFlow_sockets_ok a : sockets_ok a -> sockets_ok (startFlow a).
Proof.
  intros Hok. unfold startFlow. case_match; try done. case_decide; [done|].
  apply map_Forall_insert_2; [|done]. repeat split; cbn; [done|set_solver].
Qed.

Lemma handle_sockets_ok {JP : JsonParse} e a :
  enabled e a -> sockets_ok a -> sockets_ok (handle e a).
Proof.
  intros He Hok. destruct e; cbn [handle enabled] in *;
    first [ done
          | by apply startFlow_sockets_ok
          | by apply stopFlow_sockets_ok
          | by apply on_open_sockets_ok
          | by apply worklet_frame_sockets_ok
          | unfold sockets_ok; by rewrite on_message_sockets
          | unfold sockets_ok; by rewrite mic_granted_sockets
          | apply stopFlow_sockets_ok, sockets_ok_set_sockets_alter; [|done];
            intros x _ (_ & _ & H3); by repeat split ].
Qed.

(** (C4) In every state the page can reach, every socket it opened has
    received nothing while connecting, has received the
    [StartConversation] control message as its first message, and
    receives audio only after it: the microphone frames can never reach
    the server ahead of the session configuration. *)
Theorem reachable_sockets_ok {JP : JsonParse} a :
  reachable a ->
  forall sid ws, sockets a !! sid = Some ws ->
    (ws_ready ws = CONNECTING -> ws_sent ws = []) /\
    (ws_ready ws = OPEN -> ws_sent ws <> []) /\
    head (ws_sent ws) ∈ [None; Some (OutJson start_conversation_msg)].
Proof.
  intros Hr. induction Hr as [|a e _ IH He].
  - done.
  - apply (handle_sockets_ok e a He IH).
Qed.

(** ** Teardown and restart *)

(** Reduce the projections of the state records, leaving map operations
    folded. *)
Ltac app_cbn :=
  cbn [token playbackSpeed wsRef micStreamRef workletNodeRef sourceRef play transcript
       sockets streams nodes awaiting_list effects now set_sockets set_ready set_play
       Playback.audioCtxRef Playback.nextPlayTimeRef Playback.contexts Playback.sources
       Playback.create_context fst snd close_opt disc_opt stop_opt].

Lemma disc_opt_lookup r n m :
  r = Some n -> disc_opt r m !! n = disconnect <$> m !! n.
Proof. intros ->. apply lookup_alter_eq. Qed.

Lemma disc_opt_lookup_other r n m :
  r <> Some n -> disc_opt r m !! n = m !! n.
Proof. destruct r as [k|]; [|done]. intros Hk. apply lookup_alter_ne. congruence. Qed.

Lemma disc_opt2_lookup r1 r2 n m :
  r1 = Some n \/ r2 = Some n -> disc_opt r2 (disc_opt r1 m) !! n = disconnect <$> m !! n.
Proof.
  intros Hr. destruct (decide (r2 = Some n)) as [E2|E2].
  - rewrite (disc_opt_lookup _ _ _ E2).
    destruct (decide (r1 = Some n)) as [E1|E1].
    + rewrite (disc_opt_lookup _ _ _ E1). by destruct (m !! n).
    + by rewrite disc_opt_lookup_other.
  - rewrite disc_opt_lookup_other by done. apply disc_opt_lookup. tauto.
Qed.

Lemma ctx_closing_lookup c t cs ctx :
  cs !! c = Some ctx ->
  exists t', fst (ctx_closing (Some c) t cs) !! c = Some (closed_ctx ctx t').
Proof.
  intros Hc. unfold ctx_closing. rewrite Hc. destruct (Playback.ctx_closed_at ctx) as [t0|] eqn:E.
  - exists t0. cbn [fst]. rewrite Hc. destruct ctx; cbn in *. by subst.
  - exists t. cbn [fst]. apply lookup_insert_eq.
Qed.

Lemma ctx_closing_other r t cs c :
  r <> Some c -> fst (ctx_closing r t cs) !! c = cs !! c.
Proof.
  intros Hr. destruct r as [c'|]; [|done]. unfold ctx_closing; cbv beta iota.
  destruct (cs !! c'); [|done]. case_match; [done|].
  apply lookup_insert_ne. congruence.
Qed.

(** (C8) What [stopFlow] releases: the microphone stream's tracks are
    stopped, the worklet and source nodes disconnected, the socket
    closed, the context closed and the cursor reset; but no ref is
    cleared, so every ref still names the released object. *)
Theorem stopFlow_releases a m n1 n2 sid c ctx :
  micStreamRef a = Some m -> workletNodeRef a = Some n1 -> sourceRef a = Some n2 ->
  wsRef a = Some sid -> Playback.audioCtxRef (play a) = Some c ->
  Playback.contexts (play a) !! c = Some ctx ->
  let b := stopFlow a in
  streams b !! m = (fun _ => {| tracks_stopped := true |}) <$> streams a !! m /\
  nodes b !! n1 = disconnect <$> nodes a !! n1 /\
  nodes b !! n2 = disconnect <$> nodes a !! n2 /\
  sockets b !! sid = close_socket <$> sockets a !! sid /\
  (exists t, Playback.contexts (play b) !! c = Some (closed_ctx ctx t)) /\
  Playback.nextPlayTimeRef (play b) = 0 /\
  micStreamRef b = Some m /\ workletNodeRef b = Some n1 /\ sourceRef b = Some n2 /\
  wsRef b = Some sid /\ Playback.audioCtxRef (play b) = Some c.
Proof.
  intros Hm Hn1 Hn2 Hs Hc Hctx. cbv zeta. rewrite stopFlow_eq; app_cbn.
  rewrite Hm, Hs, Hc, !disc_opt2_lookup by auto.
  split; [apply lookup_alter_eq|]. split; [done|]. split; [done|].
  split; [apply lookup_alter_eq|]. split; [by apply ctx_closing_lookup|]. done.
Qed.

(** (C32) The Stop button runs the teardown twice: [stopFlow] closes the
    socket, whose [onclose] handler is [stopFlow] again, and that second
    run calls [close()] on the context the first one closed.  The page
    ends with an unhandled promise rejection ([InvalidStateError]). *)
Theorem stop_then_onclose {JP : JsonParse} a sid c ctx :
  wsRef a = Some sid -> Playback.audioCtxRef (play a) = Some c ->
  Playback.contexts (play a) !! c = Some ctx -> Playback.ctx_closed_at ctx = None ->
  effects (handle (WsClose sid) (handle ClickStop a)) =
    effects a ++ [UnhandledRejection InvalidStateError].
Proof.
  intros Hs Hc Hctx Hopen. cbn [handle].
  rewrite stopFlow_eq. app_cbn. rewrite stopFlow_eq. app_cbn.
  rewrite Hc, ctx_closing_twice, Hctx. unfold ctx_closing.
  by rewrite Hctx, Hopen, app_nil_r.
Qed.

(** The new context of [getUserMedia]'s continuation replaces the one in
    the ref; the cursor is kept. *)
Lemma mic_granted_play sid a :
  play (mic_granted sid a) = snd (Playback.create_context (now a) (play a)).
Proof. unfold mic_granted. by destruct (Playback.create_context _ _). Qed.

Lemma create_context_fresh ps c :
  c ∈ dom (Playback.contexts ps) -> Playback.fresh_ctx ps <> c.
Proof. intros Hc <-. exact (is_fresh _ Hc). Qed.

(** (C33) A context the player created lazily, for a frame that arrived
    before the microphone was granted, leaks: [getUserMedia]'s
    continuation overwrites [audioCtxRef] with a new context, so the
    following teardown closes the new one and the old one stays open
    with no ref naming it. *)
Theorem lazy_context_leaked {JP : JsonParse} a sid c0 ctx0 :
  Playback.audioCtxRef (play a) = Some c0 -> Playback.contexts (play a) !! c0 = Some ctx0 ->
  Playback.ctx_closed_at ctx0 = None ->
  let b := handle ClickStop (handle (MicGranted sid) a) in
  Playback.contexts (play b) !! c0 = Some ctx0 /\ Playback.audioCtxRef (play b) <> Some c0.
Proof.
  intros Hc Hctx Hopen. cbv zeta. cbn [handle]. rewrite stopFlow_eq. app_cbn.
  rewrite mic_granted_play. app_cbn.
  assert (Hf : Playback.fresh_ctx (play a) <> c0).
  { apply create_context_fresh. by apply elem_of_dom. }
  rewrite ctx_closing_other by congruence.
  rewrite lookup_insert_ne by done. split; [done|congruence].
Qed.


Lemma mic_granted_now sid a : now (mic_granted sid a) = now a.
Proof. unfold mic_granted. by destruct (Playback.create_context _ _). Qed.

(** (C34) The cursor survives the context it measures: when
    [getUserMedia]'s continuation replaces the context (whose clock starts
    again at 0), [nextPlayTimeRef] keeps the old context's time, so the
    next frame is scheduled at that old time on the new clock, that many
    seconds of silence late. *)
Theorem stale_cursor_delay {JP : JsonParse} a sid sid' ws bytes :
  sockets a !! sid = Some ws -> FrameCodec.decode bytes <> [] ->
  0 <= Playback.nextPlayTimeRef (play a) ->
  let b := handle (WsMessage sid (Binary bytes)) (handle (MicGranted sid') a) in
  exists c src,
    Playback.audioCtxRef (play b) = Some c /\
    Playback.contexts (play b) !! c =
      Some {| Playback.ctx_created := now a; Playback.ctx_closed_at := None |} /\
    Playback.sources (play b) = Playback.sources (play a) ++ [src] /\
    Playback.src_ctx src = c /\
    Playback.src_start src == Playback.nextPlayTimeRef (play a).
Proof.
  intros Hs Hb Hcur. cbv zeta. cbn [handle].
  rewrite (on_message_binary sid ws) by (by rewrite mic_granted_sockets).
  rewrite mic_granted_now, mic_granted_play.
  set (c := Playback.fresh_ctx (play a)).
  assert (Hr : Playback.ref_ok (snd (Playback.create_context (now a) (play a)))).
  { cbn. rewrite dom_insert_L. set_solver. }
  destruct (Playback.playAudioChunk_spec (ws_speed ws) (now a) bytes _ Hr Hb)
    as (id & ctx & src & Hid & Hctx & Hp & Hsc & Hst & _ & _).
  rewrite (Playback.ensure_context_some _ _ c) in Hid, Hctx, Hp, Hst by done.
  cbn in Hid. injection Hid as <-. cbn in Hctx. rewrite lookup_insert_eq in Hctx.
  injection Hctx as <-. rewrite Hp. app_cbn.
  exists c, src. split; [done|]. split; [apply lookup_insert_eq|].
  split; [done|]. split; [done|].
  rewrite Hst. apply Q.max_l. unfold Playback.current_time.
  cbn [Playback.ctx_closed_at Playback.ctx_created]. lra.
Qed.

(** ** Concrete sessions *)

(** The events of a run, each enabled where it happens. *)
Fixpoint run_enabled {JP : JsonParse} (es : list event) (a : App) : Prop :=
  match es with
  | [] => True
  | e :: rest => enabled e a /\ run_enabled rest (handle e a)
  end.

Lemma reachable_run {JP : JsonParse} es a :
  reachable a -> run_enabled es a -> reachable (run es a).
Proof.
  revert a. induction es as [|e es IH]; intros a Hr Hen; [done|].
  destruct Hen as [He Hen]. apply IH; [by constructor|done].
Qed.

(** ** What keeps a session running *)

(** The events that end a session: the Stop button, and the socket's
    [onclose] and [onerror], which run [stopFlow]. *)
Definition ends_session (e : event) : bool :=
  match e with
  | ClickStop | WsClose _ | WsError _ => true
  | _ => false
  end.

(** The session of socket [sid] streams: the socket is open, and the
    worklet node [n] that sends on it is connected on a context that is
    not closed. *)
Definition streaming (sid n : nat) (a : App) : Prop :=
  (exists ws, sockets a !! sid = Some ws /\ ws_ready ws = OPEN) /\
  exists c ctx, nodes a !! n = Some {| node_kind_of := WorkletNode sid; node_ctx := c;
                                       node_connected := true |} /\
    Playback.contexts (play a) !! c = Some ctx /\ Playback.ctx_closed_at ctx = None.

(** An open socket stays open. *)
Definition open_kept (a a' : App) : Prop :=
  forall sid ws, sockets a !! sid = Some ws -> ws_ready ws = OPEN ->
    exists ws', sockets a' !! sid = Some ws' /\ ws_ready ws' = OPEN.

Lemma open_kept_eq a a' : sockets a' = sockets a -> open_kept a a'.
Proof. intros Heq sid ws Hs Ho. rewrite Heq. eauto. Qed.

Lemma open_kept_alter a f i :
  (forall ws, ws_ready ws = OPEN -> ws_ready (f ws) = OPEN) ->
  open_kept a (set_sockets (alter f i (sockets a)) a).
Proof.
  intros Hf sid ws Hs Ho. cbn [sockets set_sockets].
  destruct (decide (sid = i)) as [->|Hne].
  - rewrite lookup_alter_eq, Hs. eexists. split; [done|]. by apply Hf.
  - rewrite lookup_alter_ne by done. eauto.
Qed.

Lemma on_message_contexts {JP : JsonParse} sid d a :
  Playback.contexts (play a) ⊆ Playback.contexts (play (on_message sid d a)).
Proof.
  unfold on_message. destruct (sockets a !! sid) as [ws|]; [|done].
  destruct d as [raw|bytes]; [by unfold exec; rewrite zoom_transcript_exec|].
  unfold exec. rewrite zoom_transcript_exec, zoom_play_exec. cbn [fst snd].
  pose proof (Playback.playAudioChunk_sub (ws_speed ws) (now a) bytes (play a)) as H.
  destruct (Playback.playAudioChunk _ _ _ _) as [ps []]; exact H.
Qed.

Lemma on_message_nodes {JP : JsonParse} sid d a : nodes (on_message sid d a) = nodes a.
Proof.
  unfold on_message. destruct (sockets a !! sid) as [ws|]; [|done].
  destruct d as [raw|bytes]; [by unfold exec; rewrite zoom_transcript_exec|].
  rewrite zoom_play_exec. cbn. by destruct (Playback.playAudioChunk _ _ _ _) as [ps []].
Qed.

Lemma handle_open_kept {JP : JsonParse} e a :
  ends_session e = false -> open_kept a (handle e a).
Proof.
  intros He. destruct e; cbn [handle ends_session] in *; try discriminate;
    try (apply open_kept_eq; reflexivity).
  - intros sid ws Hs Ho. unfold startFlow. destruct (token a); try (cbn; eauto).
    case_decide; [cbn; eauto|]. cbn [set_wsRef set_sockets sockets].
    rewrite lookup_insert_ne; [eauto|]. intros <-. exact (is_fresh (dom (sockets a)) (elem_of_dom_2 _ _ _ Hs)).
  - intros s ws Hs Ho. rewrite on_open_sockets. destruct (decide (s = sid)) as [->|Hne].
    + rewrite lookup_alter_eq, Hs. by eexists.
    + rewrite lookup_alter_ne by done. eauto.
  - apply open_kept_eq, on_message_sockets.
  - unfold worklet_frame. repeat case_match; try (apply open_kept_eq; reflexivity).
    by apply open_kept_alter.
Qed.

Lemma handle_nodes_sub {JP : JsonParse} e a :
  ends_session e = false -> nodes a ⊆ nodes (handle e a).
Proof.
  intros He. destruct e; cbn [handle ends_session] in *; try discriminate; try reflexivity.
  - unfold startFlow. by repeat case_match.
  - by rewrite on_message_nodes.
  - unfold module_loaded. cbn [set_nodes set_workletNodeRef set_sourceRef set_awaiting_list nodes].
    transitivity (<[fresh (dom (nodes a)) := {| node_kind_of := WorkletNode sid; node_ctx := c;
                                                node_connected := true |}]> (nodes a)).
    + apply insert_subseteq, not_elem_of_dom. exact (is_fresh (dom (nodes a))).
    + apply insert_subseteq, not_elem_of_dom. apply is_fresh.
  - unfold worklet_frame. by repeat case_match.
Qed.

Lemma handle_contexts_sub {JP : JsonParse} e a :
  ends_session e = false -> Playback.contexts (play a) ⊆ Playback.contexts (play (handle e a)).
Proof.
  intros He. destruct e; cbn [handle ends_session] in *; try discriminate; try reflexivity.
  - unfold startFlow. by repeat case_match.
  - apply on_message_contexts.
  - unfold mic_granted. cbn [play now set_micStreamRef set_streams].
    pose proof (Playback.create_context_sub (now a) (play a)) as H.
    destruct (Playback.create_context _ _) as [c ps]. exact H.
  - unfold worklet_frame. by repeat case_match.
Qed.

Lemma streaming_step {JP : JsonParse} e a sid n :
  ends_session e = false -> streaming sid n a -> streaming sid n (handle e a).
Proof.
  intros He [(ws & Hs & Ho) (c & ctx & Hn & Hc & Hcl)]. split.
  - exact (handle_open_kept e a He sid ws Hs Ho).
  - exists c, ctx. split; [|split; [|done]].
    + eapply lookup_weaken; [exact Hn|]. by apply handle_nodes_sub.
    + eapply lookup_weaken; [exact Hc|]. by apply handle_contexts_sub.
Qed.

(** A session set up the normal way: token, Start, the socket opens, the
    microphone is granted and the worklet module loads. *)
Definition demo_setup : list event :=
  [SetToken "abc"; ClickStart; WsOpen 0; MicGranted 0; ModuleLoaded 0 0 0].

Definition demo_live : App := @run Transcript.demo_parser demo_setup initial.

(** A frame arrives before the microphone is granted. *)
Definition demo_early : App :=
  @run Transcript.demo_parser
    [SetToken "abc"; ClickStart; WsOpen 0; WsMessage 0 (Binary [1; 0; 2; 0]%Z)] initial.

Definition demo_socket : socket :=
  {| ws_ready := OPEN; ws_speed := 1; ws_sent := [OutJson start_conversation_msg] |}.

Definition demo_ctx : Playback.audio_ctx :=
  {| Playback.ctx_created := 0; Playback.ctx_closed_at := None |}.

Lemma demo_live_reachable : @reachable Transcript.demo_parser demo_live.
Proof.
  apply reachable_run; [constructor|]. cbn [run_enabled].
  repeat split; try (vm_compute; eexists; split; reflexivity);
    vm_compute; left.
Qed.

(** ** Witnesses: the session properties on concrete runs *)

Local Open Scope nat_scope.

Lemma speed_change_ignored_witness :
  exists src,
    Playback.sources (play (@handle Transcript.demo_parser (WsMessage 0 (Binary [1; 0; 2; 0]%Z))
                             (@handle Transcript.demo_parser (SetSpeed 2%Q) demo_live))) =
      Playback.sources (play demo_live) ++ [src] /\
    Playback.src_rate src = ws_speed demo_socket /\
    playbackSpeed (@handle Transcript.demo_parser (WsMessage 0 (Binary [1; 0; 2; 0]%Z))
                     (@handle Transcript.demo_parser (SetSpeed 2%Q) demo_live)) = 2%Q.
Proof.
  apply (@speed_change_ignored Transcript.demo_parser demo_live 0 demo_socket 2%Q).
  - vm_compute. reflexivity.
  - apply (bool_decide_unpack _). vm_compute. reflexivity.
  - vm_compute. discriminate.
Defined.

Definition nbsp_token : string := String (Ascii.ascii_of_nat 9)
  (String " " (String (Ascii.ascii_of_nat 160) EmptyString)).

Lemma start_blank_token_witness :
  startFlow (set_token (JStr nbsp_token) initial) =
    add_effect (Alert "Please enter a JWT token.") (set_token (JStr nbsp_token) initial).
Proof. apply (start_blank_token _ nbsp_token); vm_compute; reflexivity. Defined.

Lemma reachable_sockets_ok_witness :
  (ws_ready demo_socket = CONNECTING -> ws_sent demo_socket = []) /\
  (ws_ready demo_socket = OPEN -> ws_sent demo_socket <> []) /\
  head (ws_sent demo_socket) ∈ [None; Some (OutJson start_conversation_msg)].
Proof.
  apply (@reachable_sockets_ok Transcript.demo_parser demo_live demo_live_reachable 0).
  vm_compute. reflexivity.
Defined.

Lemma frame_dropped_unless_open_witness :
  worklet_frame 0 (Some [(1 # 2)%Q]) (stopFlow demo_live) = stopFlow demo_live.
Proof.
  apply (frame_dropped_unless_open 0 0 (disconnect {| node_kind_of := WorkletNode 0; node_ctx := 0;
                                                      node_connected := true |}) _
           {| ws_ready := CLOSING; ws_speed := 1; ws_sent := [OutJson start_conversation_msg] |}).
  - vm_compute. reflexivity.
  - reflexivity.
  - vm_compute. reflexivity.
  - discriminate.
Defined.

Lemma stopFlow_releases_witness :
  let b := stopFlow demo_live in
  streams b !! 0 = (fun _ => {| tracks_stopped := true |}) <$> streams demo_live !! 0 /\
  nodes b !! 0 = disconnect <$> nodes demo_live !! 0 /\
  nodes b !! 1 = disconnect <$> nodes demo_live !! 1 /\
  sockets b !! 0 = close_socket <$> sockets demo_live !! 0 /\
  (exists t, Playback.contexts (play b) !! 0 = Some (closed_ctx demo_ctx t)) /\
  Playback.nextPlayTimeRef (play b) = 0%Q /\
  micStreamRef b = Some 0%nat /\ workletNodeRef b = Some 0%nat /\ sourceRef b = Some 1%nat /\
  wsRef b = Some 0%nat /\ Playback.audioCtxRef (play b) = Some 0%nat.
Proof. apply stopFlow_releases; vm_compute; reflexivity. Defined.

Lemma stop_then_onclose_witness :
  effects (@handle Transcript.demo_parser (WsClose 0) (@handle Transcript.demo_parser ClickStop demo_live)) =
    effects demo_live ++ [UnhandledRejection InvalidStateError].
Proof. apply (stop_then_onclose demo_live 0 0 demo_ctx); vm_compute; reflexivity. Defined.

Lemma lazy_context_leaked_witness :
  let b := @handle Transcript.demo_parser ClickStop
             (@handle Transcript.demo_parser (MicGranted 0) demo_early) in
  Playback.contexts (play b) !! 0 = Some demo_ctx /\ Playback.audioCtxRef (play b) <> Some 0%nat.
Proof. apply (lazy_context_leaked demo_early 0 0 demo_ctx); vm_compute; reflexivity. Defined.

Lemma stale_cursor_delay_witness :
  let b := @handle Transcript.demo_parser (WsMessage 0 (Binary [1; 0; 2; 0]%Z))
             (@handle Transcript.demo_parser (MicGranted 0) demo_early) in
  exists c src,
    Playback.audioCtxRef (play b) = Some c /\
    Playback.contexts (play b) !! c =
      Some {| Playback.ctx_created := now demo_early; Playback.ctx_closed_at := None |} /\
    Playback.sources (play b) = Playback.sources (play demo_early) ++ [src] /\
    Playback.src_ctx src = c /\
    Playback.src_start src == Playback.nextPlayTimeRef (play demo_early).
Proof.
  apply (stale_cursor_delay demo_early 0 0 demo_socket).
  - vm_compute. reflexivity.
  - vm_compute. discriminate.
  - vm_compute. discriminate.
Defined.


End Session.
