(* ===== verification/TokenFetch.v ===== *)
(** * TokenFetch: the Update Token button

    [fetchToken] (src/src/App.jsx lines 23-41; src/poc2.jsx lines 21-39
    is the same code) is an [async] handler: it POSTs to the token
    endpoint, awaits the response, awaits [res.json()], and stores
    [data.key_value] with [setToken] when that value is truthy; any
    exception on the way (the network failure of [fetch], the
    [SyntaxError] of a body that is not JSON, the [TypeError] of reading
    [key_value] on a [null] body) is caught and raises an alert.

    Nothing changes the state between the two [await]s, so a request is
    answered by one event, [Answer i ans], whose [ans] is what the two
    promises give together: [Failed] when one of them rejects, [Body t]
    when the body's text is [t] (whatever the HTTP status).  The
    requests in flight are [in_flight]: several clicks make several
    requests, answered in any order, each continuation running once.

    The handler works on the session's state ([Session.App]: [token] and
    the [effects] that record alerts) beside the requests' [FState];
    [Component] puts both in the page's state. *)

From stdpp Require Import base list.
From Stdlib Require Import String.
From S2P Require Import Prelude Json Session.

Import Js.

Module TokenFetch.

Local Open Scope string_scope.
Local Open Scope list_scope.

(** ** The requests *)

Inductive answer :=
| Failed                     (** [fetch] or [res.json()]'s body read rejects *)
| Body (text : string).      (** the text of the response's body *)

Record FState := {
  next_request : nat;        (** the id the next request gets *)
  in_flight : list nat       (** the requests whose continuation has not run *)
}.

Definition fstate_initial : FState := {| next_request := 0; in_flight := [] |}.

(** [fetchToken()] up to its first [await] (lines 25-35): one request
    more in flight. *)
Definition fetchToken (f : FState) : FState :=
  {| next_request := S (next_request f); in_flight := in_flight f ++ [next_request f] |}.

(** The request [i]'s promise has settled. *)
Definition settle (i : nat) (f : FState) : FState :=
  {| next_request := next_request f; in_flight := filter (fun j => j <> i) (in_flight f) |}.

(** ** The continuation (lines 36-40) *)

Section Continuation.
Context {JP : JsonParse}.

(** [await fetch(...)] and [await res.json()]: a rejection is thrown
    at the [await]; [res.json()] is [JSON.parse] of the body's text. *)
Definition await_json (ans : answer) : JS Session.App jsval :=
  match ans with
  | Failed => js_throw TypeError
  | Body t =>
      match json_parse t with
      | Some v => mret v
      | None => js_throw SyntaxError
      end
  end.

(** [data.key_value], throwing on [null]. *)
Definition read_prop (v : jsval) (k : string) : JS Session.App jsval :=
  match prop v k with
  | Some w => mret w
  | None => js_throw TypeError
  end.

Definition fetch_continue (ans : answer) : JS Session.App unit :=
  try_catch (
    data ← await_json ans;
    k ← read_prop data "key_value";
    if truthy k then js_modify (Session.set_token k) else mret tt)
  (fun _ => js_modify (Session.add_effect (Session.Alert "Failed to fetch token"))).

(** ** Events *)

Inductive event :=
| ClickUpdate                      (** the Update Token button *)
| Answer (i : nat) (ans : answer). (** the request [i]'s promises settle *)

Definition handle (e : event) (st : Session.App * FState) : Session.App * FState :=
  let '(a, f) := st in
  match e with
  | ClickUpdate => (a, fetchToken f)
  | Answer i ans =>
      if decide (i ∈ in_flight f) then (exec (fetch_continue ans) a, settle i f)
      else (a, f)
  end.

Definition enabled (e : event) (st : Session.App * FState) : Prop :=
  match e with
  | ClickUpdate => True
  | Answer i _ => i ∈ in_flight st.2
  end.

End Continuation.

Lemma settle_not_in i f : i ∉ in_flight (settle i f).
Proof. cbn. rewrite list_elem_of_filter. tauto. Qed.

(** ** The continuation on each kind of answer *)

Section Outcomes.
Context {JP : JsonParse}.

Definition failed_alert (a : Session.App) : Session.App :=
  Session.add_effect (Session.Alert "Failed to fetch token") a.

(** The body parses to [data], whose [key_value] reads as [k]. *)
Lemma fetch_continue_read t data k a :
  json_parse t = Some data -> prop data "key_value" = Some k ->
  exec (fetch_continue (Body t)) a = if truthy k then Session.set_token k a else a.
Proof.
  intros Hp Hk. unfold fetch_continue, await_json, read_prop, exec, try_catch, mbind, mret,
    js_bind, js_ret. rewrite Hp. cbv beta iota. rewrite Hk. by destruct (truthy k).
Qed.

(** The body [t] is an object whose [key_value] is the truthy [k]. *)
Definition carries_key (t : string) (k : jsval) : Prop :=
  exists fs, json_parse t = Some (JObj fs) /\ field_last "key_value" fs = Some k /\
    truthy k = true.

Lemma prop_defined v k :
  v <> JNull -> v <> JUndefined -> prop v k = Some (opt_prop v k).
Proof. by destruct v. Qed.

Lemma fetch_continue_key t k a :
  carries_key t k -> exec (fetch_continue (Body t)) a = Session.set_token k a.
Proof.
  intros (fs & Hp & Hk & Ht). rewrite (fetch_continue_read t (JObj fs) k a Hp); [by rewrite Ht|].
  by rewrite prop_obj, Hk.
Qed.

(** The continuation leaves the state as it was, stores a token, or
    raises the alert. *)
Lemma fetch_continue_cases ans a :
  exec (fetch_continue ans) a = a \/
  (exists k, exec (fetch_continue ans) a = Session.set_token k a) \/
  exec (fetch_continue ans) a = failed_alert a.
Proof.
  destruct ans as [|t]; [by right; right|].
  destruct (json_parse t) as [v|] eqn:Hp;
    [|right; right; unfold fetch_continue, await_json; by rewrite Hp].
  destruct (prop v "key_value") as [k|] eqn:Hk.
  - rewrite (fetch_continue_read t v k a Hp Hk). destruct (truthy k); [right; left; by exists k|by left].
  - right; right. unfold fetch_continue, await_json, read_prop, exec, try_catch, mbind, mret,
      js_bind, js_ret. rewrite Hp. cbv beta iota. by rewrite Hk.
Qed.

End Outcomes.

(** ** Properties of the Update Token button *)

(** (C20) A response whose body is an object with a truthy [key_value]
    stores that value, whatever its type, as the token, and nothing else
    changes. *)
Theorem fetch_stores_key {JP : JsonParse} t fs k a :
  json_parse t = Some (JObj fs) -> field_last "key_value" fs = Some k -> truthy k = true ->
  exec (fetch_continue (Body t)) a = Session.set_token k a.
Proof. intros Hp Hk Ht. apply fetch_continue_key. by exists fs. Qed.

(** (C21) The three failures the handler catches raise the alert
    "Failed to fetch token" and change nothing else: a rejected [fetch]
    or body read, a body that is not JSON, and a body that is [null]. *)
Theorem fetch_failure_alerts {JP : JsonParse} ans a :
  (ans = Failed \/ exists t, ans = Body t /\
     (json_parse t = None \/ json_parse t = Some JNull)) ->
  exec (fetch_continue ans) a = failed_alert a.
Proof.
  intros [->|(t & -> & [Hp|Hp])]; unfold fetch_continue, await_json, read_prop;
    rewrite ?Hp; reflexivity.
Qed.

(** (C22) A JSON body without a truthy [key_value] (the error object of
    a refused request, [{}], a number) is ignored silently: no token and
    no alert, although the request failed. *)
Theorem fetch_no_key_silent {JP : JsonParse} t data a :
  json_parse t = Some data -> data <> JNull -> data <> JUndefined ->
  truthy (opt_prop data "key_value") = false ->
  exec (fetch_continue (Body t)) a = a.
Proof.
  intros Hp Hn Hu Hf. rewrite (fetch_continue_read t data _ a Hp (prop_defined _ _ Hn Hu)).
  by rewrite Hf.
Qed.

(** Each request's continuation runs once: a second settlement of
    the same request changes nothing. *)
Theorem answer_runs_once {JP : JsonParse} i ans ans' st :
  handle (Answer i ans') (handle (Answer i ans) st) = handle (Answer i ans) st.
Proof.
  destruct st as [a f]. cbn. case_decide as Hi; cbn.
  - by rewrite decide_False by apply settle_not_in.
  - by rewrite decide_False.
Qed.

(** ** Witnesses *)

Definition demo_parser : JsonParse :=
  table_parser [("k", JObj [("key_value", JStr "jwt")]);
                ("k2", JObj [("key_value", JStr "jwt2")]);
                ("num", JObj [("key_value", JNum (QArith_base.inject_Z 42%Z))]);
                ("err", JObj [("detail", JStr "Unauthorized")]);
                ("nil", JNull)].

Lemma fetch_stores_key_witness :
  @exec _ unit (@fetch_continue demo_parser (Body "k")) Session.initial =
    Session.set_token (JStr "jwt") Session.initial.
Proof.
  apply (@fetch_stores_key demo_parser "k" [("key_value", JStr "jwt")]); reflexivity.
Defined.

Lemma fetch_failure_alerts_witness :
  @exec _ unit (@fetch_continue demo_parser (Body "nil")) Session.initial =
    failed_alert Session.initial.
Proof.
  apply (@fetch_failure_alerts demo_parser). right. exists "nil". split; [done|].
  right. reflexivity.
Defined.

Lemma fetch_no_key_silent_witness :
  @exec _ unit (@fetch_continue demo_parser (Body "err")) Session.initial = Session.initial.
Proof.
  apply (@fetch_no_key_silent demo_parser "err" (JObj [("detail", JStr "Unauthorized")]));
    [reflexivity|discriminate|discriminate|reflexivity].
Defined.

End TokenFetch.
