(* ===== verification/Clipboard.v ===== *)
(** * Clipboard: the Copy Token button

    The button's handler (src/src/App.jsx lines 319-331; src/poc2.jsx
    lines 224-236 is the same code) copies the token in one of two ways:
    with [navigator.clipboard], [writeText(token)] starts an asynchronous
    write that nobody awaits, and the alert "Token copied to clipboard!"
    is raised at once; without it, the handler selects the token input
    ([document.getElementById("token-input")], whose value React keeps
    equal to [token]) and runs [document.execCommand("copy")], whose
    result it ignores, then raises the same alert.

    Whether the browser has [navigator.clipboard] and whether it lets
    [execCommand("copy")] write are properties of the browser, the
    Section's variables [has_api] and [exec_copy_allowed]; whether one
    [writeText] is granted is decided when its promise settles
    ([WriteSettled i ok]).  A write carries the value [writeText] was
    called with, and the clipboard holds the string conversion of the
    value last written, [contents]. *)

From stdpp Require Import base list gmap.
From Stdlib Require Import String.
From S2P Require Import Prelude Json Session.

Import Js.

Module ClipboardCopy.

Local Open Scope string_scope.
Local Open Scope list_scope.

Record Clip := {
  contents : option jsval;     (** what the system clipboard holds *)
  writes : gmap nat jsval;     (** the [writeText] promises not settled *)
  next_write : nat
}.

Definition clip_initial : Clip := {| contents := None; writes := ∅; next_write := 0 |}.

Definition copied_msg : string := "Token copied to clipboard!".

Definition set_contents (v : jsval) (cl : Clip) : Clip :=
  {| contents := Some v; writes := writes cl; next_write := next_write cl |}.

Definition drop_write (i : nat) (cl : Clip) : Clip :=
  {| contents := contents cl; writes := delete i (writes cl); next_write := next_write cl |}.

(** [navigator.clipboard.writeText(v)]: one write more pending. *)
Definition writeText (v : jsval) (cl : Clip) : Clip :=
  {| contents := contents cl; writes := <[next_write cl := v]> (writes cl);
     next_write := S (next_write cl) |}.

Section Browser.
Variable has_api : bool.
Variable exec_copy_allowed : bool.

(** The [onClick] handler (lines 319-331). *)
Definition copyToken (st : Session.App * Clip) : Session.App * Clip :=
  let '(a, cl) := st in
  if has_api then
    (Session.add_effect (Session.Alert copied_msg) a, writeText (Session.token a) cl)
  else
    let cl' := if exec_copy_allowed then set_contents (Session.token a) cl else cl in
    (Session.add_effect (Session.Alert copied_msg) a, cl').

End Browser.

(** The promise of the write [i] settles: a granted write fills the
    clipboard, a refused one rejects with [NotAllowedError] and, as
    nothing handles it, is reported unhandled. *)
Definition write_settled (i : nat) (ok : bool) (st : Session.App * Clip) : Session.App * Clip :=
  let '(a, cl) := st in
  match writes cl !! i with
  | None => (a, cl)
  | Some v =>
      if ok then (a, set_contents v (drop_write i cl))
      else (Session.add_effect (Session.UnhandledRejection NotAllowedError) a, drop_write i cl)
  end.

Inductive event :=
| ClickCopy
| WriteSettled (i : nat) (ok : bool).

Definition handle (has_api exec_copy_allowed : bool) (e : event)
    (st : Session.App * Clip) : Session.App * Clip :=
  match e with
  | ClickCopy => copyToken has_api exec_copy_allowed st
  | WriteSettled i ok => write_settled i ok st
  end.

(** ** Lemmas *)

Lemma writeText_lookup v cl : writes (writeText v cl) !! next_write cl = Some v.
Proof. apply lookup_insert_eq. Qed.

Lemma copyToken_api exec_ok a cl :
  copyToken true exec_ok (a, cl) =
    (Session.add_effect (Session.Alert copied_msg) a, writeText (Session.token a) cl).
Proof. reflexivity. Qed.

Lemma write_settled_some i ok a cl v :
  writes cl !! i = Some v ->
  write_settled i ok (a, cl) =
    if ok then (a, set_contents v (drop_write i cl))
    else (Session.add_effect (Session.UnhandledRejection NotAllowedError) a, drop_write i cl).
Proof. intros H. cbn. by rewrite H. Qed.

(** ** Properties of the Copy Token button *)

(** (C19) With [navigator.clipboard] the alert claims the copy is done
    before the write happens: right after the click the alert is raised
    and the clipboard holds what it held; if the browser then refuses
    the write, the clipboard still holds it and the rejection goes
    unhandled, the user having been told the token was copied. *)
Theorem copy_reported_before_write exec_ok a cl :
  let '(a1, cl1) := copyToken true exec_ok (a, cl) in
  Session.effects a1 = Session.effects a ++ [Session.Alert copied_msg] /\
  contents cl1 = contents cl /\
  let '(a2, cl2) := write_settled (next_write cl) false (a1, cl1) in
  contents cl2 = contents cl /\
  Session.effects a2 =
    Session.effects a ++ [Session.Alert copied_msg; Session.UnhandledRejection NotAllowedError].
Proof.
  rewrite copyToken_api. split; [done|]. split; [done|].
  rewrite (write_settled_some _ _ _ _ _ (writeText_lookup _ _)). split; [done|].
  cbn. by rewrite <- app_assoc.
Qed.

(** The two ways of copying agree when they succeed: a granted
    [writeText] and an allowed [execCommand("copy")] leave the same
    session state (one alert) and the token in the clipboard. *)
Theorem copy_branches_agree exec_ok a cl :
  let api := write_settled (next_write cl) true (copyToken true exec_ok (a, cl)) in
  let fallback := copyToken false true (a, cl) in
  api.1 = fallback.1 /\ contents api.2 = contents fallback.2 /\
  contents fallback.2 = Some (Session.token a).
Proof.
  cbv zeta. rewrite copyToken_api.
  rewrite (write_settled_some _ _ _ _ _ (writeText_lookup _ _)). done.
Qed.

End ClipboardCopy.
