(* ===== verification/Component.v ===== *)
(** * Component: the two React components, assembled from their parts

    src/src/App.jsx is one component whose state is the session's
    ([Session.App]: connection, capture, playback, transcript), the
    recording feature's ([Recording.RState]) and, shared by every
    component of the page, the [window] object its mount effect writes
    (lines 43-66): [window.AudioWorkletNodeRegistered] and
    [window.pcmProcessorUrl], the blob URL of the worklet's source.  An
    event of the page is an event of one of the parts or the mount; the
    Clear button is the recording feature's [clearAll].  [view_app] is
    what the component renders (lines 364-446).  The Update Token and
    Copy Token buttons ([TokenFetch], [ClipboardCopy]) act on the
    session's [token] and [effects] beside their own requests and
    writes; [BrowserEnv] says which clipboard API the browser offers.
    [app_enabled] says which events the page's state enables, each as
    its part's machine says.  A render whose view throws unmounts the
    page ([mounted], React 18 without an error boundary): the page's own
    events end there, while the closures of the socket, the worklet,
    the recorder, the timers and the pending promises go on.  After a
    render that commits new pairs the scroll effect (lines 230-234)
    calls [scrollIntoView]; [scrolls] counts the calls.

    src/poc2.jsx ([Module Poc2]) is the earlier copy: the same session
    code except that its [onmessage] uses the [&&] version of the text
    branch ([Transcript.on_text_poc2]), no recording feature, a Clear
    button that empties the message log, and a table view.  Its text
    branch computes what App.jsx's does
    ([Transcript.on_text_poc2_equiv]); the two pages differ in their
    views, hence in which renders unmount them ([unmount_regression]),
    and in Clear ([clear_differs]).  Its Update Token and Copy Token
    buttons are App.jsx's code. *)

From stdpp Require Import base list gmap.
From Stdlib Require Import QArith String.
From S2P Require Import Prelude Json Playback Transcript View Recording Session TokenFetch Clipboard.

Import Js.

Module Component.

Local Open Scope list_scope.

(** ** The [window] object *)

Record Window := {
  workletRegistered : bool;        (** [window.AudioWorkletNodeRegistered] *)
  pcmProcessorUrl : option nat;    (** [window.pcmProcessorUrl], a blob URL *)
  blob_urls : nat                  (** the blob URLs created so far *)
}.

Definition window_initial : Window :=
  {| workletRegistered := false; pcmProcessorUrl := None; blob_urls := 0 |}.

(** The mount effect (App.jsx lines 43-66, poc2.jsx lines 42-64): the
    processor's source is made a blob URL once per page, whichever
    component mounts first. *)
Definition register_worklet (w : Window) : Window :=
  if workletRegistered w then w
  else {| workletRegistered := true; pcmProcessorUrl := Some (blob_urls w);
          blob_urls := S (blob_urls w) |}.

(** The browser: whether [navigator.clipboard] exists, and whether it
    lets [document.execCommand("copy")] write. *)
Class BrowserEnv := {
  has_clipboard_api : bool;
  exec_copy_allowed : bool
}.

(** ** src/src/App.jsx *)

Record AppC := {
  sess : Session.App;
  rec : Recording.RState;
  win : Window;
  fetch : TokenFetch.FState;
  clip : ClipboardCopy.Clip;
  mounted : bool;       (** the React root still shows the component *)
  scrolls : nat         (** the [scrollIntoView] calls of the chat's end marker *)
}.

Definition app_initial : AppC :=
  {| sess := Session.initial; rec := Recording.initial; win := window_initial;
     fetch := TokenFetch.fstate_initial; clip := ClipboardCopy.clip_initial; mounted := true;
     scrolls := 0 |}.

Definition with_sess (a : Session.App) (c : AppC) : AppC :=
  {| sess := a; rec := rec c; win := win c; fetch := fetch c; clip := clip c; mounted := mounted c;
     scrolls := scrolls c |}.
Definition with_rec (r : Recording.RState) (c : AppC) : AppC :=
  {| sess := sess c; rec := r; win := win c; fetch := fetch c; clip := clip c; mounted := mounted c;
     scrolls := scrolls c |}.
Definition with_win (w : Window) (c : AppC) : AppC :=
  {| sess := sess c; rec := rec c; win := w; fetch := fetch c; clip := clip c; mounted := mounted c;
     scrolls := scrolls c |}.
Definition with_fetch (f : TokenFetch.FState) (c : AppC) : AppC :=
  {| sess := sess c; rec := rec c; win := win c; fetch := f; clip := clip c; mounted := mounted c;
     scrolls := scrolls c |}.
Definition with_clip (cl : ClipboardCopy.Clip) (c : AppC) : AppC :=
  {| sess := sess c; rec := rec c; win := win c; fetch := fetch c; clip := cl; mounted := mounted c;
     scrolls := scrolls c |}.

(** React 18 unmounts the whole root when a render throws and no error
    boundary catches it (App.jsx has none).  The closures the socket,
    the worklet, the recorder, the timers and the pending promises hold
    keep running; the page's buttons are gone. *)
Definition unmount (c : AppC) : AppC :=
  {| sess := sess c; rec := rec c; win := win c; fetch := fetch c; clip := clip c; mounted := false;
     scrolls := scrolls c |}.

(** The effect of lines 230-234, run after a commit that changed
    [promptPairs]: the end marker [<div ref={chatEndRef} />] (line 421)
    is rendered with the chat, so [chatEndRef.current] is set and the
    chat scrolls. *)
Definition scroll_into_view (c : AppC) : AppC :=
  {| sess := sess c; rec := rec c; win := win c; fetch := fetch c; clip := clip c;
     mounted := mounted c; scrolls := S (scrolls c) |}.

(** The effect's dependency [promptPairs] changes at a render exactly
    when a [setPromptPairs] updater is queued: each returns a new array,
    and React compares dependencies with [Object.is].  [setMessages]
    alone leaves it. *)
Definition is_pair_update (u : Transcript.update) : bool :=
  match u with
  | Transcript.AppendPair _ => true
  | _ => false
  end.

Definition pairs_changed (t : Transcript.TState) : bool :=
  existsb is_pair_update (Transcript.pending t).

(** What App.jsx renders of the transcript (lines 364-446): the chat view
    of the committed pairs and the message log. *)
Definition view_app (c : AppC) : option (list View.element * list View.rchild) :=
  els ← View.render_app (Transcript.promptPairs (Session.transcript (sess c)));
  mret (els, View.render_messages (Transcript.messages (Session.transcript (sess c)))).

Inductive app_event :=
| Mount
| SessionEv (e : Session.event)
| RecordingEv (e : Recording.event)
| TokenEv (e : TokenFetch.event)
| ClipEv (e : ClipboardCopy.event).

(** The events of the page itself: its effects, its renders and the
    clicks and edits on its elements. *)
Definition page_event (e : app_event) : bool :=
  match e with
  | Mount
  | SessionEv (Session.SetToken _ | Session.SetSpeed _ | Session.ClickStart | Session.ClickStop
               | Session.Render)
  | RecordingEv (Recording.ClickRecord | Recording.ClickDownload | Recording.ClickClear)
  | TokenEv TokenFetch.ClickUpdate
  | ClipEv ClipboardCopy.ClickCopy => true
  | _ => false
  end.

Section App.
Context {JP : JsonParse} {BR : BrowserEnv}.

Definition handle_app (e : app_event) (c : AppC) : AppC :=
  match e with
  | Mount => scroll_into_view (with_win (register_worklet (win c)) c)
  | SessionEv Session.Render =>
      let c' := with_sess (Session.handle Session.Render (sess c)) c in
      match view_app c' with
      | Some _ => if pairs_changed (Session.transcript (sess c)) then scroll_into_view c' else c'
      | None => unmount c'
      end
  | SessionEv e => with_sess (Session.handle e (sess c)) c
  | RecordingEv e => with_rec (Recording.handle e (rec c)) c
  | TokenEv e =>
      let '(a, f) := TokenFetch.handle e (sess c, fetch c) in with_fetch f (with_sess a c)
  | ClipEv e =>
      let '(a, cl) := ClipboardCopy.handle has_clipboard_api exec_copy_allowed e (sess c, clip c) in
      with_clip cl (with_sess a c)
  end.

(** An event is enabled when its part's machine enables it and, for the
    page's own events, while the page is mounted. *)
Definition app_enabled (e : app_event) (c : AppC) : Prop :=
  (page_event e = true -> mounted c = true) /\
  match e with
  | Mount | ClipEv _ => True
  | SessionEv e => Session.enabled e (sess c)
  | RecordingEv e => Recording.enabled e (rec c)
  | TokenEv e => TokenFetch.enabled e (sess c, fetch c)
  end.

Fixpoint run_app (es : list app_event) (c : AppC) : AppC :=
  match es with
  | [] => c
  | e :: es => run_app es (handle_app e c)
  end.

Fixpoint app_run_enabled (es : list app_event) (c : AppC) : Prop :=
  match es with
  | [] => True
  | e :: es => app_enabled e c /\ app_run_enabled es (handle_app e c)
  end.

End App.

(** ** Properties of the page *)

Section Page.
Context {JP : JsonParse} {BR : BrowserEnv}.

(** A session event changes only the session's part (and, for a render
    that throws, unmounts the page). *)
Lemma handle_app_session e c :
  sess (handle_app (SessionEv e) c) = Session.handle e (sess c) /\
  fetch (handle_app (SessionEv e) c) = fetch c /\ clip (handle_app (SessionEv e) c) = clip c /\
  rec (handle_app (SessionEv e) c) = rec c.
Proof. destruct e; try done. cbn [handle_app]. by repeat case_match. Qed.

Lemma handle_app_answer c i ans :
  i ∈ TokenFetch.in_flight (fetch c) ->
  handle_app (TokenEv (TokenFetch.Answer i ans)) c =
    with_fetch (TokenFetch.settle i (fetch c))
      (with_sess (exec (TokenFetch.fetch_continue ans) (sess c)) c).
Proof. intros H. cbn. by rewrite decide_True. Qed.

(** The session's closing events, whoever triggers them. *)
Definition app_ends_session (e : app_event) : bool :=
  match e with
  | SessionEv e => Session.ends_session e
  | _ => false
  end.

Lemma mounted_false_step e c : mounted c = false -> mounted (handle_app e c) = false.
Proof.
  intros H. destruct e as [|e|e|e|e]; cbn [handle_app]; try done.
  - destruct e; try done. by repeat case_match.
  - by destruct (TokenFetch.handle e (sess c, fetch c)).
  - by destruct (ClipboardCopy.handle _ _ e (sess c, clip c)).
Qed.

Lemma streaming_same sid n a a' :
  Session.sockets a' = Session.sockets a -> Session.nodes a' = Session.nodes a ->
  Session.play a' = Session.play a -> Session.streaming sid n a -> Session.streaming sid n a'.
Proof. unfold Session.streaming. by intros -> -> ->. Qed.

Lemma streaming_app_step e c sid n :
  app_enabled e c -> app_ends_session e = false ->
  Session.streaming sid n (sess c) -> Session.streaming sid n (sess (handle_app e c)).
Proof.
  intros _ He Hs. destruct e as [|e|e|e|e]; cbn [app_ends_session] in He.
  - done.
  - destruct (handle_app_session e c) as (-> & _). by apply Session.streaming_step.
  - done.
  - cbn [handle_app]. destruct e as [|i ans]; cbn; [done|]. case_decide; cbn; [|done].
    destruct (TokenFetch.fetch_continue_cases ans (sess c)) as [->|[[k ->]| ->]]; [done| |];
      by eapply streaming_same.
  - cbn [handle_app]. destruct e as [|i ok]; cbn.
    + by destruct has_clipboard_api, exec_copy_allowed; eapply streaming_same.
    + destruct (ClipboardCopy.writes (clip c) !! i); [|done]. destruct ok; [done|].
      by eapply streaming_same.
Qed.

Lemma streaming_app_run es c sid n :
  app_run_enabled es c -> Forall (fun e => app_ends_session e = false) es ->
  Session.streaming sid n (sess c) ->
  Session.streaming sid n (sess (run_app es c)) /\ (mounted c = false -> mounted (run_app es c) = false).
Proof.
  revert c. induction es as [|e es IH]; intros c Hen Hf Hs; [done|].
  destruct Hen as [He Hen]. apply Forall_cons in Hf as [He' Hf]. cbn [run_app].
  destruct (IH (handle_app e c) Hen Hf (streaming_app_step e c sid n He He' Hs)) as [H1 H2].
  split; [done|]. intros Hm. apply H2, mounted_false_step, Hm.
Qed.

(** A render whose view throws leaves the session's state as the render
    made it and unmounts the page. *)
Lemma render_error_unmounts c :
  View.render_app (Transcript.promptPairs (Transcript.render (Session.transcript (sess c)))) = None ->
  handle_app (SessionEv Session.Render) c =
    unmount (with_sess (Session.handle Session.Render (sess c)) c).
Proof.
  intros Hv. cbn [handle_app]. unfold view_app. cbn [sess with_sess Session.handle].
  change (Session.transcript (Session.set_transcript ?t ?a)) with t. by rewrite Hv.
Qed.

Local Open Scope nat_scope.

(** A render adds one pair per queued [setPromptPairs] updater. *)
Lemma fold_pairs_length us t :
  List.length (Transcript.promptPairs (fold_left Transcript.apply_update us t)) =
    List.length (Transcript.promptPairs t) + List.length (List.filter is_pair_update us).
Proof.
  revert t. induction us as [|u us IH]; intros t; cbn; [lia|].
  rewrite IH. destruct u; cbn; rewrite ?length_app; cbn; lia.
Qed.

Lemma render_pairs_length t :
  List.length (Transcript.promptPairs (Transcript.render t)) =
    List.length (Transcript.promptPairs t) + List.length (List.filter is_pair_update (Transcript.pending t)).
Proof. apply fold_pairs_length. Qed.

Lemma pairs_changed_filter t :
  pairs_changed t = false <-> List.filter is_pair_update (Transcript.pending t) = [].
Proof.
  unfold pairs_changed. induction (Transcript.pending t) as [|u us IH]; cbn; [done|].
  destruct (is_pair_update u); cbn; [done|]. exact IH.
Qed.

(** A render whose view does not throw keeps the page mounted. *)
Lemma render_ok c :
  View.render_app (Transcript.promptPairs (Transcript.render (Session.transcript (sess c)))) <> None ->
  handle_app (SessionEv Session.Render) c =
    let c' := with_sess (Session.handle Session.Render (sess c)) c in
    if pairs_changed (Session.transcript (sess c)) then scroll_into_view c' else c'.
Proof.
  intros Hv. cbn [handle_app]. unfold view_app. cbn [sess with_sess Session.handle].
  change (Session.transcript (Session.set_transcript ?t ?a)) with t.
  destruct (View.render_app _) as [els|]; [done|]. by destruct Hv.
Qed.

(** The two clicks of the Update Token button, starting from [c]. *)
Definition two_requests (c : AppC) : AppC :=
  handle_app (TokenEv TokenFetch.ClickUpdate) (handle_app (TokenEv TokenFetch.ClickUpdate) c).

End Page.

(** (C17) The token requests are not ordered: after two clicks of Update
    Token and a token typed by hand, if the second request is answered
    first, the first request's answer arrives last and its key replaces
    both the typed token and the newer key. *)
Theorem stale_answer_wins {JP : JsonParse} {BR : BrowserEnv} c s ti tj ki kj :
  TokenFetch.carries_key ti ki -> TokenFetch.carries_key tj kj ->
  let n := TokenFetch.next_request (fetch c) in
  let c1 := run_app [SessionEv (Session.SetToken s);
                     TokenEv (TokenFetch.Answer (S n) (TokenFetch.Body tj))] (two_requests c) in
  Session.token (sess c1) = kj /\
  Session.token (sess (handle_app (TokenEv (TokenFetch.Answer n (TokenFetch.Body ti))) c1)) = ki.
Proof.
  intros Hi Hj. cbv zeta. set (n := TokenFetch.next_request (fetch c)). cbn [run_app].
  rewrite (handle_app_answer _ (S n)) by (cbn; set_solver).
  rewrite handle_app_answer
    by (cbn; apply list_elem_of_filter; split; [lia|set_solver]).
  cbn [sess with_sess]. rewrite (TokenFetch.fetch_continue_key _ _ _ Hi).
  by rewrite (TokenFetch.fetch_continue_key _ _ _ Hj).
Qed.

(** (C18) A truthy key that is not a string (a number, an object)
    disables the Start button: once it is stored, [startFlow]'s
    [token.trim()] throws, no socket is opened, and the only trace is an
    unhandled rejection. *)
Theorem nonstring_key_blocks_start {JP : JsonParse} {BR : BrowserEnv} c i t k :
  i ∈ TokenFetch.in_flight (fetch c) -> TokenFetch.carries_key t k -> (forall s, k <> JStr s) ->
  let c' := run_app [TokenEv (TokenFetch.Answer i (TokenFetch.Body t)); SessionEv Session.ClickStart] c in
  Session.sockets (sess c') = Session.sockets (sess c) /\
  Session.wsRef (sess c') = Session.wsRef (sess c) /\
  Session.effects (sess c') = Session.effects (sess c) ++ [Session.UnhandledRejection TypeError].
Proof.
  intros Hin Hk Hns. cbv zeta. cbn [run_app]. rewrite handle_app_answer by done.
  cbn [handle_app sess with_sess with_fetch Session.handle].
  rewrite (TokenFetch.fetch_continue_key _ _ _ Hk).
  by rewrite Session.startFlow_nonstring.
Qed.

(** (C13) A render error orphans the session: when the pairs committed
    at a render make the chat view throw (a response that is not a
    string), React unmounts the page, and from then on, whatever the
    socket, the worklet, the recorder, the timers and the pending
    promises do, the microphone keeps streaming to the open socket
    unless the server or the network closes it, and no button (Stop
    included) and no render is left to the user. *)
Theorem render_error_orphans_session {JP : JsonParse} {BR : BrowserEnv} c sid n :
  Session.streaming sid n (sess c) ->
  View.render_app (Transcript.promptPairs (Transcript.render (Session.transcript (sess c)))) = None ->
  let c1 := handle_app (SessionEv Session.Render) c in
  mounted c1 = false /\
  forall es, app_run_enabled es c1 -> Forall (fun e => app_ends_session e = false) es ->
    Session.streaming sid n (sess (run_app es c1)) /\
    forall e, page_event e = true -> ~ app_enabled e (run_app es c1).
Proof.
  intros Hs Hv. cbv zeta. rewrite (render_error_unmounts c Hv). split; [done|].
  intros es Hen Hf.
  assert (Hs1 : Session.streaming sid n (sess (unmount (with_sess (Session.handle Session.Render (sess c)) c))))
    by (apply Session.streaming_step; [done|exact Hs]).
  destruct (streaming_app_run es _ sid n Hen Hf Hs1) as [H1 H2].
  split; [done|]. intros e Hp [Hm _]. specialize (Hm Hp). by rewrite H2 in Hm.
Qed.

(** (C23) The scroll effect (lines 230-234) runs once per committed
    render that adds pairs, however many it adds, and not at a render
    that adds none (a message log entry alone does not scroll, as the
    comment of line 234 says); the page stays mounted. *)
Theorem render_scrolls {JP : JsonParse} {BR : BrowserEnv} c :
  let t := Session.transcript (sess c) in
  View.render_app (Transcript.promptPairs (Transcript.render t)) <> None ->
  let c1 := handle_app (SessionEv Session.Render) c in
  mounted c1 = mounted c /\
  (List.length (Transcript.promptPairs (Transcript.render t)) = List.length (Transcript.promptPairs t) ->
     scrolls c1 = scrolls c) /\
  ((List.length (Transcript.promptPairs t) <
     List.length (Transcript.promptPairs (Transcript.render t)))%nat ->
     scrolls c1 = S (scrolls c)).
Proof.
  cbv zeta. intros Hv. rewrite (render_ok c Hv). rewrite render_pairs_length.
  destruct (pairs_changed _) eqn:Hp.
  - split; [done|]. split; [|done]. intros Hl.
    destruct (List.filter _ _) eqn:Hf; [|cbn in Hl; lia].
    by apply pairs_changed_filter in Hf; rewrite Hf in Hp.
  - apply pairs_changed_filter in Hp. rewrite Hp. cbn. split; [done|]. split; [done|lia].
Qed.

(** ** Witnesses *)

Definition demo_browser : BrowserEnv := {| has_clipboard_api := true; exec_copy_allowed := true |}.

Local Open Scope nat_scope.

Lemma stale_answer_wins_witness :
  let c1 := @run_app TokenFetch.demo_parser demo_browser
              [SessionEv (Session.SetToken "typed");
               TokenEv (TokenFetch.Answer 1 (TokenFetch.Body "k2"))]
              (@two_requests TokenFetch.demo_parser demo_browser app_initial) in
  Session.token (sess c1) = JStr "jwt2" /\
  Session.token (sess (@handle_app TokenFetch.demo_parser demo_browser
                         (TokenEv (TokenFetch.Answer 0 (TokenFetch.Body "k"))) c1)) = JStr "jwt".
Proof.
  apply (@stale_answer_wins TokenFetch.demo_parser demo_browser app_initial "typed" "k" "k2").
  - eexists. split; [reflexivity|]. split; reflexivity.
  - eexists. split; [reflexivity|]. split; reflexivity.
Defined.

Lemma nonstring_key_blocks_start_witness :
  let c := @handle_app TokenFetch.demo_parser demo_browser (TokenEv TokenFetch.ClickUpdate) app_initial in
  let c' := @run_app TokenFetch.demo_parser demo_browser
              [TokenEv (TokenFetch.Answer 0 (TokenFetch.Body "num")); SessionEv Session.ClickStart] c in
  Session.sockets (sess c') = Session.sockets (sess c) /\
  Session.wsRef (sess c') = Session.wsRef (sess c) /\
  Session.effects (sess c') = Session.effects (sess c) ++ [Session.UnhandledRejection TypeError].
Proof.
  apply (@nonstring_key_blocks_start TokenFetch.demo_parser demo_browser _ 0 "num" (Js.JNum (QArith_base.inject_Z 42%Z))).
  - vm_compute. left.
  - eexists. split; [reflexivity|]. split; reflexivity.
  - intros s. discriminate.
Defined.

(** A live session (the socket 0 open, the worklet node 0 sending on it)
    whose service answered the prompt "A" with the number 7. *)
Definition chat_parser : JsonParse :=
  table_parser [("pa"%string, Transcript.prompt_msg (JStr "A"));
                ("rn"%string, Transcript.response_msg (JNum 7));
                ("rr"%string, Transcript.response_msg (JStr "R"))].

Definition demo_orphan : AppC :=
  @run_app chat_parser demo_browser
    [SessionEv (Session.SetToken "abc"); SessionEv Session.ClickStart; SessionEv (Session.WsOpen 0);
     SessionEv (Session.MicGranted 0); SessionEv (Session.ModuleLoaded 0 0 0);
     SessionEv (Session.WsMessage 0 (Session.Text "pa")); SessionEv Session.Render;
     SessionEv (Session.WsMessage 0 (Session.Text "rn"))] app_initial.

Lemma render_error_orphans_session_witness :
  let c1 := @handle_app chat_parser demo_browser (SessionEv Session.Render) demo_orphan in
  mounted c1 = false /\
  forall es, @app_run_enabled chat_parser demo_browser es c1 ->
    Forall (fun e => app_ends_session e = false) es ->
    Session.streaming 0 0 (sess (@run_app chat_parser demo_browser es c1)) /\
    forall e, page_event e = true ->
      ~ app_enabled e (@run_app chat_parser demo_browser es c1).
Proof.
  apply (@render_error_orphans_session chat_parser demo_browser demo_orphan 0 0).
  - unfold Session.streaming. vm_compute.
    split; [eexists; split; reflexivity|do 2 eexists; split; [reflexivity|split; reflexivity]].
  - vm_compute. reflexivity.
Defined.

(** The same session whose service answered "A" with the text "R". *)
Definition demo_chat : AppC :=
  @run_app chat_parser demo_browser
    [SessionEv (Session.SetToken "abc"); SessionEv Session.ClickStart; SessionEv (Session.WsOpen 0);
     SessionEv (Session.WsMessage 0 (Session.Text "pa")); SessionEv Session.Render;
     SessionEv (Session.WsMessage 0 (Session.Text "rr"))] app_initial.

Lemma render_scrolls_witness :
  let t := Session.transcript (sess demo_chat) in
  let c1 := @handle_app chat_parser demo_browser (SessionEv Session.Render) demo_chat in
  mounted c1 = mounted demo_chat /\
  (List.length (Transcript.promptPairs (Transcript.render t)) =
     List.length (Transcript.promptPairs t) -> scrolls c1 = scrolls demo_chat) /\
  (List.length (Transcript.promptPairs t) <
     List.length (Transcript.promptPairs (Transcript.render t)) -> scrolls c1 = S (scrolls demo_chat)).
Proof. apply (@render_scrolls chat_parser demo_browser demo_chat). vm_compute. discriminate. Defined.

End Component.

(** ** src/poc2.jsx *)

Module Poc2.

Import Component.

Record P2 := {
  p_sess : Session.App;
  p_win : Window;
  p_fetch : TokenFetch.FState;
  p_clip : ClipboardCopy.Clip;
  p_mounted : bool
}.

Definition p_initial : P2 :=
  {| p_sess := Session.initial; p_win := window_initial;
     p_fetch := TokenFetch.fstate_initial; p_clip := ClipboardCopy.clip_initial;
     p_mounted := true |}.

Definition with_p_sess (a : Session.App) (p : P2) : P2 :=
  {| p_sess := a; p_win := p_win p; p_fetch := p_fetch p; p_clip := p_clip p;
     p_mounted := p_mounted p |}.

(** A render that throws unmounts the root, as for App.jsx. *)
Definition p_unmount (p : P2) : P2 :=
  {| p_sess := p_sess p; p_win := p_win p; p_fetch := p_fetch p; p_clip := p_clip p;
     p_mounted := false |}.

(** What src/poc2.jsx renders of the transcript (lines 283-288 and
    309-311): the table of raw pairs and the message log. *)
Definition view (p : P2) : option (list (list View.rchild * list View.rchild) * list View.rchild) :=
  rows ← View.render_poc2 (Transcript.promptPairs (Session.transcript (p_sess p)));
  mret (rows, View.render_messages (Transcript.messages (Session.transcript (p_sess p)))).

Section Handlers.
Context {JP : JsonParse} {BR : BrowserEnv}.

(** [ws.onmessage] of src/poc2.jsx (lines 111-146). *)
Definition on_message (sid : nat) (d : Session.ws_data) (a : Session.App) : Session.App :=
  match Session.sockets a !! sid with
  | None => a
  | Some ws =>
      match d with
      | Session.Text raw => exec (zoom Session.transcript_lens (Transcript.on_text_poc2 raw)) a
      | Session.Binary bytes =>
          let a1 := exec (zoom Session.transcript_lens
                            (Transcript.set_messages_append (Session.preview bytes))) a in
          let '(a2, r) := zoom Session.play_lens
                            (Playback.playAudioChunk (Session.ws_speed ws) (Session.now a1) bytes) a1 in
          match r with
          | Normal _ => a2
          | Thrown e => Session.add_effect (Session.UncaughtException e) a2
          end
      end
  end.

(** [clearAll] of src/poc2.jsx (lines 163-165): [setMessages([])]. *)
Definition clearAll (a : Session.App) : Session.App :=
  Session.set_transcript (Transcript.enqueue Transcript.ClearMessages (Session.transcript a)) a.

Inductive event :=
| PMount
| PSession (e : Session.event)
| PClear
| PToken (e : TokenFetch.event)
| PClip (e : ClipboardCopy.event).

(** The page's events (the JSX of lines 201-316 and the socket's
    handlers): the session's, with poc2's own [onmessage]. *)
Definition handle (e : event) (p : P2) : P2 :=
  match e with
  | PMount => {| p_sess := p_sess p; p_win := register_worklet (p_win p);
                 p_fetch := p_fetch p; p_clip := p_clip p; p_mounted := p_mounted p |}
  | PSession (Session.WsMessage sid d) => with_p_sess (on_message sid d (p_sess p)) p
  | PSession Session.Render =>
      let p' := with_p_sess (Session.handle Session.Render (p_sess p)) p in
      match view p' with
      | Some _ => p'
      | None => p_unmount p'
      end
  | PSession e => with_p_sess (Session.handle e (p_sess p)) p
  | PClear => with_p_sess (clearAll (p_sess p)) p
  | PToken e =>
      let '(a, f) := TokenFetch.handle e (p_sess p, p_fetch p) in
      {| p_sess := a; p_win := p_win p; p_fetch := f; p_clip := p_clip p; p_mounted := p_mounted p |}
  | PClip e =>
      let '(a, cl) := ClipboardCopy.handle has_clipboard_api exec_copy_allowed e (p_sess p, p_clip p) in
      {| p_sess := a; p_win := p_win p; p_fetch := p_fetch p; p_clip := cl; p_mounted := p_mounted p |}
  end.

End Handlers.

(** ** Properties of the page *)

(** A second mount (React's StrictMode, or the other component) makes
    no new blob URL, and after a mount the URL [addModule] loads is set. *)
Lemma register_worklet_idem w :
  register_worklet (register_worklet w) = register_worklet w /\
  workletRegistered (register_worklet w) = true.
Proof. unfold register_worklet. by destruct (workletRegistered w) eqn:E; rewrite ?E. Qed.

(** [setMessages([])]'s update clears the log whatever was queued
    before it. *)
Lemma render_clear_messages t :
  Transcript.messages (Transcript.render (Transcript.enqueue Transcript.ClearMessages t)) = [] /\
  Transcript.promptPairs (Transcript.render (Transcript.enqueue Transcript.ClearMessages t)) =
    Transcript.promptPairs (Transcript.render t).
Proof.
  unfold Transcript.render, Transcript.enqueue. cbn [Transcript.pending].
  rewrite fold_left_app. cbn. split; [done|].
  change {| Transcript.lastPromptRef := Transcript.lastPromptRef t;
            Transcript.promptPairs := Transcript.promptPairs t;
            Transcript.messages := Transcript.messages t;
            Transcript.pending := Transcript.pending t ++ [Transcript.ClearMessages] |}
    with (Transcript.with_pending (Transcript.pending t ++ [Transcript.ClearMessages]) t).
  rewrite Transcript.fold_apply_pending. done.
Qed.

Lemma poc2_render_ok {JP : JsonParse} {BR : BrowserEnv} p :
  View.render_poc2 (Transcript.promptPairs (Transcript.render (Session.transcript (p_sess p)))) <> None ->
  handle (PSession Session.Render) p = with_p_sess (Session.handle Session.Render (p_sess p)) p.
Proof.
  intros Hv. cbn [handle]. unfold view. cbn [p_sess with_p_sess Session.handle].
  change (Session.transcript (Session.set_transcript ?t ?a)) with t.
  destruct (View.render_poc2 _); [done|]. by destruct Hv.
Qed.

(** (C14) App.jsx's rewrite of the view turned displayable responses
    into a dead page: when the pairs a render commits make App.jsx's
    chat view throw without containing an object (a response that is a
    number, a boolean or [null]), the same render unmounts App.jsx's
    page and leaves src/poc2.jsx's mounted, its table showing them. *)
Theorem unmount_regression {JP : JsonParse} {BR : BrowserEnv} c p :
  Session.transcript (sess c) = Session.transcript (p_sess p) ->
  let pairs := Transcript.promptPairs (Transcript.render (Session.transcript (sess c))) in
  View.render_app pairs = None ->
  Forall (fun pr => View.has_object (Transcript.prompt pr) || View.has_object (Transcript.response pr) = false)
    pairs ->
  mounted (handle_app (SessionEv Session.Render) c) = false /\
  p_mounted (handle (PSession Session.Render) p) = p_mounted p.
Proof.
  intros Ht. cbv zeta. intros Happ Hno. rewrite (render_error_unmounts c Happ). split; [done|].
  rewrite poc2_render_ok; [done|]. rewrite <- Ht, View.render_poc2_fails_iff.
  intros Hex. apply Exists_exists in Hex as (pr & Hin & Hpr).
  rewrite Forall_forall in Hno. by rewrite (Hno pr Hin) in Hpr.
Qed.

(** (C40) The two Clear buttons differ: src/poc2.jsx's empties the
    message log at the next render and keeps the pairs, while
    src/src/App.jsx's, whose comment says it clears the messages and the
    pairs, leaves the whole transcript as it was. *)
Theorem clear_differs {JP : JsonParse} {BR : BrowserEnv} c p :
  Session.transcript (sess (handle_app (RecordingEv Recording.ClickClear) c)) =
    Session.transcript (sess c) /\
  Transcript.messages (Transcript.render (Session.transcript (p_sess (handle PClear p)))) = [] /\
  Transcript.promptPairs (Transcript.render (Session.transcript (p_sess (handle PClear p)))) =
    Transcript.promptPairs (Transcript.render (Session.transcript (p_sess p))).
Proof. split; [done|]. apply render_clear_messages. Qed.

(** poc2.jsx's page after the events of [Component.demo_orphan]. *)
Definition demo_orphan_poc2 : P2 :=
  fold_left (fun p e => @handle chat_parser demo_browser e p)
    [PSession (Session.SetToken "abc"); PSession Session.ClickStart; PSession (Session.WsOpen 0);
     PSession (Session.MicGranted 0); PSession (Session.ModuleLoaded 0 0 0);
     PSession (Session.WsMessage 0 (Session.Text "pa")); PSession Session.Render;
     PSession (Session.WsMessage 0 (Session.Text "rn"))] p_initial.

Lemma unmount_regression_witness :
  mounted (@handle_app chat_parser demo_browser (SessionEv Session.Render) demo_orphan) = false /\
  p_mounted (@handle chat_parser demo_browser (PSession Session.Render) demo_orphan_poc2) =
    p_mounted demo_orphan_poc2.
Proof.
  apply (@unmount_regression chat_parser demo_browser demo_orphan demo_orphan_poc2).
  - vm_compute. reflexivity.
  - vm_compute. reflexivity.
  - vm_compute. repeat constructor.
Defined.

End Poc2.
